(** * nwbwidgets: the grouping, ordering and alignment core behind the
      raster and PSTH widgets ([nwbwidgets/misc.py])

    The development embeds the Python code shallowly.

    - A table cell is a [cell]: a number, a string, the float NaN, or a
      nested sequence.  Python floats and ints are idealised as exact
      rationals in canonical form ([Qc]), so that Python's [==] on numbers
      is Leibniz equality; rounding is outside the model.
    - Python exceptions are the constructors of [exn]; a computation that
      may raise has type [result A].
    - The calls into matplotlib are recorded, in program order, in a log of
      [draw] commands threaded by the [plt] monad.
    - [group_and_sort], [infer_categorical_columns],
      [align_by_time_intervals] and [compute_smoothed_firing_rate] belong to
      other modules of the package ([utils/dynamictable.py],
      [utils/units.py], [analysis/spikes.py]).  The functions of [misc.py]
      take them through the class [Imports]; the models that the
      specification gives of them are marked as such. *)

From Stdlib Require Import ZArith QArith Qcanon String Bool Arith Lia Lqa.
From Stdlib Require Import List Permutation Sorted.
Import ListNotations.

Local Open Scope string_scope.
Local Open Scope list_scope.
Local Open Scope nat_scope.

(** ** Numbers *)

Module Num.

(** An integer as a canonical rational. *)
Definition of_Z (z : Z) : Qc := Q2Qc (inject_Z z).
Definition of_nat (n : nat) : Qc := of_Z (Z.of_nat n).

(** [x == y] and [x <= y] on Python numbers. *)
Definition eqb (x y : Qc) : bool := Qeq_bool x y.
Definition leb (x y : Qc) : bool := Qle_bool x y.

Fixpoint list_eqb (xs ys : list Qc) : bool :=
  match xs, ys with
  | [], [] => true
  | x :: xs', y :: ys' => eqb x y && list_eqb xs' ys'
  | _, _ => false
  end.

End Num.

(** ** Cells, exceptions and the error monad *)

(** A value held in a table column.  [Seq] is a nested (iterable) cell such
    as a spike train; strings count as scalars. *)
Inductive cell : Type :=
| Num (q : Qc)
| Str (s : string)
| NaN
| Seq (ts : list Qc).

Definition Int (z : Z) : cell := Num (Num.of_Z z).

Definition isnan (c : cell) : bool :=
  match c with NaN => true | _ => false end.

(** Python's [a == b] on cells; NaN is equal to nothing, itself included. *)
Definition cell_eqb (a b : cell) : bool :=
  match a, b with
  | Num x, Num y => Num.eqb x y
  | Str s, Str t => String.eqb s t
  | Seq xs, Seq ys => Num.list_eqb xs ys
  | _, _ => false
  end.

(** The order used for sorting.  Numbers and strings compare as in Python;
    a numpy array has a single dtype, so the order across kinds is only
    there to make the comparison total: numbers, strings, sequences, and
    NaN last, where numpy's sort puts it. *)
Definition cell_rank (c : cell) : nat :=
  match c with Num _ => 0 | Str _ => 1 | Seq _ => 2 | NaN => 3 end.

Definition cell_leb (a b : cell) : bool :=
  match a, b with
  | Num x, Num y => Num.leb x y
  | Str s, Str t => String.leb s t
  | _, _ => cell_rank a <=? cell_rank b
  end.

Inductive exn : Type :=
| KeyError (key : string)
| IndexError
| ValueError (msg : string)
| TypeError
| AttributeError (attr : string)
| UnboundLocalError (var : string)
| ZeroDivisionError
| InvalidInput
| TraitError.

Inductive result (A : Type) : Type :=
| Ok (a : A)
| Raise (e : exn).
Arguments Ok {A} a.
Arguments Raise {A} e.

Definition rbind {A B} (r : result A) (k : A -> result B) : result B :=
  match r with
  | Ok a => k a
  | Raise e => Raise e
  end.

Declare Scope result_scope.
Delimit Scope result_scope with result.
Notation "x <- r ;; k" := (rbind r (fun x => k))
  (at level 61, r at next level, right associativity) : result_scope.
Notation "' p <- r ;; k" := (rbind r (fun x => match x with p => k end))
  (at level 61, p pattern, r at next level, right associativity) : result_scope.

Fixpoint mapM {A B} (f : A -> result B) (xs : list A) : result (list B) :=
  match xs with
  | [] => Ok []
  | x :: xs' =>
      (y <- f x ;; ys <- mapM f xs' ;; Ok (y :: ys))%result
  end.

(** The distinct values of an array in order of first appearance: a value
    joins [acc] when none of the values already there equals it. *)
Fixpoint distinct_from (acc : list cell) (vs : list cell) : list cell :=
  match vs with
  | [] => acc
  | v :: vs' =>
      distinct_from (if existsb (fun l => cell_eqb l v) acc then acc else acc ++ [v]) vs'
  end.

Definition distinct (vs : list cell) : list cell := distinct_from [] vs.

(** ** Indexing in the style of numpy *)

(** [xs[i]]: [IndexError] past the end. *)
Definition getitem {A} (xs : list A) (i : nat) : result A :=
  match nth_error xs i with
  | Some x => Ok x
  | None => Raise IndexError
  end.

(** [xs[idx]] for an array of indices. *)
Definition take {A} (xs : list A) (idx : list nat) : result (list A) :=
  mapM (getitem xs) idx.

(** [np.arange(a, b)]. *)
Definition arange (a b : nat) : list nat := seq a (b - a).

(** [xs[start:stop]]. *)
Definition slice {A} (start stop : nat) (xs : list A) : list A :=
  firstn (stop - start) (skipn start xs).

(** ** Tables, units and the file that holds them *)

(** A [DynamicTable]: the row ids, and the named columns in declared order. *)
Record DynamicTable : Type := {
  id : list Z;
  columns : list (string * list cell)
}.

(** [len(table)]. *)
Definition len (t : DynamicTable) : nat := length (id t).

Definition colnames (t : DynamicTable) : list string := map fst (columns t).

(** [name in table]. *)
Definition contains (t : DynamicTable) (name : string) : bool :=
  existsb (String.eqb name) (colnames t).

(** [table[name][:]]: the values of a column, [KeyError] when there is none. *)
Definition column (t : DynamicTable) (name : string) : result (list cell) :=
  match find (fun c => String.eqb name (fst c)) (columns t) with
  | Some c => Ok (snd c)
  | None => Raise (KeyError name)
  end.

Record NWBFile : Type := {
  trials : option DynamicTable;
  epochs : option DynamicTable
}.

(** The units table together with [units.get_ancestor('NWBFile')]. *)
Record Units : Type := {
  table :> DynamicTable;
  ancestor : option NWBFile
}.

(** [units.get_ancestor('NWBFile').attr], with the [AttributeError] of
    [None.attr] when the table hangs in no file. *)
Definition ancestor_attr {A} (units : Units) (attr : string) (get : NWBFile -> A)
  : result A :=
  match ancestor units with
  | Some file => Ok (get file)
  | None => Raise (AttributeError attr)
  end.

(** [table[name].data[:]] on a table that may be [None]. *)
Definition column_of (t : option DynamicTable) (name : string) : result (list cell) :=
  match t with
  | Some t => column t name
  | None => Raise TypeError
  end.

(** ** The group-and-sort engine *)

(** Modelled from the spec: [group_and_sort] of [utils/dynamictable.py],
    which is not among the sources; section 4.2 of the specification gives
    its contract and its six steps, and section 7 its invalid inputs.  Rows
    are numbered from 0; [group_vals] and [order_vals] are the parallel
    arrays, [window] is the pair [(start, stop)] and [limit] the per-group
    cap, [-1] or absent meaning no cap. *)
Module Dynamictable.

(** Invalid input: arrays of different lengths, a window that ends before it
    starts, a limit below [-1]. *)
Definition lengths_agree (group_vals order_vals : option (list cell)) : bool :=
  match group_vals, order_vals with
  | Some gv, Some ov => length gv =? length ov
  | _, _ => true
  end.

Definition window_in_range (window : option (nat * nat)) : bool :=
  match window with
  | Some (start, stop) => start <=? stop
  | None => true
  end.

Definition limit_in_range (limit : option Z) : bool :=
  match limit with
  | Some k => (-1 <=? k)%Z
  | None => true
  end.

(** The number of rows M. *)
Definition row_count (group_vals order_vals : option (list cell)) : nat :=
  match group_vals, order_vals with
  | Some gv, _ => length gv
  | None, Some ov => length ov
  | None, None => 0
  end.

(** The value of row [r] in an array. *)
Definition at_row (vals : list cell) (r : nat) : cell := nth r vals NaN.

(** Step 2, the eligible rows: a row whose group value is NaN is left out
    when grouping is requested. *)
Definition eligible (group_vals : option (list cell)) (M : nat) : list nat :=
  match group_vals with
  | Some gv => filter (fun r => negb (isnan (at_row gv r))) (seq 0 M)
  | None => seq 0 M
  end.

(** Step 2, the sort key: (group value, order value) compared
    lexicographically when both are given, the single key otherwise. *)
Definition row_leb (group_vals order_vals : option (list cell)) (r s : nat) : bool :=
  match group_vals, order_vals with
  | Some gv, Some ov =>
      if cell_eqb (at_row gv r) (at_row gv s)
      then cell_leb (at_row ov r) (at_row ov s)
      else cell_leb (at_row gv r) (at_row gv s)
  | Some gv, None => cell_leb (at_row gv r) (at_row gv s)
  | None, Some ov => cell_leb (at_row ov r) (at_row ov s)
  | None, None => true
  end.

(** Step 3, a stable sort: a row is inserted in front of the first row that
    is not smaller, so rows with equal keys stay in ascending index order. *)
Fixpoint insert_row (leb : nat -> nat -> bool) (r : nat) (rows : list nat) : list nat :=
  match rows with
  | [] => [r]
  | s :: rows' => if leb r s then r :: rows else s :: insert_row leb r rows'
  end.

Definition sort_rows (leb : nat -> nat -> bool) (rows : list nat) : list nat :=
  fold_right (insert_row leb) [] rows.

(** What step 3 asks of two rows that follow each other: the keys are in
    order, and rows with equal keys are in ascending index order. *)
Definition in_order (leb : nat -> nat -> bool) (r s : nat) : Prop :=
  leb r s = true /\ (leb s r = true -> r < s).

(** Step 4, the limit: going through the sorted rows, a row is kept when
    fewer than [k] earlier rows have its group value; [seen] holds the group
    values of the earlier rows. *)
Definition same_group (gv : list cell) (v : cell) (r : nat) : bool :=
  cell_eqb v (at_row gv r).

Definition occurrences (v : cell) (seen : list cell) : nat :=
  length (filter (cell_eqb v) seen).

Fixpoint keep_first (k : nat) (gv : list cell) (seen : list cell) (rows : list nat)
  : list nat :=
  match rows with
  | [] => []
  | r :: rows' =>
      let v := at_row gv r in
      if occurrences v seen <? k
      then r :: keep_first k gv (v :: seen) rows'
      else keep_first k gv (v :: seen) rows'
  end.

Definition apply_limit (limit : option Z) (group_vals : option (list cell))
  (rows : list nat) : list nat :=
  match limit, group_vals with
  | Some k, Some gv => if (0 <=? k)%Z then keep_first (Z.to_nat k) gv [] rows else rows
  | _, _ => rows
  end.

(** The rows after step 3, and after step 4. *)
Definition sorted_rows (group_vals order_vals : option (list cell)) : list nat :=
  sort_rows (row_leb group_vals order_vals)
    (eligible group_vals (row_count group_vals order_vals)).

Definition limited_rows (group_vals order_vals : option (list cell)) (limit : option Z)
  : list nat :=
  apply_limit limit group_vals (sorted_rows group_vals order_vals).

(** Step 6: the labels are the distinct group values in order of first
    appearance; a group index is the position of a value among them. *)
Fixpoint index_of (v : cell) (labels : list cell) : nat :=
  match labels with
  | [] => 0
  | l :: labels' => if cell_eqb l v then 0 else S (index_of v labels')
  end.

Definition group_and_sort (group_vals order_vals : option (list cell))
  (window : option (nat * nat)) (limit : option Z)
  : result (list nat * option (list nat) * option (list cell)) :=
  if negb (lengths_agree group_vals order_vals && window_in_range window
           && limit_in_range limit)
  then Raise InvalidInput
  else
    let M := row_count group_vals order_vals in
    let (start, stop) := match window with Some w => w | None => (0, M) end in
    match group_vals, order_vals with
    | None, None => Ok (arange start stop, None, None)
    | _, _ =>
        let order := slice start stop (limited_rows group_vals order_vals limit) in
        match group_vals with
        | Some gv =>
            let labels := distinct (map (at_row gv) order) in
            Ok (order, Some (map (fun r => index_of (at_row gv r) labels) order),
                Some labels)
        | None => Ok (order, None, None)
        end
    end.

(** Modelled from the spec: [infer_categorical_columns] of the same module,
    section 4.1.  A column qualifies unless it holds nested values, is the
    identity column [id], or has a number of distinct values, NaN set aside,
    that is 1 or the number of rows.  The result maps the qualifying names to
    their value arrays, in the order of the table. *)
Definition is_nested (c : cell) : bool :=
  match c with Seq _ => true | _ => false end.

Definition distinct_count (vals : list cell) : nat :=
  length (distinct (filter (fun c => negb (isnan c)) vals)).

Definition is_categorical (t : DynamicTable) (col : string * list cell) : bool :=
  negb (existsb is_nested (snd col))
  && negb (String.eqb (fst col) "id")
  && negb (distinct_count (snd col) =? 1)
  && negb (distinct_count (snd col) =? len t).

Definition infer_categorical_columns (t : DynamicTable) : list (string * list cell) :=
  filter (is_categorical t) (columns t).

End Dynamictable.

(** ** More of numpy *)

(** [xs[mask]] for a boolean mask, which must be as long as [xs]. *)
Fixpoint compress {A} (mask : list bool) (xs : list A) : list A :=
  match mask, xs with
  | b :: mask', x :: xs' => if b then x :: compress mask' xs' else compress mask' xs'
  | _, _ => []
  end.

Definition select {A} (mask : list bool) (xs : list A) : result (list A) :=
  if length mask =? length xs then Ok (compress mask xs) else Raise IndexError.

(** [np.where(mask)[0]]. *)
Definition where_true (mask : list bool) : list nat :=
  compress mask (seq 0 (length mask)).

(** [np.argmax] of a boolean array: the first [True], 0 when there is none. *)
Fixpoint first_true (mask : list bool) : option nat :=
  match mask with
  | [] => None
  | b :: mask' => if b then Some 0 else option_map S (first_true mask')
  end.

Definition argmax (mask : list bool) : result nat :=
  match mask with
  | [] => Raise (ValueError "attempt to get argmax of an empty sequence")
  | _ => Ok (match first_true mask with Some i => i | None => 0 end)
  end.

(** [np.unique] of an array of group indices: the values present, ascending. *)
Definition unique (xs : list nat) : list nat :=
  filter (fun g => existsb (Nat.eqb g) xs) (seq 0 (S (list_max xs))).

(** [np.unique] of a column: the distinct values, sorted. *)
Fixpoint insert_cell (c : cell) (cs : list cell) : list cell :=
  match cs with
  | [] => [c]
  | d :: cs' => if cell_leb c d then c :: cs else d :: insert_cell c cs'
  end.

Definition unique_cells (cs : list cell) : list cell :=
  fold_right insert_cell [] (distinct cs).

(** The trial selection of the PSTH widget: the empty tuple [()] of the base
    widget, or a boolean mask over the trials. *)
Inductive selection : Type :=
| EmptyTuple
| Mask (mask : list bool).

(** [len(trials_select)] and [array[trials_select]]; indexing with [()]
    gives the whole array. *)
Definition selection_len (s : selection) : nat :=
  match s with
  | EmptyTuple => 0
  | Mask mask => length mask
  end.

Definition select_by {A} (s : selection) (xs : list A) : result (list A) :=
  match s with
  | EmptyTuple => Ok xs
  | Mask mask => select mask xs
  end.

(** A float array that is either finite throughout or NaN throughout, as the
    mean and the standard error of a set of finite curves are. *)
Inductive curve : Type :=
| Values (ys : list Qc)
| NaNs.

Definition two : Qc := Num.of_Z 2.
Definition four : Qc := Num.of_Z 4.
Definition half : Qc := Q2Qc (1 # 2).

Fixpoint zip_with {A B C} (f : A -> B -> C) (xs : list A) (ys : list B) : list C :=
  match xs, ys with
  | x :: xs', y :: ys' => f x y :: zip_with f xs' ys'
  | _, _ => []
  end.

(** [a + k * b], elementwise. *)
Definition curve_axpy (a : curve) (k : Qc) (b : curve) : curve :=
  match a, b with
  | Values xs, Values ys => Values (zip_with (fun x y => x + k * y)%Qc xs ys)
  | _, _ => NaNs
  end.

(** [np.mean(rows, axis=0)] for rows of [width] values; NaN without rows. *)
Definition column_sum (rows : list (list Qc)) (j : nat) : Qc :=
  fold_right Qcplus 0%Qc (map (fun row => nth j row 0%Qc) rows).

Definition mean_axis0 (width : nat) (rows : list (list Qc)) : curve :=
  match rows with
  | [] => NaNs
  | _ => Values (map (fun j => (column_sum rows j / Num.of_nat (length rows))%Qc)
                   (seq 0 width))
  end.

(** [np.linspace(start, stop, num)]. *)
Definition linspace (start stop : Qc) (num : nat) : list Qc :=
  map (fun i => (start + Num.of_nat i * ((stop - start) / Num.of_nat (num - 1)))%Qc)
    (seq 0 num).

(** [min(xs)] and [max(xs)] of a sequence with first element [x]. *)
Definition Qc_min (x y : Qc) : Qc := if Num.leb x y then x else y.
Definition Qc_max (x y : Qc) : Qc := if Num.leb x y then y else x.
Definition minimum (x : Qc) (xs : list Qc) : Qc := fold_left Qc_min xs x.
Definition maximum (x : Qc) (xs : list Qc) : Qc := fold_left Qc_max xs x.

(** ** Drawing *)

(** The axes of the figure made last: a cell of the grid of
    [plt.subplots], or the frame of [create_big_ax]. *)
Inductive axes : Type :=
| Ax (row col : nat)
| BigAx.

(** [Wheel i] is [color_wheel[i]]; [Black] is ['k']. *)
Inductive color : Type :=
| Wheel (i : nat)
| Black.

Inductive text : Type :=
| Text (s : string)
| Value (c : cell)
| NoText.

(** The calls into matplotlib that the module makes. *)
Inductive draw : Type :=
| Subplots (nrows ncols : nat)
| CreateBigAx
| Eventplot (ax : axes) (positions : list (list Qc)) (lineoffsets : list nat) (c : color)
| Legend (ax : axes) (labels : list cell)
| Patches (ax : axes) (row : nat) (intervals : list (Qc * Qc))
| Plot (ax : axes) (xs : list Qc) (ys : curve) (c : color)
| FillBetween (ax : axes) (xs : list Qc) (lower upper : curve) (c : color)
| Axvline (ax : axes)
| SetXlim (ax : axes) (lo hi : Qc)
| SetYlim (ax : axes) (lo hi : Qc)
| SetXlabel (ax : axes) (label : text)
| SetYlabel (ax : axes) (label : text)
| SetTitle (ax : axes) (unit : nat)
| SetXticks (ax : axes) (ticks : list nat)
| SetYticks (ax : axes) (ticks : list nat).

(** A computation that draws: its outcome and the calls made, in order.  The
    calls made before an exception stay made. *)
Definition plt (A : Type) : Type := result A * list draw.

Definition pret {A} (a : A) : plt A := (Ok a, []).

Definition pbind {A B} (m : plt A) (k : A -> plt B) : plt B :=
  match m with
  | (Ok a, drawn) => let (r, drawn') := k a in (r, drawn ++ drawn')
  | (Raise e, drawn) => (Raise e, drawn)
  end.

Definition lift {A} (r : result A) : plt A := (r, []).
Definition emit (d : draw) : plt unit := (Ok tt, [d]).
Definition outcome {A} (m : plt A) : result A := fst m.
Definition drawn {A} (m : plt A) : list draw := snd m.

Declare Scope plt_scope.
Delimit Scope plt_scope with plt.
Notation "x <- m ;; k" := (pbind m (fun x => k))
  (at level 61, m at next level, right associativity) : plt_scope.
Notation "' p <- m ;; k" := (pbind m (fun x => match x with p => k end))
  (at level 61, p pattern, m at next level, right associativity) : plt_scope.
Notation "m ;; k" := (pbind m (fun _ => k))
  (at level 61, right associativity) : plt_scope.

Fixpoint for_each {A} (xs : list A) (body : A -> plt unit) : plt unit :=
  match xs with
  | [] => pret tt
  | x :: xs' => (body x ;; for_each xs' body)%plt
  end.

(** [enumerate(xs)]. *)
Definition enumerate {A} (xs : list A) : list (nat * A) :=
  combine (seq 0 (length xs)) xs.

(** ** What the module imports *)

(** The functions that [misc.py] imports from the other modules of the
    package, the one function of scipy, and the length of matplotlib's colour
    cycle.
    [compute_smoothed_firing_rate] gives one rate for each evaluation
    point. *)
Class Imports : Type := {
  group_and_sort :
    option (list cell) -> option (list cell) -> option (nat * nat) -> option Z ->
    result (list nat * option (list nat) * option (list cell));
  align_by_time_intervals :
    Units -> nat -> option DynamicTable -> string -> string -> Qc -> Qc -> list nat ->
    result (list (list Qc));
  get_spike_times : Units -> nat -> Qc * Qc -> result (list Qc);
  get_min_spike_time : Units -> result Qc;
  get_max_spike_time : Units -> result Qc;
  get_unobserved_intervals :
    Units -> Qc * Qc -> list nat -> result (list (list (Qc * Qc)));
  compute_smoothed_firing_rate : list Qc -> list Qc -> Qc -> list Qc;
  compute_smoothed_firing_rate_length :
    forall spike_times eval_points sigma_in_secs,
      length (compute_smoothed_firing_rate spike_times eval_points sigma_in_secs)
      = length eval_points;
  sem : list (list Qc) -> curve;
  color_wheel_len : nat
}.

(** ** Rasters: [plot_grouped_events] and its callers *)

Section Plotting.
Context {imports : Imports}.

(** [colors[i % len(colors)]]. *)
Definition wheel_color (i : nat) : result color :=
  if color_wheel_len =? 0 then Raise ZeroDivisionError
  else Ok (Wheel (i mod color_wheel_len)).

Definition plot_unobserved_intervals (unobserved_intervals_list : list (list (Qc * Qc)))
  (ax : axes) (offset : nat) : plt unit :=
  for_each (enumerate unobserved_intervals_list)
    (fun '(irow, unobs_intervals) => emit (Patches ax (irow + offset) unobs_intervals)).

(** [ax.eventplot] of no row at all, with the empty array of line offsets
    that goes with it, raises [TypeError]. *)
Definition plot_grouped_events (data : list (list Qc)) (window : Qc * Qc)
  (group_inds : option (list nat)) (ax : option axes) (labels : option (list cell))
  (show_legend : bool) (offset : nat)
  (unobserved_intervals_list : option (list (list (Qc * Qc)))) : plt axes :=
  (ax <- match ax with
         | None => emit (Subplots 1 1) ;; pret (Ax 0 0)
         | Some ax => pret ax
         end ;;
   match group_inds with
   | Some group_inds =>
       let ugroup_inds := unique group_inds in
       for_each ugroup_inds
         (fun ui =>
            c <- lift (wheel_color ui) ;;
            let mask := map (fun g => g =? ui) group_inds in
            let lineoffsets := map (fun i => i + offset) (where_true mask) in
            rows <- lift (select mask data) ;;
            emit (Eventplot ax rows lineoffsets c)) ;;
       if show_legend
       then
         shown <- lift (match labels with
                        | Some labels => take labels ugroup_inds
                        | None => Raise TypeError
                        end) ;;
         emit (Legend ax (rev shown))
       else pret tt
   | None =>
       match data with
       | [] => lift (Raise TypeError)
       | _ =>
           emit (Eventplot ax data (map (fun i => i + offset) (arange 0 (length data)))
                   Black)
       end
   end ;;
   match unobserved_intervals_list with
   | Some intervals => plot_unobserved_intervals intervals ax offset
   | None => pret tt
   end ;;
   emit (SetXlim ax (fst window) (snd window)) ;;
   emit (SetXlabel ax (Text "time (s)")) ;;
   emit (SetYlim ax (Num.of_nat offset - half)%Qc
           (Num.of_nat (length data) - half + Num.of_nat offset)%Qc) ;;
   (if length data <=? 30 then emit (SetYticks ax (seq offset (length data)))
    else pret tt) ;;
   pret ax)%plt.

Definition show_psth_raster (data : list (list Qc)) (before after : Qc)
  (group_inds : option (list nat)) (labels : option (list cell)) (ax : option axes)
  (show_legend : bool) : plt axes :=
  (ax <- plot_grouped_events data (- before, after)%Qc group_inds ax labels
           show_legend 0 None ;;
   emit (SetYlabel ax (Text "trials")) ;;
   emit (Axvline ax) ;;
   pret ax)%plt.

(** ** The smoothed PSTH *)

Record stats : Type := {
  mean : curve;
  lower : curve;
  upper : curve
}.

(** The body of the loop over groups in [show_psth_smoothed]. *)
Definition group_stat (smoothed : list (list Qc)) (group_inds : list nat) (width : nat)
  (group : nat) : result stats :=
  (rows <- select (map (fun g => g =? group) group_inds) smoothed ;;
   let this_mean := mean_axis0 width rows in
   let err := sem rows in
   Ok {| mean := this_mean;
         lower := curve_axpy this_mean (- two)%Qc err;
         upper := curve_axpy this_mean two err |})%result.

(** [show_psth_smoothed] up to [group_stats]: [None] is the early return on
    data without a single spike, otherwise the evaluation grid (the array
    [tt] of the source) and the statistics of the groups. *)
Definition psth_group_stats (data : list (list Qc)) (group_inds : option (list nat))
  (sigma_in_secs : Qc) (ntt : nat) : result (option (list Qc * list stats)) :=
  match data with
  | [] => Raise (ValueError "need at least one array to concatenate")
  | _ =>
      match concat data with
      | [] => Ok None
      | t :: all_data =>
          let grid := linspace (minimum t all_data) (maximum t all_data) ntt in
          let smoothed :=
            map (fun x => compute_smoothed_firing_rate x grid sigma_in_secs) data in
          let group_inds :=
            match group_inds with
            | Some group_inds => group_inds
            | None => repeat 0 (length smoothed)
            end in
          (group_stats <- mapM (group_stat smoothed group_inds (length grid))
                            (seq 0 (length (unique group_inds))) ;;
           Ok (Some (grid, group_stats)))%result
      end
  end.

Definition show_psth_smoothed (data : list (list Qc)) (ax : axes) (before after : Qc)
  (group_inds : option (list nat)) (sigma_in_secs : Qc) (ntt : nat) : plt unit :=
  (computed <- lift (psth_group_stats data group_inds sigma_in_secs ntt) ;;
   match computed with
   | None => pret tt
   | Some (grid, group_stats) =>
       for_each (combine group_stats (map Wheel (seq 0 color_wheel_len)))
         (fun '(st, c) =>
            emit (Plot ax grid (mean st) c) ;;
            emit (FillBetween ax grid (lower st) (upper st) c)) ;;
       emit (SetXlim ax (- before)%Qc after) ;;
       emit (SetYlabel ax (Text "firing rate (Hz)")) ;;
       emit (SetXlabel ax (Text "time (s)"))
   end)%plt.

End Plotting.

(** ** The three entry points: [show_session_raster], [trials_psth], [raster_grid] *)

(** A local variable of a Python function: read before any assignment, it
    raises [UnboundLocalError]. *)
Inductive local (A : Type) : Type :=
| Unbound
| Bound (a : A).
Arguments Unbound {A}.
Arguments Bound {A} a.

Definition read_local {A} (name : string) (v : local A) : result A :=
  match v with
  | Bound a => Ok a
  | Unbound => Raise (UnboundLocalError name)
  end.

Section EntryPoints.
Context {imports : Imports}.

(** Lines 72 to 74, and again 79 to 81: a column of the electrodes table,
    looked up through each unit's [peak_channel_id]. *)
Definition electrode_vals (units : Units) (electrodes : DynamicTable) (name : string)
  (units_select : list nat) : result (list cell) :=
  (let ids := id electrodes in
   peak_channel_id <- column units "peak_channel_id" ;;
   inds <- mapM (fun val => argmax (map (fun i => cell_eqb (Int i) val) ids))
             peak_channel_id ;;
   vals <- column electrodes name ;;
   by_unit <- take vals inds ;;
   take by_unit units_select)%result.

(** Lines 67 to 74: the [if]/[elif] chain that assigns [group_vals]; it has
    no [else]. *)
Definition bind_group_vals (units : Units) (units_select : list nat)
  (group_by : option string) (electrodes : option DynamicTable)
  : result (local (option (list cell))) :=
  match group_by with
  | None => Ok (Bound None)
  | Some group_by =>
      if contains units group_by
      then (vals <- column units group_by ;;
            group_vals <- take vals units_select ;;
            Ok (Bound (Some group_vals)))%result
      else
        match electrodes with
        | Some electrodes =>
            if contains electrodes group_by
            then (group_vals <- electrode_vals units electrodes group_by units_select ;;
                  Ok (Bound (Some group_vals)))%result
            else Ok Unbound
        | None => Ok Unbound
        end
  end.

(** Lines 76 to 81: the chain that assigns [order_vals]; it looks in the
    electrodes table only. *)
Definition bind_order_vals (units : Units) (units_select : list nat)
  (order_by : option string) (electrodes : option DynamicTable)
  : result (local (option (list cell))) :=
  match order_by with
  | None => Ok (Bound None)
  | Some order_by =>
      match electrodes with
      | Some electrodes =>
          if contains electrodes order_by
          then (order_vals <- electrode_vals units electrodes order_by units_select ;;
                Ok (Bound (Some order_vals)))%result
          else Ok Unbound
      | None => Ok Unbound
      end
  end.

(** Lines 83 to 87: [group_vals is None and order_vals is None] reads
    [order_vals] only when [group_vals] is [None]; the call in the [else]
    branch reads both. *)
Definition session_order (group_vals order_vals : local (option (list cell)))
  (units_window : nat * nat) (limit : option Z)
  : result (list nat * option (list nat) * option (list cell)) :=
  (gv <- read_local "group_vals" group_vals ;;
   both_none <- match gv with
                | None => ov <- read_local "order_vals" order_vals ;;
                          Ok (match ov with None => true | Some _ => false end)
                | Some _ => Ok false
                end ;;
   if both_none : bool
   then Ok (arange (fst units_window) (snd units_window), None, None)
   else
     ov <- read_local "order_vals" order_vals ;;
     group_and_sort gv ov (Some units_window) limit)%result.

(** The calls that leave [group_vals], or [order_vals], without a value:
    the name is given, and no branch of the chain takes it. *)
Definition names_no_column (t : option DynamicTable) (name : string) : bool :=
  match t with
  | Some t => negb (contains t name)
  | None => true
  end.

Definition leaves_group_vals_unbound (units : Units) (group_by : option string)
  (electrodes : option DynamicTable) : bool :=
  match group_by with
  | Some group_by => negb (contains units group_by) && names_no_column electrodes group_by
  | None => false
  end.

Definition leaves_order_vals_unbound (order_by : option string)
  (electrodes : option DynamicTable) : bool :=
  match order_by with
  | Some order_by => names_no_column electrodes order_by
  | None => false
  end.

(** Lines 56 and 57: the time window, by default from the first to the last
    spike. *)
Definition session_time_window (units : Units) (time_window : option (Qc * Qc))
  : result (Qc * Qc) :=
  match time_window with
  | Some w => Ok w
  | None => (lo <- get_min_spike_time units ;;
             hi <- get_max_spike_time units ;;
             Ok (lo, hi))%result
  end.

(** [units_select] is an array of indices, or a list of them that is not
    empty: [np.array] of line 65 turns the empty list into an array of
    floats, which is not among the inputs described here. *)
Definition show_session_raster (units : Units) (time_window : option (Qc * Qc))
  (units_select : option (list nat)) (units_window : option (nat * nat))
  (show_obs_intervals : bool) (group_by order_by : option string) (show_legend : bool)
  (limit : option Z) (electrodes : option DynamicTable) : plt axes :=
  (time_window <- lift (session_time_window units time_window) ;;
   let units_window :=
     match units_window with Some w => w | None => (0, len units) end in
   let units_select :=
     match units_select with Some sel => sel | None => arange 0 (len units) end in
   group_vals <- lift (bind_group_vals units units_select group_by electrodes) ;;
   order_vals <- lift (bind_order_vals units units_select order_by electrodes) ;;
   ' (order, group_inds, labels) <-
     lift (session_order group_vals order_vals units_window limit) ;;
   shown <- lift (take units_select order) ;;
   data <- lift (mapM (fun unit => get_spike_times units unit time_window) shown) ;;
   unobserved_intervals_list <-
     lift (if show_obs_intervals
           then (gaps <- get_unobserved_intervals units time_window order ;;
                 Ok (Some gaps))%result
           else Ok None) ;;
   ax <- plot_grouped_events data time_window group_inds None labels show_legend
           (fst units_window) unobserved_intervals_list ;;
   emit (SetYlabel ax (Text "unit #")) ;;
   pret ax)%plt.

(** Lines 371 to 388 of [trials_psth]: the table of trials (or of epochs),
    the group and order values, and the row order. *)
Definition psth_trials (units : Units) : result (option DynamicTable) :=
  (found <- ancestor_attr units "trials" trials ;;
   match found with
   | Some _ => Ok found
   | None => ancestor_attr units "epochs" epochs
   end)%result.

Definition psth_vals (trials : option DynamicTable) (by_label : option string)
  (trials_select : selection) : result (option (list cell)) :=
  match by_label with
  | None => Ok None
  | Some label => (vals <- column_of trials label ;;
                   chosen <- select_by trials_select vals ;;
                   Ok (Some chosen))%result
  end.

Definition psth_order (group_vals order_vals : option (list cell))
  (trials_select : selection)
  : result (list nat * option (list nat) * option (list cell)) :=
  match group_vals, order_vals with
  | None, None => Ok (arange 0 (selection_len trials_select), None, None)
  | _, _ => group_and_sort group_vals order_vals None None
  end.

Definition trials_psth (units : Units) (index : nat) (start_label : string)
  (before after : Qc) (order_by group_by : option string) (trials_select : selection)
  (sigma_in_secs : Qc) (ntt : nat) : plt unit :=
  (trials <- lift (psth_trials units) ;;
   group_vals <- lift (psth_vals trials group_by trials_select) ;;
   order_vals <- lift (psth_vals trials order_by trials_select) ;;
   ' (order, group_inds, labels) <- lift (psth_order group_vals order_vals trials_select) ;;
   data <- lift (align_by_time_intervals units index trials start_label start_label
                   before after order) ;;
   expanded_data <-
     lift (align_by_time_intervals units index trials start_label start_label
             (before + sigma_in_secs * four)%Qc (after + sigma_in_secs * four)%Qc
             order) ;;
   emit (Subplots 2 1) ;;
   show_psth_raster data before after group_inds labels (Some (Ax 0 0)) true ;;
   emit (SetTitle (Ax 0 0) index) ;;
   emit (SetXticks (Ax 0 0) []) ;;
   emit (SetXlabel (Ax 0 0) (Text "")) ;;
   show_psth_smoothed expanded_data (Ax 1 0) before after group_inds sigma_in_secs ntt)%plt.

(** [raster_grid]: the values of a grid dimension, the trials of a grid
    cell, and the figure. *)
Definition grid_vals (time_intervals : DynamicTable) (label : option string)
  : result (list (option cell)) :=
  match label with
  | Some label => (vals <- column time_intervals label ;;
                   Ok (map Some (unique_cells vals)))%result
  | None => Ok [None]
  end.

(** [trials_select &= np.array(time_intervals[label][:]) == val]. *)
Definition restrict (time_intervals : DynamicTable) (label : option string)
  (val : option cell) (trials_select : list bool) : result (list bool) :=
  match val with
  | None => Ok trials_select
  | Some val =>
      (vals <- match label with
               | Some label => column time_intervals label
               | None => Raise (KeyError "None")
               end ;;
       if length trials_select =? length vals
       then Ok (zip_with andb trials_select (map (fun c => cell_eqb c val) vals))
       else Raise (ValueError "operands could not be broadcast together"))%result
  end.

Definition value_text (val : option cell) : text :=
  match val with Some c => Value c | None => NoText end.

Definition label_text (label : option string) : text :=
  match label with Some s => Text s | None => NoText end.

Definition raster_grid (units : Units) (time_intervals : option DynamicTable)
  (index : nat) (before after : Qc) (rows_label cols_label : option string)
  (align_by : string) : plt unit :=
  match time_intervals with
  | None => lift (Raise (ValueError "trials must exist (trials cannot be None)"))
  | Some time_intervals =>
      (row_vals <- lift (grid_vals time_intervals rows_label) ;;
       let nrows := length row_vals in
       col_vals <- lift (grid_vals time_intervals cols_label) ;;
       let ncols := length col_vals in
       lift (if nrows =? 0
             then Raise (ValueError "Number of rows must be a positive integer")
             else if ncols =? 0
             then Raise (ValueError "Number of columns must be a positive integer")
             else Ok tt) ;;
       emit (Subplots nrows ncols) ;;
       emit CreateBigAx ;;
       for_each (enumerate row_vals)
         (fun '(i, row) =>
            for_each (enumerate col_vals)
              (fun '(j, col) =>
                 let ax := Ax i j in
                 chosen <- lift (by_row <- restrict time_intervals rows_label row
                                             (repeat true (len time_intervals)) ;;
                                 restrict time_intervals cols_label col by_row)%result ;;
                 let trials_select := where_true chosen in
                 match trials_select with
                 | [] => pret tt
                 | _ =>
                     data <- lift (align_by_time_intervals units index
                                     (Some time_intervals) align_by align_by
                                     before after trials_select) ;;
                     show_psth_raster data before after None None (Some ax) true ;;
                     emit (SetXlabel ax (Text "")) ;;
                     emit (SetYlabel ax (Text "")) ;;
                     (if j =? 0 then emit (SetYlabel ax (value_text row)) else pret tt) ;;
                     (if i =? nrows - 1 then emit (SetXlabel ax (value_text col))
                      else pret tt)
                 end)) ;;
       emit (SetXlabel BigAx (label_text cols_label)) ;;
       emit (SetYlabel BigAx (label_text rows_label)))%plt
  end.

End EntryPoints.

(** ** The raster widget *)

(** [RasterWidget.get_group_vals] with its default [units_select=()]: the
    whole column, or [None] when [group_by] is [None] or names no column. *)
Definition get_group_vals (units : Units) (group_by : option string)
  : result (option (list cell)) :=
  match group_by with
  | None => Ok None
  | Some group_by =>
      if contains units group_by
      then (vals <- column units group_by ;; Ok (Some vals))%result
      else Ok None
  end.

(** [group_vals.dtype == np.float64]: an array of floats, the only kind that
    holds NaN. *)
Definition is_float64 (vals : list cell) : bool :=
  forallb (fun c => match c with Num _ | NaN => true | _ => false end) vals.

(** [sum(group_vals == x)]. *)
Definition count_equal (group_vals : list cell) (x : cell) : Z :=
  Z.of_nat (length (filter (fun c => cell_eqb c x) group_vals)).

(** [set_max_window], lines 143 to 147: the number [nunits] that line 148
    then assigns to the maximum of the units window, the number of rows that
    are left when each group is cut to [limit]. *)
Definition set_max_window (units : Units) (group_by : option string) (limit : Z)
  : result Z :=
  (found <- get_group_vals units group_by ;;
   match found with
   | None => Raise (AttributeError "dtype")
   | Some group_vals =>
       let group_vals :=
         if is_float64 group_vals
         then filter (fun c => negb (isnan c)) group_vals
         else group_vals in
       Ok (fold_right Z.add 0%Z
             (map (fun x => Z.min (count_equal group_vals x) limit)
                (unique_cells group_vals)))
   end)%result.

(** The slider of the units window, as far as its bounds go. *)
Record slider : Type := {
  slider_min : Z;
  slider_max : Z
}.

(** [slider.max = nunits], line 148: the slider validates a new maximum and
    raises [TraitError] for one below its minimum; the maximum then stays as
    it was. *)
Definition set_slider_max (s : slider) (nunits : Z) : result slider :=
  if (nunits <? slider_min s)%Z
  then Raise TraitError
  else Ok {| slider_min := slider_min s; slider_max := nunits |}.

(** [limit_set_max_window], lines 164 to 166, the observer of the limit
    control: on a change of the value it calls [set_max_window] with the group
    chosen and the new limit, which computes [nunits] and assigns it. *)
Definition limit_set_max_window (units : Units) (group_by : option string)
  (name : string) (new : Z) (s : slider) : result slider :=
  if String.eqb name "value"
  then (nunits <- set_max_window units group_by new ;;
        set_slider_max s nunits)%result
  else Ok s.

(** ** Alignment and smoothing *)

Module UnitsUtils.

(** Modelled from the spec: [align_by_time_intervals] of [utils/units.py],
    contract A of section 4.3.  The spike train of the unit is the cell
    [units['spike_times'][unit_index]]; the anchor of a row is
    [intervals_table[start_label][row]]; the spikes within
    [anchor - before, anchor + after] are shifted by [- anchor].  One array
    per row of [row_order], in that order.  A NaN anchor compares false with
    every spike and so gives an empty array. *)
Definition spike_train (units : Units) (unit_index : nat) : result (list Qc) :=
  (spike_times <- column units "spike_times" ;;
   train <- getitem spike_times unit_index ;;
   match train with
   | Seq ts => Ok ts
   | _ => Raise TypeError
   end)%result.

Definition in_window (anchor before after : Qc) (t : Qc) : bool :=
  Num.leb (anchor - before)%Qc t && Num.leb t (anchor + after)%Qc.

Definition align_row (spikes : list Qc) (before after : Qc) (anchor : cell)
  : result (list Qc) :=
  match anchor with
  | Num a => Ok (map (fun t => t - a)%Qc (filter (in_window a before after) spikes))
  | NaN => Ok []
  | _ => Raise TypeError
  end.

Definition align_by_time_intervals (units : Units) (unit_index : nat)
  (intervals_table : DynamicTable) (start_label end_label : string)
  (before after : Qc) (row_order : list nat) : result (list (list Qc)) :=
  (spikes <- spike_train units unit_index ;;
   starts <- column intervals_table start_label ;;
   mapM (fun row => anchor <- getitem starts row ;;
                    align_row spikes before after anchor) row_order)%result.

(** A row whose cell in the column of anchors is a float. *)
Definition timestamp_at (starts : list cell) (row : nat) : bool :=
  match nth_error starts row with
  | Some (Num _) | Some NaN => true
  | _ => false
  end.

End UnitsUtils.

Module Spikes.

(** Modelled from the spec: [compute_smoothed_firing_rate] of
    [analysis/spikes.py], contract B of section 4.3: a kernel centred at each
    spike time, summed at each evaluation point, without any correction at
    the boundary.  The density of the normal law is not a rational number;
    [gaussian sigma d], the kernel of standard deviation [sigma] at distance
    [d] from its centre, is left as a parameter. *)
Definition compute_smoothed_firing_rate (gaussian : Qc -> Qc -> Qc)
  (spike_times eval_points : list Qc) (sigma_in_secs : Qc) : list Qc :=
  map (fun t =>
         fold_right Qcplus 0%Qc
           (map (fun spike => gaussian sigma_in_secs (t - spike)%Qc) spike_times))
    eval_points.

End Spikes.

(** ** An instance of the imports *)

Module Modelled.

(** [align_by_time_intervals] on a table that may be [None]. *)
Definition align_by_time_intervals (units : Units) (unit_index : nat)
  (intervals_table : option DynamicTable) (start_label end_label : string)
  (before after : Qc) (row_order : list nat) : result (list (list Qc)) :=
  match intervals_table with
  | Some t =>
      UnitsUtils.align_by_time_intervals units unit_index t start_label end_label
        before after row_order
  | None => Raise TypeError
  end.

(** Modelled from the spec: the helpers [get_spike_times],
    [get_min_spike_time], [get_max_spike_time] and [get_unobserved_intervals]
    of [utils/units.py], which the specification names without a contract of
    their own, except for the last: the spikes of a unit within a time
    window, the earliest and the latest spike of the table, and, as the
    tables of this model carry no observed intervals, an empty list of gaps
    for every row. *)
Definition get_spike_times (units : Units) (unit : nat) (time_window : Qc * Qc)
  : result (list Qc) :=
  (spikes <- UnitsUtils.spike_train units unit ;;
   Ok (filter (fun t => Num.leb (fst time_window) t && Num.leb t (snd time_window))
         spikes))%result.

Definition all_spike_times (units : Units) : result (list Qc) :=
  (trains <- mapM (UnitsUtils.spike_train units) (arange 0 (len units)) ;;
   Ok (concat trains))%result.

Definition get_min_spike_time (units : Units) : result Qc :=
  (spikes <- all_spike_times units ;;
   match spikes with
   | t :: ts => Ok (minimum t ts)
   | [] => Raise (ValueError "min() arg is an empty sequence")
   end)%result.

Definition get_max_spike_time (units : Units) : result Qc :=
  (spikes <- all_spike_times units ;;
   match spikes with
   | t :: ts => Ok (maximum t ts)
   | [] => Raise (ValueError "max() arg is an empty sequence")
   end)%result.

Definition get_unobserved_intervals (units : Units) (time_window : Qc * Qc)
  (order : list nat) : result (list (list (Qc * Qc))) :=
  Ok (map (fun _ => []) order).

(** A kernel and a standard error for the examples: a box of half-width
    [sigma] in place of the Gaussian, and an error of zero for two curves or
    more, NaN below as in scipy. *)
Definition box (sigma d : Qc) : Qc :=
  if Num.leb (- sigma)%Qc d && Num.leb d sigma then 1%Qc else 0%Qc.

Definition zero_sem (rows : list (list Qc)) : curve :=
  match rows with
  | row :: _ :: _ => Values (map (fun _ => 0%Qc) row)
  | _ => NaNs
  end.

End Modelled.

(** ** The data of the examples *)

Definition decimal (n : Z) (d : positive) : Qc := Q2Qc (n # d).

(** One unit with spikes at 0.5, 1.2, 5.1, 5.3 and 9.9, in a file with three
    trials that start at 1, 5 and 10. *)
Definition example_spikes : list Qc :=
  [decimal 5 10; decimal 12 10; decimal 51 10; decimal 53 10; decimal 99 10].

Definition example_trials : DynamicTable :=
  {| id := [0; 1; 2]%Z;
     columns := [("start_time", [Int 1; Int 5; Int 10]);
                 ("stimulus", [Str "b"; Str "a"; Str "b"])] |}.

Definition example_units : Units :=
  {| table := {| id := [0%Z]; columns := [("spike_times", [Seq example_spikes])] |};
     ancestor := Some {| trials := Some example_trials; epochs := None |} |}.

(** The aligned spikes of three trials, as in the third example of the
    specification, and their groups. *)
Definition example_aligned : list (list Qc) :=
  [[decimal (-5) 10; decimal 2 10]; [decimal 1 10; decimal 3 10]; [decimal (-1) 10]].

Definition example_group_inds : list nat := [0; 1; 0].

(** A Python bool as a cell ([True == 1] and [False == 0]), and the table of
    [test_infer_categorical_columns]: nine rows and the two boolean columns
    [spikes] and [LFP]. *)
Definition Bool (b : bool) : cell := Int (if b then 1 else 0).

Definition test_table (data1 data2 : list bool) : DynamicTable :=
  {| id := [0; 1; 2; 3; 4; 5; 6; 7; 8]%Z;
     columns := [("spikes", map Bool data1); ("LFP", map Bool data2)] |}.

(** The imports of the examples. *)
#[local] Instance example_imports : Imports := {|
  group_and_sort := Dynamictable.group_and_sort;
  align_by_time_intervals := Modelled.align_by_time_intervals;
  get_spike_times := Modelled.get_spike_times;
  get_min_spike_time := Modelled.get_min_spike_time;
  get_max_spike_time := Modelled.get_max_spike_time;
  get_unobserved_intervals := Modelled.get_unobserved_intervals;
  compute_smoothed_firing_rate := Spikes.compute_smoothed_firing_rate Modelled.box;
  compute_smoothed_firing_rate_length :=
    fun spike_times eval_points sigma_in_secs => length_map _ eval_points;
  sem := Modelled.zero_sem;
  color_wheel_len := 10
|}.

(** ** Reading a drawing *)

(** The rows of events that a drawing shows, each with the line it is drawn
    on, and the curves it shows, each with its colour. *)
Definition events_of (d : draw) : list (nat * list Qc) :=
  match d with
  | Eventplot _ positions lineoffsets _ => combine lineoffsets positions
  | _ => []
  end.

Definition drawn_events (made : list draw) : list (nat * list Qc) :=
  flat_map events_of made.

Definition curves_of (d : draw) : list (color * curve) :=
  match d with
  | Plot _ _ ys c => [(c, ys)]
  | _ => []
  end.

Definition drawn_curves (made : list draw) : list (color * curve) :=
  flat_map curves_of made.

(** ** The widgets of [allen.py] *)

(** [array[units_select]] where [units_select] is [()] (here [None]) or an
    array of indices. *)
Definition index_by {A} (units_select : option (list nat)) (xs : list A)
  : result (list A) :=
  match units_select with
  | None => Ok xs
  | Some idx => take xs idx
  end.

(** [AllenRasterWidget.get_group_vals]; [electrodes] is
    [self.units.get_ancestor('NWBFile').electrodes]. *)
Definition allen_get_group_vals (units : Units) (electrodes : option DynamicTable)
  (group_by : option string) (units_select : option (list nat))
  : result (option (list cell)) :=
  match group_by with
  | None => Ok None
  | Some group_by =>
      if contains units group_by
      then (vals <- column units group_by ;;
            chosen <- index_by units_select vals ;;
            Ok (Some chosen))%result
      else
        match electrodes with
        | Some electrodes =>
            if contains electrodes group_by
            then (let ids := id electrodes in
                  peak_channel_id <- column units "peak_channel_id" ;;
                  inds <- mapM (fun val =>
                                  argmax (map (fun i => cell_eqb (Int i) val) ids))
                            peak_channel_id ;;
                  vals <- column electrodes group_by ;;
                  by_unit <- take vals inds ;;
                  chosen <- index_by units_select by_unit ;;
                  Ok (Some chosen))%result
            else Ok None
        | None => Ok None
        end
  end.

(** [AllenPSTHWidget.process_controls]: the selection becomes the mask
    [self.trials['stimulus_name'][:] == control_states['trials_select']]. *)
Definition process_controls (trials : DynamicTable) (trials_select : cell)
  : result selection :=
  (stimulus_name <- column trials "stimulus_name" ;;
   Ok (Mask (map (fun c => cell_eqb c trials_select) stimulus_name)))%result.

(** * Properties *)

Lemma Num_eqb_eq (x y : Qc) : Num.eqb x y = true <-> x = y.
Proof.
  unfold Num.eqb. rewrite Qeq_bool_iff. split.
  - apply Qc_is_canon.
  - intros ->. reflexivity.
Qed.

Lemma Num_eqb_refl (x : Qc) : Num.eqb x x = true.
Proof. now apply Num_eqb_eq. Qed.

Lemma Num_leb_le (x y : Qc) : Num.leb x y = true <-> (x <= y)%Qc.
Proof. unfold Num.leb, Qcle. apply Qle_bool_iff. Qed.

Lemma Num_list_eqb_eq (xs ys : list Qc) : Num.list_eqb xs ys = true <-> xs = ys.
Proof.
  revert ys. induction xs as [|x xs IH]; intros [|y ys]; simpl;
    try (split; [discriminate | discriminate]); try tauto.
  rewrite andb_true_iff, Num_eqb_eq, IH. split.
  - intros [-> ->]. reflexivity.
  - intros H. injection H as -> ->. tauto.
Qed.

Lemma cell_eqb_eq (a b : cell) : cell_eqb a b = true <-> a = b /\ isnan a = false.
Proof.
  destruct a, b; simpl; try (split; [discriminate | intros [? ?]; discriminate]).
  - rewrite Num_eqb_eq. split; [intros ->; auto | intros [H _]; congruence].
  - rewrite String.eqb_eq. split; [intros ->; auto | intros [H _]; congruence].
  - rewrite Num_list_eqb_eq. split; [intros ->; auto | intros [H _]; congruence].
Qed.

Lemma cell_eqb_refl (a : cell) : isnan a = false -> cell_eqb a a = true.
Proof. intros H. apply cell_eqb_eq. auto. Qed.

Lemma mapM_length {A B} (f : A -> result B) xs ys :
  mapM f xs = Ok ys -> length ys = length xs.
Proof.
  revert ys. induction xs as [|x xs IH]; simpl; intros ys H.
  - injection H as <-. reflexivity.
  - destruct (f x); simpl in H; [|discriminate].
    destruct (mapM f xs); simpl in H; [|discriminate].
    injection H as <-. simpl. f_equal. now apply IH.
Qed.

(** ** The group-and-sort engine on the examples of the specification *)

Example group_and_sort_spec_example :
  Dynamictable.group_and_sort
    (Some [Int 1; Int 0; Int 1; Int 0]) (Some [Int 3; Int 1; Int 2; Int 0]) None None
  = Ok ([3; 1; 2; 0], Some [0; 0; 1; 1], Some [Int 0; Int 1]).
Proof. vm_compute. reflexivity. Qed.

(** ** Where the rows of the result come from *)

Section GroupAndSortRows.
Import Dynamictable.

Lemma insert_row_In (leb : nat -> nat -> bool) r rows x :
  In x (insert_row leb r rows) <-> x = r \/ In x rows.
Proof.
  induction rows as [|s rows IH]; simpl.
  - intuition.
  - destruct (leb r s); simpl; rewrite ?IH; intuition.
Qed.

Lemma sort_rows_In (leb : nat -> nat -> bool) rows x :
  In x (sort_rows leb rows) <-> In x rows.
Proof.
  unfold sort_rows. induction rows as [|r rows IH]; simpl.
  - tauto.
  - rewrite insert_row_In, IH. intuition.
Qed.

Lemma keep_first_incl k gv seen rows x :
  In x (keep_first k gv seen rows) -> In x rows.
Proof.
  revert seen. induction rows as [|r rows IH]; simpl; intros seen H.
  - exact H.
  - destruct (occurrences (at_row gv r) seen <? k); simpl in H.
    + destruct H as [H|H]; [now left | right; eauto].
    + right; eauto.
Qed.

Lemma apply_limit_incl limit group_vals rows x :
  In x (apply_limit limit group_vals rows) -> In x rows.
Proof.
  unfold apply_limit. destruct limit as [k|], group_vals as [gv|]; auto.
  destruct (0 <=? k)%Z; auto. apply keep_first_incl.
Qed.

Lemma slice_incl {A} start stop (xs : list A) x :
  In x (slice start stop xs) -> In x xs.
Proof.
  unfold slice. intros H.
  rewrite <- (firstn_skipn start xs). apply in_or_app. right.
  rewrite <- (firstn_skipn (stop - start) (skipn start xs)).
  apply in_or_app. now left.
Qed.

Lemma eligible_grouped_In gv M r :
  In r (eligible (Some gv) M) -> r < M /\ isnan (at_row gv r) = false.
Proof.
  unfold eligible. rewrite filter_In, in_seq, negb_true_iff.
  intros [Hr Hnan]. split; [lia | exact Hnan].
Qed.

(** Every retained row of a grouped call is a row of the table with a group
    value that is not missing. *)
Lemma order_rows_grouped gv ov window_start window_stop limit r :
  In r (slice window_start window_stop (limited_rows (Some gv) ov limit)) ->
  r < length gv /\ isnan (at_row gv r) = false.
Proof.
  intros H. apply slice_incl in H. unfold limited_rows in H.
  apply apply_limit_incl in H. unfold sorted_rows in H.
  apply sort_rows_In in H. apply eligible_grouped_In in H.
  simpl in H. exact H.
Qed.

Lemma distinct_from_covers vs acc v :
  isnan v = false ->
  In v vs \/ (exists l, In l acc /\ cell_eqb l v = true) ->
  exists l, In l (distinct_from acc vs) /\ cell_eqb l v = true.
Proof.
  intros Hv. revert acc. induction vs as [|w vs IH]; simpl; intros acc H.
  - destruct H as [[]|H]. exact H.
  - apply IH. destruct H as [[<-|H]|[l [Hl He]]].
    + right. destruct (existsb (fun l => cell_eqb l w) acc) eqn:E.
      * apply existsb_exists in E. exact E.
      * exists w. split; [apply in_or_app; right; now left|].
        now apply cell_eqb_refl.
    + now left.
    + right. exists l. split; [|exact He].
      destruct (existsb (fun l0 => cell_eqb l0 w) acc); [exact Hl|].
      apply in_or_app. now left.
Qed.

Lemma index_of_found v labels :
  (exists l, In l labels /\ cell_eqb l v = true) ->
  exists l, nth_error labels (index_of v labels) = Some l /\ cell_eqb l v = true.
Proof.
  induction labels as [|l labels IH]; simpl; intros [l0 [Hin He]].
  - destruct Hin.
  - destruct (cell_eqb l v) eqn:E.
    + exists l. auto.
    + simpl. apply IH. destruct Hin as [->|Hin]; [congruence|eauto].
Qed.

End GroupAndSortRows.

(** C1: when grouping is requested and the arguments are in range,
    [group_and_sort] returns an order, group indices and labels; the group
    indices are as many as the rows of the order, and for every position
    [i] the label at [group_inds[i]] is the group value [group_vals[order[i]]]
    of the row shown there. *)
Theorem group_and_sort_label_of_group_ind gv ov window limit :
  (Dynamictable.lengths_agree (Some gv) ov
   && Dynamictable.window_in_range window
   && Dynamictable.limit_in_range limit = true) ->
  exists order group_inds labels,
    Dynamictable.group_and_sort (Some gv) ov window limit
      = Ok (order, Some group_inds, Some labels)
    /\ length group_inds = length order
    /\ forall i r, nth_error order i = Some r ->
         exists g v, nth_error group_inds i = Some g
                  /\ nth_error gv r = Some v
                  /\ nth_error labels g = Some v.
Proof.
  intros Hvalid. unfold Dynamictable.group_and_sort. rewrite Hvalid. simpl negb.
  cbv iota.
  set (M := Dynamictable.row_count (Some gv) ov).
  destruct (match window with Some w => w | None => (0, M) end) as [start stop].
  set (order := slice start stop (Dynamictable.limited_rows (Some gv) ov limit)).
  set (labels := distinct (map (Dynamictable.at_row gv) order)).
  exists order, (map (fun r => Dynamictable.index_of (Dynamictable.at_row gv r) labels) order),
    labels.
  split; [destruct ov; reflexivity|].
  split; [apply length_map|].
  intros i r Hi.
  assert (Hin : In r order) by (eapply nth_error_In; eauto).
  destruct (order_rows_grouped gv ov start stop limit r Hin) as [Hlt Hnan].
  destruct (index_of_found (Dynamictable.at_row gv r) labels) as [l [Hl He]].
  { apply distinct_from_covers; [exact Hnan|]. left.
    apply in_map. exact Hin. }
  apply cell_eqb_eq in He. destruct He as [-> _].
  exists (Dynamictable.index_of (Dynamictable.at_row gv r) labels),
    (Dynamictable.at_row gv r).
  split; [|split].
  - rewrite nth_error_map, Hi. reflexivity.
  - unfold Dynamictable.at_row. apply nth_error_nth'. exact Hlt.
  - exact Hl.
Qed.

Lemma group_and_sort_label_of_group_ind_witness :
  (Dynamictable.lengths_agree (Some [Str "b"; NaN; Str "a"; Str "b"])
     (Some [Int 3; Int 1; Int 2; Int 0])
   && Dynamictable.window_in_range (Some (0, 3))
   && Dynamictable.limit_in_range (Some 1%Z) = true) /\
  exists order group_inds labels,
    Dynamictable.group_and_sort
      (Some [Str "b"; NaN; Str "a"; Str "b"]) (Some [Int 3; Int 1; Int 2; Int 0])
      (Some (0, 3)) (Some 1%Z)
      = Ok (order, Some group_inds, Some labels)
    /\ length group_inds = length order
    /\ forall i r, nth_error order i = Some r ->
         exists g v, nth_error group_inds i = Some g
                  /\ nth_error [Str "b"; NaN; Str "a"; Str "b"] r = Some v
                  /\ nth_error labels g = Some v.
Proof.
  split; [reflexivity|].
  apply (group_and_sort_label_of_group_ind
           [Str "b"; NaN; Str "a"; Str "b"] (Some [Int 3; Int 1; Int 2; Int 0])
           (Some (0, 3)) (Some 1%Z)).
  reflexivity.
Defined.

(** ** The per-group limit *)

Section GroupAndSortLimit.
Import Dynamictable.

Lemma firstn_filter {A} (p : A -> bool) n (xs : list A) :
  filter p (firstn n xs) = firstn (length (filter p (firstn n xs))) (filter p xs).
Proof.
  rewrite <- (firstn_skipn n xs) at 3. rewrite filter_app.
  rewrite firstn_app, firstn_all, Nat.sub_diag, firstn_0, app_nil_r.
  reflexivity.
Qed.

Lemma skipn_filter {A} (p : A -> bool) n (xs : list A) :
  filter p (skipn n xs) = skipn (length (filter p (firstn n xs))) (filter p xs).
Proof.
  rewrite <- (firstn_skipn n xs) at 3. rewrite filter_app.
  rewrite skipn_app, skipn_all, Nat.sub_diag, skipn_0. reflexivity.
Qed.

(** The rows of a slice that satisfy [p] are a slice of the rows that
    satisfy [p]. *)
Lemma filter_slice {A} (p : A -> bool) start stop (xs : list A) :
  exists a b, filter p (slice start stop xs) = slice a b (filter p xs).
Proof.
  unfold slice.
  exists (length (filter p (firstn start xs))).
  exists (length (filter p (firstn start xs))
          + length (filter p (firstn (stop - start) (skipn start xs)))).
  etransitivity; [apply firstn_filter|].
  rewrite (skipn_filter p start xs). f_equal. lia.
Qed.

Lemma filter_slice_length {A} (p : A -> bool) start stop (xs : list A) :
  length (filter p (slice start stop xs)) <= length (filter p xs).
Proof.
  destruct (filter_slice p start stop xs) as [a [b ->]]. unfold slice.
  rewrite length_firstn, length_skipn. lia.
Qed.

(** Which slice it is: from the number of such rows before [start] to the
    number of such rows before [stop]. *)
Lemma filter_slice_counts {A} (p : A -> bool) start stop (xs : list A) :
  start <= stop ->
  filter p (slice start stop xs)
  = slice (length (filter p (firstn start xs))) (length (filter p (firstn stop xs)))
      (filter p xs).
Proof.
  intros Hle. unfold slice.
  etransitivity; [apply firstn_filter|].
  rewrite (skipn_filter p start xs). f_equal.
  replace stop with (start + (stop - start)) at 2 by lia.
  rewrite <- (firstn_skipn start (firstn (start + (stop - start)) xs)).
  rewrite filter_app, length_app, firstn_firstn.
  replace (Nat.min start (start + (stop - start))) with start by lia.
  rewrite <- firstn_skipn_comm. lia.
Qed.

(** The limit step keeps, of each group, the first [k] rows that have not
    been counted in [seen] yet. *)
Lemma keep_first_group k gv v seen rows :
  filter (same_group gv v) (keep_first k gv seen rows)
  = firstn (k - occurrences v seen) (filter (same_group gv v) rows).
Proof.
  revert seen. induction rows as [|r rows IH]; intros seen; simpl.
  - now rewrite firstn_nil.
  - unfold same_group at 2. destruct (cell_eqb v (at_row gv r)) eqn:E.
    + assert (Hv : at_row gv r = v) by (apply cell_eqb_eq in E; symmetry; tauto).
      assert (Hocc : occurrences v (at_row gv r :: seen) = S (occurrences v seen))
        by (unfold occurrences; simpl; now rewrite E).
      rewrite Hv in *.
      destruct (occurrences v seen <? k) eqn:Hk.
      * apply Nat.ltb_lt in Hk. simpl. unfold same_group at 1. rewrite Hv, E.
        rewrite IH, Hocc.
        replace (k - occurrences v seen) with (S (k - S (occurrences v seen))) by lia.
        reflexivity.
      * apply Nat.ltb_ge in Hk. rewrite IH, Hocc.
        replace (k - occurrences v seen) with 0 by lia.
        replace (k - S (occurrences v seen)) with 0 by lia.
        reflexivity.
    + assert (Hocc : occurrences v (at_row gv r :: seen) = occurrences v seen)
        by (unfold occurrences; simpl; now rewrite E).
      destruct (occurrences (at_row gv r) seen <? k); simpl;
        [unfold same_group at 1; rewrite E|]; rewrite IH, Hocc; reflexivity.
Qed.

Lemma limited_rows_group gv ov k v :
  filter (same_group gv v) (limited_rows (Some gv) ov (Some (Z.of_nat k)))
  = firstn k (filter (same_group gv v) (sorted_rows (Some gv) ov)).
Proof.
  unfold limited_rows, apply_limit.
  replace (0 <=? Z.of_nat k)%Z with true by (symmetry; apply Z.leb_le; lia).
  rewrite Nat2Z.id, keep_first_group. unfold occurrences. simpl.
  now rewrite Nat.sub_0_r.
Qed.

End GroupAndSortLimit.

Section GroupAndSortLength.
Import Dynamictable.

Lemma insert_row_length (leb : nat -> nat -> bool) r rows :
  length (insert_row leb r rows) = S (length rows).
Proof.
  induction rows as [|s rows IH]; simpl; [reflexivity|].
  destruct (leb r s); simpl; [reflexivity | now rewrite IH].
Qed.

Lemma sort_rows_length (leb : nat -> nat -> bool) rows :
  length (sort_rows leb rows) = length rows.
Proof.
  unfold sort_rows. induction rows as [|r rows IH]; simpl; [reflexivity|].
  now rewrite insert_row_length, IH.
Qed.

Lemma keep_first_length k gv seen rows :
  length (keep_first k gv seen rows) <= length rows.
Proof.
  revert seen. induction rows as [|r rows IH]; intros seen; simpl; [lia|].
  destruct (occurrences (at_row gv r) seen <? k); simpl;
    specialize (IH (at_row gv r :: seen)); lia.
Qed.

Lemma eligible_length group_vals M : length (eligible group_vals M) <= M.
Proof.
  unfold eligible. destruct group_vals as [gv|].
  - etransitivity; [apply filter_length_le|]. now rewrite length_seq.
  - now rewrite length_seq.
Qed.

Lemma limited_rows_length group_vals order_vals limit :
  length (limited_rows group_vals order_vals limit)
  <= row_count group_vals order_vals.
Proof.
  unfold limited_rows, sorted_rows.
  set (rows := sort_rows _ _).
  assert (Hrows : length rows <= row_count group_vals order_vals).
  { unfold rows. rewrite sort_rows_length. apply eligible_length. }
  unfold apply_limit. destruct limit as [k|], group_vals as [gv|]; auto.
  destruct (0 <=? k)%Z; auto.
  etransitivity; [apply keep_first_length | exact Hrows].
Qed.

(** Without a window the order is the whole limited sequence. *)
Lemma slice_whole {A} n (xs : list A) : length xs <= n -> slice 0 n xs = xs.
Proof.
  intros H. unfold slice. rewrite skipn_0, Nat.sub_0_r. now apply firstn_all2.
Qed.

End GroupAndSortLength.

(** C4, as stated, fails when a window is given as well: of three rows of one
    group, the limit 2 keeps rows 0 and 1, and the window [1, 3) then shows
    row 1 only, which is not the first two rows of the group. *)
Lemma group_and_sort_limit_window_counterexample :
  let gv := [Int 0; Int 0; Int 0] in
  exists order group_inds labels,
    Dynamictable.group_and_sort (Some gv) None (Some (1, 3)) (Some 2%Z)
      = Ok (order, group_inds, labels)
    /\ filter (Dynamictable.same_group gv (Int 0)) order
       <> firstn 2 (filter (Dynamictable.same_group gv (Int 0))
                      (Dynamictable.sorted_rows (Some gv) None)).
Proof.
  exists [1], (Some [0]), (Some [Int 0]). split.
  - vm_compute. reflexivity.
  - vm_compute. discriminate.
Qed.

(** C4, amended: with grouping requested and the limit [k], for every group
    value the returned order holds at most [k] rows of that group.  When no
    window is given, or when the window starts at row 0 and does not end
    before the rows left by the limit do, these are exactly the first [k] rows
    of the group in sorted order.  Under a narrower window they are those of
    the first [k] rows that lie inside the window, the window being applied to
    the rows left by the limit: the run from the number of rows of the group
    before the start of the window to their number before its end. *)
Theorem group_and_sort_limit_caps_groups gv ov window k :
  Dynamictable.lengths_agree (Some gv) ov && Dynamictable.window_in_range window = true ->
  exists order group_inds labels,
    Dynamictable.group_and_sort (Some gv) ov window (Some (Z.of_nat k))
      = Ok (order, group_inds, labels)
    /\ forall v,
         let kept := filter (Dynamictable.same_group gv v) order in
         let first_k :=
           firstn k (filter (Dynamictable.same_group gv v)
                       (Dynamictable.sorted_rows (Some gv) ov)) in
         let limited := Dynamictable.limited_rows (Some gv) ov (Some (Z.of_nat k)) in
         let w := match window with
                  | Some w => w
                  | None => (0, Dynamictable.row_count (Some gv) ov)
                  end in
         length kept <= k
         /\ kept
            = slice (length (filter (Dynamictable.same_group gv v) (firstn (fst w) limited)))
                (length (filter (Dynamictable.same_group gv v) (firstn (snd w) limited)))
                first_k
         /\ (fst w = 0 -> length limited <= snd w -> kept = first_k)
         /\ (window = None -> kept = first_k).
Proof.
  intros Hvalid. unfold Dynamictable.group_and_sort.
  assert (Hlimit : Dynamictable.limit_in_range (Some (Z.of_nat k)) = true)
    by (simpl; apply Z.leb_le; lia).
  rewrite Hvalid, Hlimit. simpl negb. cbv iota.
  set (M := Dynamictable.row_count (Some gv) ov).
  assert (Hwindow : fst (match window with Some w => w | None => (0, M) end)
                    <= snd (match window with Some w => w | None => (0, M) end)).
  { apply andb_prop in Hvalid. destruct Hvalid as [_ Hw].
    destruct window as [[start stop]|]; simpl in *; [now apply Nat.leb_le | lia]. }
  destruct (match window with Some w => w | None => (0, M) end)
    as [start stop] eqn:Ew.
  cbn [fst snd] in Hwindow.
  set (limited := Dynamictable.limited_rows (Some gv) ov (Some (Z.of_nat k))).
  set (order := slice start stop limited).
  eexists order, _, _. split; [destruct ov; reflexivity|].
  intros v. cbv zeta. cbn [fst snd].
  rewrite <- (limited_rows_group gv ov k v). fold limited.
  assert (Hcover : start = 0 -> length limited <= stop ->
                   filter (Dynamictable.same_group gv v) order
                   = filter (Dynamictable.same_group gv v) limited).
  { intros -> Hstop. unfold order. now rewrite slice_whole. }
  split; [|split; [|split]].
  - etransitivity; [apply filter_slice_length|].
    unfold limited. rewrite limited_rows_group. apply firstn_le_length.
  - apply filter_slice_counts. exact Hwindow.
  - exact Hcover.
  - intros ->. injection Ew as <- <-. apply Hcover; [reflexivity|].
    apply limited_rows_length.
Qed.

Lemma group_and_sort_limit_caps_groups_witness :
  let gv := [Str "b"; Str "a"; Str "b"; Str "b"; NaN; Str "a"] in
  let ov := Some [Int 5; Int 4; Int 3; Int 2; Int 1; Int 0] in
  let window := Some (1, 3) in
  (Dynamictable.lengths_agree (Some gv) ov
   && Dynamictable.window_in_range window = true) /\
  exists order group_inds labels,
    Dynamictable.group_and_sort (Some gv) ov window (Some (Z.of_nat 2))
      = Ok (order, group_inds, labels)
    /\ forall v,
         let kept := filter (Dynamictable.same_group gv v) order in
         let first_k :=
           firstn 2 (filter (Dynamictable.same_group gv v)
                       (Dynamictable.sorted_rows (Some gv) ov)) in
         let limited := Dynamictable.limited_rows (Some gv) ov (Some (Z.of_nat 2)) in
         let w := match window with
                  | Some w => w
                  | None => (0, Dynamictable.row_count (Some gv) ov)
                  end in
         length kept <= 2
         /\ kept
            = slice (length (filter (Dynamictable.same_group gv v) (firstn (fst w) limited)))
                (length (filter (Dynamictable.same_group gv v) (firstn (snd w) limited)))
                first_k
         /\ (fst w = 0 -> length limited <= snd w -> kept = first_k)
         /\ (window = None -> kept = first_k).
Proof.
  intros gv ov window. split; [reflexivity|].
  apply (group_and_sort_limit_caps_groups gv ov window 2).
  reflexivity.
Defined.

(** ** Alignment *)

Lemma Num_this_plus (x y : Qc) : (this (x + y)%Qc == this x + this y)%Q.
Proof. unfold Qcplus. apply Qred_correct. Qed.

Lemma Num_this_opp (x : Qc) : (this (- x)%Qc == - this x)%Q.
Proof. unfold Qcopp. apply Qred_correct. Qed.

Lemma Num_this_minus (x y : Qc) : (this (x - y)%Qc == this x - this y)%Q.
Proof. unfold Qcminus. rewrite Num_this_plus, Num_this_opp. reflexivity. Qed.

Lemma mapM_nth_error {A B} (f : A -> result B) xs ys i x :
  mapM f xs = Ok ys -> nth_error xs i = Some x ->
  exists y, nth_error ys i = Some y /\ f x = Ok y.
Proof.
  revert ys i. induction xs as [|x0 xs IH]; intros ys i H Hi.
  - destruct i; discriminate.
  - simpl in H. destruct (f x0) as [y0|] eqn:E0; simpl in H; [|discriminate].
    destruct (mapM f xs) as [ys0|]; simpl in H; [|discriminate].
    injection H as <-. destruct i as [|i]; simpl in *.
    + injection Hi as <-. eauto.
    + eapply IH; eauto.
Qed.

Lemma mapM_total {A B} (f : A -> result B) xs :
  Forall (fun x => exists y, f x = Ok y) xs -> exists ys, mapM f xs = Ok ys.
Proof.
  induction 1 as [|x xs [y Hy] _ [ys Hys]]; simpl.
  - eauto.
  - rewrite Hy, Hys. simpl. eauto.
Qed.

Lemma mapM_Forall {A B} (f : A -> result B) (P : B -> Prop) xs ys :
  mapM f xs = Ok ys -> (forall x y, In x xs -> f x = Ok y -> P y) -> Forall P ys.
Proof.
  revert ys. induction xs as [|x xs IH]; simpl; intros ys H HP.
  - injection H as <-. constructor.
  - destruct (f x) as [y|] eqn:E; simpl in H; [|discriminate].
    destruct (mapM f xs) as [ys0|]; simpl in H; [|discriminate].
    injection H as <-. constructor; eauto.
Qed.

Section Alignment.
Import UnitsUtils.

(** A spike is in the window around the anchor exactly when its shifted
    time is in [- before, after]. *)
Lemma in_window_shift a before after t :
  in_window a before after t = true
  <-> (- before <= t - a)%Qc /\ (t - a <= after)%Qc.
Proof.
  unfold in_window. rewrite andb_true_iff, !Num_leb_le. unfold Qcle.
  rewrite !Num_this_minus, !Num_this_plus, !Num_this_opp. lra.
Qed.

Lemma align_row_in_window spikes before after anchor ts :
  align_row spikes before after anchor = Ok ts ->
  Forall (fun t => (- before <= t)%Qc /\ (t <= after)%Qc) ts.
Proof.
  destruct anchor as [a|s| |ts0]; simpl; intros H; try discriminate;
    injection H as <-; [|constructor].
  apply Forall_forall. intros t Ht.
  apply in_map_iff in Ht. destruct Ht as [s [<- Hs]].
  apply filter_In in Hs. apply in_window_shift. tauto.
Qed.

Lemma align_row_total spikes before after starts row :
  timestamp_at starts row = true ->
  exists anchor ts, nth_error starts row = Some anchor
                 /\ align_row spikes before after anchor = Ok ts.
Proof.
  unfold timestamp_at. destruct (nth_error starts row) as [[a|s| |ts0]|];
    try discriminate; intros _; do 2 eexists; split; reflexivity.
Qed.

End Alignment.

(** C2: for a unit with a spike train, a label that names a column of the
    intervals table and a row order whose rows hold a time in that column,
    [align_by_time_intervals] returns one array for each row of [row_order],
    in that order; every time in every array lies in [- before, after]; the
    array of a row with anchor [a] holds the spikes within
    [a - before, a + after], shifted by [- a], and is empty, without any
    error, when no spike falls there.  The bounds [before] and [after] may
    have any sign. *)
Theorem align_by_time_intervals_in_window
  units unit_index intervals start_label end_label before after row_order spikes starts :
  UnitsUtils.spike_train units unit_index = Ok spikes ->
  column intervals start_label = Ok starts ->
  forallb (UnitsUtils.timestamp_at starts) row_order = true ->
  exists out,
    UnitsUtils.align_by_time_intervals units unit_index intervals start_label end_label
      before after row_order = Ok out
    /\ length out = length row_order
    /\ Forall (Forall (fun t => (- before <= t)%Qc /\ (t <= after)%Qc)) out
    /\ forall i row, nth_error row_order i = Some row ->
         exists anchor ts,
           nth_error starts row = Some anchor
           /\ nth_error out i = Some ts
           /\ (forall a, anchor = Num a ->
                 ts = map (fun t => t - a)%Qc
                        (filter (UnitsUtils.in_window a before after) spikes))
           /\ ((forall a t, anchor = Num a -> In t spikes ->
                  UnitsUtils.in_window a before after t = false) -> ts = []).
Proof.
  intros Hspikes Hstarts Hrows.
  unfold UnitsUtils.align_by_time_intervals. rewrite Hspikes, Hstarts. simpl.
  set (f := fun row => (anchor <- getitem starts row ;;
                        UnitsUtils.align_row spikes before after anchor)%result).
  assert (Hf : forall row, UnitsUtils.timestamp_at starts row = true ->
                 exists anchor ts, nth_error starts row = Some anchor
                   /\ UnitsUtils.align_row spikes before after anchor = Ok ts
                   /\ f row = Ok ts).
  { intros row Hrow.
    destruct (align_row_total spikes before after starts row Hrow)
      as [anchor [ts [Ha Hts]]].
    exists anchor, ts. repeat split; auto.
    unfold f, getitem. rewrite Ha. exact Hts. }
  rewrite forallb_forall in Hrows.
  destruct (mapM_total f row_order) as [out Hout].
  { apply Forall_forall. intros row Hin.
    destruct (Hf row (Hrows row Hin)) as [_ [ts [_ [_ Hts]]]]. eauto. }
  exists out. split; [exact Hout|]. split; [eapply mapM_length; eauto|]. split.
  - eapply mapM_Forall; [exact Hout|]. intros row ts Hin Hts.
    destruct (Hf row (Hrows row Hin)) as [anchor [ts' [_ [Halign Hts']]]].
    rewrite Hts in Hts'. injection Hts' as <-.
    eapply align_row_in_window; eauto.
  - intros i row Hi.
    destruct (mapM_nth_error f row_order out i row Hout Hi) as [ts [Hnth Hts]].
    assert (Hin : In row row_order) by (eapply nth_error_In; eauto).
    destruct (Hf row (Hrows row Hin)) as [anchor [ts' [Ha [Halign Hts']]]].
    rewrite Hts in Hts'. injection Hts' as <-.
    exists anchor, ts. repeat split; auto.
    + intros a ->. simpl in Halign. now injection Halign.
    + intros Hnone. destruct anchor as [a|s| |ts0]; simpl in Halign; try discriminate;
        injection Halign as <-; [|reflexivity].
      replace (filter (UnitsUtils.in_window a before after) spikes) with (@nil Qc);
        [reflexivity|].
      symmetry. rewrite <- (filter_false spikes). apply filter_ext_in.
      intros t Ht. exact (Hnone a t eq_refl Ht).
Qed.

Lemma align_by_time_intervals_in_window_witness :
  let before := decimal 5 10 in
  let after := decimal 5 10 in
  let starts := [Int 1; Int 5; Int 10] in
  exists out,
    UnitsUtils.align_by_time_intervals example_units 0 example_trials
      "start_time" "start_time" before after [0; 1; 2] = Ok out
    /\ length out = 3
    /\ Forall (Forall (fun t => (- before <= t)%Qc /\ (t <= after)%Qc)) out
    /\ forall i row, nth_error [0; 1; 2] i = Some row ->
         exists anchor ts,
           nth_error starts row = Some anchor
           /\ nth_error out i = Some ts
           /\ (forall a, anchor = Num a ->
                 ts = map (fun t => t - a)%Qc
                        (filter (UnitsUtils.in_window a before after) example_spikes))
           /\ ((forall a t, anchor = Num a -> In t example_spikes ->
                  UnitsUtils.in_window a before after t = false) -> ts = []).
Proof.
  intros before after starts.
  apply (align_by_time_intervals_in_window example_units 0 example_trials
           "start_time" "start_time" before after [0; 1; 2] example_spikes starts);
    reflexivity.
Defined.

(** The third end-to-end example of the specification. *)
Example align_by_time_intervals_spec_example :
  match UnitsUtils.align_by_time_intervals example_units 0 example_trials
          "start_time" "start_time" (decimal 5 10) (decimal 5 10) [0; 1; 2] with
  | Ok out => map (map this) out
  | Raise _ => []
  end = [[-1 # 2; 1 # 5]; [1 # 10; 3 # 10]; [-1 # 10]]%Q.
Proof. vm_compute. reflexivity. Qed.

(** ** Smoothing without spikes *)

(** C7: with no spike, [compute_smoothed_firing_rate] returns zeros, one for
    each evaluation point, whatever the kernel and its width. *)
Theorem compute_smoothed_firing_rate_no_spikes gaussian eval_points sigma_in_secs :
  Spikes.compute_smoothed_firing_rate gaussian [] eval_points sigma_in_secs
  = repeat 0%Qc (length eval_points).
Proof.
  unfold Spikes.compute_smoothed_firing_rate.
  induction eval_points as [|t eval_points IH]; simpl in *.
  - reflexivity.
  - f_equal. exact IH.
Qed.

(** ** The drawing monad *)

Lemma pbind_lift {A B} (r : result A) (k : A -> plt B) :
  pbind (lift r) k = match r with Ok a => k a | Raise e => (Raise e, []) end.
Proof.
  unfold pbind, lift. destruct r as [a|e]; [|reflexivity].
  destruct (k a). reflexivity.
Qed.

Lemma pbind_raise {A B} e (k : A -> plt B) : pbind (Raise e, []) k = (Raise e, []).
Proof. reflexivity. Qed.

(** ** The entry points *)

(** C9: [raster_grid] without a table of trials raises [ValueError] at once;
    no figure is made and nothing is drawn. *)
Theorem raster_grid_without_trials
  {imports : Imports} units index before after rows_label cols_label align_by :
  outcome (raster_grid units None index before after rows_label cols_label align_by)
  = Raise (ValueError "trials must exist (trials cannot be None)")
  /\ drawn (raster_grid units None index before after rows_label cols_label align_by)
     = [].
Proof. split; reflexivity. Qed.

(** C3: when neither a group nor an order is asked for, both chains of
    [show_session_raster] assign [None], and the order is
    [np.arange(units_window[0], units_window[1])] with no group indices and no
    labels; in [trials_psth] both values are [None] and the order is
    [np.arange(len(trials_select))], again with no group indices and no
    labels.  [np.arange(a, b)] is the identity sequence a, a+1, ..., b-1. *)
Theorem order_is_identity_without_group_and_order
  {imports : Imports} units units_select electrodes units_window limit
  trials trials_select :
  bind_group_vals units units_select None electrodes = Ok (Bound None)
  /\ bind_order_vals units units_select None electrodes = Ok (Bound None)
  /\ session_order (Bound None) (Bound None) units_window limit
     = Ok (arange (fst units_window) (snd units_window), None, None)
  /\ psth_vals trials None trials_select = Ok None
  /\ psth_order None None trials_select
     = Ok (arange 0 (selection_len trials_select), None, None)
  /\ (forall a b, arange a b = map (fun i => a + i) (seq 0 (b - a))).
Proof.
  repeat split.
  intros a b. unfold arange. generalize (b - a). intros n. revert a.
  induction n as [|n IH]; intros a; simpl; [reflexivity|].
  rewrite Nat.add_0_r. f_equal. rewrite IH, <- seq_shift, map_map.
  apply map_ext. intros i. lia.
Qed.

(** C10: a call of [show_session_raster] with a [group_by] that names no
    column of the units and none of the electrodes (or with no electrodes),
    or with an [order_by] that names no column of the electrodes (or with no
    electrodes), leaves the variable without a value.  The call then ends in
    an exception, and nothing has been drawn; unless an earlier lookup has
    failed already, the exception is the [UnboundLocalError] of the first
    variable that is read without a value. *)
Theorem show_session_raster_unbound_values
  {imports : Imports} units time_window units_select units_window show_obs_intervals
  group_by order_by show_legend limit electrodes :
  leaves_group_vals_unbound units group_by electrodes = true
  \/ leaves_order_vals_unbound order_by electrodes = true ->
  let sel := match units_select with Some sel => sel | None => arange 0 (len units) end in
  (leaves_group_vals_unbound units group_by electrodes = true ->
   bind_group_vals units sel group_by electrodes = Ok Unbound)
  /\ (leaves_order_vals_unbound order_by electrodes = true ->
      bind_order_vals units sel order_by electrodes = Ok Unbound)
  /\ exists e,
       show_session_raster units time_window units_select units_window
         show_obs_intervals group_by order_by show_legend limit electrodes
       = (Raise e, [])
       /\ forall w group_vals order_vals,
            session_time_window units time_window = Ok w ->
            bind_group_vals units sel group_by electrodes = Ok group_vals ->
            bind_order_vals units sel order_by electrodes = Ok order_vals ->
            e = UnboundLocalError
                  match group_vals with
                  | Unbound => "group_vals"
                  | Bound _ => "order_vals"
                  end.
Proof.
  intros Hcase sel.
  assert (Hg : leaves_group_vals_unbound units group_by electrodes = true ->
               bind_group_vals units sel group_by electrodes = Ok Unbound).
  { unfold leaves_group_vals_unbound, bind_group_vals, names_no_column.
    destruct group_by as [g|]; [|discriminate].
    destruct (contains units g); [discriminate|].
    destruct electrodes as [el|]; [|reflexivity].
    destruct (contains el g); [discriminate | reflexivity]. }
  assert (Ho : leaves_order_vals_unbound order_by electrodes = true ->
               bind_order_vals units sel order_by electrodes = Ok Unbound).
  { unfold leaves_order_vals_unbound, bind_order_vals, names_no_column.
    destruct order_by as [o|]; [|discriminate].
    destruct electrodes as [el|]; [|reflexivity].
    destruct (contains el o); [discriminate | reflexivity]. }
  split; [exact Hg|]. split; [exact Ho|].
  unfold show_session_raster. rewrite pbind_lift.
  destruct (session_time_window units time_window) as [w|e];
    [|exists e; split; [reflexivity | discriminate]].
  fold sel. rewrite pbind_lift.
  destruct (bind_group_vals units sel group_by electrodes) as [gv|e];
    [|exists e; split; [reflexivity | discriminate]].
  rewrite pbind_lift.
  destruct (bind_order_vals units sel order_by electrodes) as [ov|e];
    [|exists e; split; [reflexivity | discriminate]].
  rewrite pbind_lift.
  assert (Hraise : session_order gv ov
            (match units_window with Some w0 => w0 | None => (0, len units) end) limit
            = Raise (UnboundLocalError
                       match gv with Unbound => "group_vals" | Bound _ => "order_vals" end)).
  { destruct Hcase as [H|H].
    - apply Hg in H. injection H as ->. reflexivity.
    - apply Ho in H. injection H as ->.
      unfold session_order. destruct gv as [|[gv|]]; reflexivity. }
  rewrite Hraise. eexists. split; [reflexivity|].
  intros w' gv' ov' _ [= <-] _. reflexivity.
Qed.

Lemma show_session_raster_unbound_values_witness :
  let units_select := arange 0 (len example_units) in
  (leaves_group_vals_unbound example_units (Some "depth") None = true
   \/ leaves_order_vals_unbound (Some "start_time") None = true)
  /\ (leaves_group_vals_unbound example_units (Some "depth") None = true ->
      bind_group_vals example_units units_select (Some "depth") None = Ok Unbound)
  /\ (leaves_order_vals_unbound (Some "start_time") None = true ->
      bind_order_vals example_units units_select (Some "start_time") None = Ok Unbound)
  /\ exists e,
       show_session_raster example_units None None None true
         (Some "depth") (Some "start_time") true None None
       = (Raise e, [])
       /\ forall w group_vals order_vals,
            session_time_window example_units None = Ok w ->
            bind_group_vals example_units units_select (Some "depth") None
              = Ok group_vals ->
            bind_order_vals example_units units_select (Some "start_time") None
              = Ok order_vals ->
            e = UnboundLocalError
                  match group_vals with
                  | Unbound => "group_vals"
                  | Bound _ => "order_vals"
                  end.
Proof.
  intros units_select. split; [left; reflexivity|].
  apply (show_session_raster_unbound_values example_units None None None true
           (Some "depth") (Some "start_time") true None None).
  left. reflexivity.
Defined.

(** The exception of that call is the unbound variable. *)
Example show_session_raster_unbound_example :
  show_session_raster example_units None None None true
    (Some "depth") None true None None
  = (Raise (UnboundLocalError "group_vals"), []).
Proof. vm_compute. reflexivity. Qed.

(** ** The evaluation grid *)

Lemma Num_leb_false (x y : Qc) : Num.leb x y = false -> (y <= x)%Qc.
Proof.
  intros H. destruct (Qclt_le_dec x y) as [Hlt|Hle]; [|exact Hle].
  apply Qclt_le_weak, Num_leb_le in Hlt. congruence.
Qed.

Lemma Qc_min_spec x y : (Qc_min x y <= x)%Qc /\ (Qc_min x y <= y)%Qc
                        /\ (Qc_min x y = x \/ Qc_min x y = y).
Proof.
  unfold Qc_min. destruct (Num.leb x y) eqn:E.
  - apply Num_leb_le in E. repeat split; auto. apply Qcle_refl.
  - apply Num_leb_false in E. repeat split; auto. apply Qcle_refl.
Qed.

Lemma Qc_max_spec x y : (x <= Qc_max x y)%Qc /\ (y <= Qc_max x y)%Qc
                        /\ (Qc_max x y = x \/ Qc_max x y = y).
Proof.
  unfold Qc_max. destruct (Num.leb x y) eqn:E.
  - apply Num_leb_le in E. repeat split; auto. apply Qcle_refl.
  - apply Num_leb_false in E. repeat split; auto. apply Qcle_refl.
Qed.

(** [min(xs)] is an element of [xs] below all the others; [max(xs)] is one
    above all the others. *)
Lemma minimum_spec t ts :
  In (minimum t ts) (t :: ts) /\ Forall (fun s => (minimum t ts <= s)%Qc) (t :: ts).
Proof.
  unfold minimum. revert t. induction ts as [|u ts IH]; intros t; simpl.
  - split; [now left|]. constructor; [apply Qcle_refl | constructor].
  - destruct (IH (Qc_min t u)) as [Hin Hall].
    destruct (Qc_min_spec t u) as [Ht [Hu Hcase]].
    inversion Hall as [|? ? Hhead Htail]; subst. split.
    + destruct Hin as [Hin|Hin]; [|now right; right].
      rewrite <- Hin. destruct Hcase as [->| ->]; [now left | now right; left].
    + constructor; [eapply Qcle_trans; eauto|].
      constructor; [eapply Qcle_trans; eauto | exact Htail].
Qed.

Lemma maximum_spec t ts :
  In (maximum t ts) (t :: ts) /\ Forall (fun s => (s <= maximum t ts)%Qc) (t :: ts).
Proof.
  unfold maximum. revert t. induction ts as [|u ts IH]; intros t; simpl.
  - split; [now left|]. constructor; [apply Qcle_refl | constructor].
  - destruct (IH (Qc_max t u)) as [Hin Hall].
    destruct (Qc_max_spec t u) as [Ht [Hu Hcase]].
    inversion Hall as [|? ? Hhead Htail]; subst. split.
    + destruct Hin as [Hin|Hin]; [|now right; right].
      rewrite <- Hin. destruct Hcase as [->| ->]; [now left | now right; left].
    + constructor; [eapply Qcle_trans; eauto|].
      constructor; [eapply Qcle_trans; eauto | exact Htail].
Qed.

Lemma Num_of_nat_nonzero n : n <> 0 -> Num.of_nat n <> 0%Qc.
Proof.
  intros Hn H. unfold Num.of_nat, Num.of_Z in H.
  apply Q2Qc_eq_iff in H. unfold Qeq in H. simpl in H. lia.
Qed.

Lemma linspace_length start stop num : length (linspace start stop num) = num.
Proof. unfold linspace. now rewrite length_map, length_seq. Qed.

Lemma linspace_nth start stop num i :
  i < num ->
  nth_error (linspace start stop num) i
  = Some (start + Num.of_nat i * ((stop - start) / Num.of_nat (num - 1)))%Qc.
Proof.
  intros Hi. unfold linspace. rewrite nth_error_map.
  rewrite nth_error_nth' with (d := 0) by (now rewrite length_seq).
  rewrite seq_nth by exact Hi. reflexivity.
Qed.

(** The grid starts at [start] and, with two points or more, ends at
    [stop]. *)
Lemma linspace_first start stop num :
  0 < num -> nth_error (linspace start stop num) 0 = Some start.
Proof.
  intros Hn. rewrite linspace_nth by exact Hn. f_equal.
  change (Num.of_nat 0) with 0%Qc. ring.
Qed.

Lemma linspace_last start stop num :
  2 <= num -> nth_error (linspace start stop num) (num - 1) = Some stop.
Proof.
  intros Hn. rewrite linspace_nth by lia. f_equal.
  field. apply Num_of_nat_nonzero. lia.
Qed.

(** ** The statistics of the groups *)

Lemma select_same_length {A} mask (xs : list A) :
  length mask = length xs -> select mask xs = Ok (compress mask xs).
Proof. intros H. unfold select. now rewrite H, Nat.eqb_refl. Qed.

Lemma zip_with_nth_error {A B C} (f : A -> B -> C) xs ys j x y :
  nth_error xs j = Some x -> nth_error ys j = Some y ->
  nth_error (zip_with f xs ys) j = Some (f x y).
Proof.
  revert ys j. induction xs as [|x0 xs IH]; intros [|y0 ys] [|j]; simpl;
    try discriminate.
  - intros [= ->] [= ->]. reflexivity.
  - apply IH.
Qed.

Lemma mean_axis0_values width row rows :
  exists ms,
    mean_axis0 width (row :: rows) = Values ms
    /\ length ms = width
    /\ forall j, j < width ->
         nth_error ms j
         = Some (column_sum (row :: rows) j / Num.of_nat (length (row :: rows)))%Qc.
Proof.
  eexists. split; [reflexivity|]. split.
  - now rewrite length_map, length_seq.
  - intros j Hj. rewrite nth_error_map.
    rewrite nth_error_nth' with (d := 0) by (now rewrite length_seq).
    now rewrite seq_nth.
Qed.

Lemma curve_axpy_values ms k es :
  exists out,
    curve_axpy (Values ms) k (Values es) = Values out
    /\ forall j m e, nth_error ms j = Some m -> nth_error es j = Some e ->
         nth_error out j = Some (m + k * e)%Qc.
Proof.
  eexists. split; [reflexivity|].
  intros j m e Hm He. now apply (zip_with_nth_error (fun x y => (x + k * y)%Qc)).
Qed.

Section GroupStats.
Context {imports : Imports}.

Lemma group_stat_total smoothed group_inds width group :
  length group_inds = length smoothed ->
  let rows := compress (map (fun g => g =? group) group_inds) smoothed in
  group_stat smoothed group_inds width group
  = Ok {| mean := mean_axis0 width rows;
          lower := curve_axpy (mean_axis0 width rows) (- two)%Qc (sem rows);
          upper := curve_axpy (mean_axis0 width rows) two (sem rows) |}.
Proof.
  intros Hlen rows. unfold group_stat.
  rewrite select_same_length by (now rewrite length_map). reflexivity.
Qed.

End GroupStats.

(** C6: for data with at least one spike and one group index for each row
    (all rows in group 0 when none is given), the aggregation returns the
    grid and one record for each group.  The grid has [ntt] points, from the
    earliest to the latest spike time of all rows; every smoothed curve is
    evaluated on it.  For each group the mean is the pointwise mean of the
    curves of the rows of that group, and the band is the mean minus and plus
    twice the standard error of these curves. *)
Theorem psth_group_stats_mean_and_band
  {imports : Imports} data group_inds sigma_in_secs ntt t all_data :
  concat data = t :: all_data ->
  let assigned :=
    match group_inds with Some gi => gi | None => repeat 0 (length data) end in
  length assigned = length data ->
  let grid := linspace (minimum t all_data) (maximum t all_data) ntt in
  let smoothed := map (fun x => compute_smoothed_firing_rate x grid sigma_in_secs) data in
  exists group_stats,
    psth_group_stats data group_inds sigma_in_secs ntt = Ok (Some (grid, group_stats))
    /\ length grid = ntt
    /\ In (minimum t all_data) (concat data)
    /\ In (maximum t all_data) (concat data)
    /\ Forall (fun s => (minimum t all_data <= s)%Qc /\ (s <= maximum t all_data)%Qc)
         (concat data)
    /\ (0 < ntt -> nth_error grid 0 = Some (minimum t all_data))
    /\ (2 <= ntt -> nth_error grid (ntt - 1) = Some (maximum t all_data))
    /\ Forall (fun rates => length rates = ntt) smoothed
    /\ length group_stats = length (unique assigned)
    /\ forall group, group < length (unique assigned) ->
         let rows := compress (map (fun g => g =? group) assigned) smoothed in
         exists st,
           nth_error group_stats group = Some st
           /\ mean st = mean_axis0 ntt rows
           /\ lower st = curve_axpy (mean st) (- two)%Qc (sem rows)
           /\ upper st = curve_axpy (mean st) two (sem rows)
           /\ (rows <> [] ->
               exists ms, mean st = Values ms /\ length ms = ntt
                 /\ forall j, j < ntt ->
                      nth_error ms j
                      = Some (column_sum rows j / Num.of_nat (length rows))%Qc)
           /\ (forall ms es, mean st = Values ms -> sem rows = Values es ->
               exists ls us, lower st = Values ls /\ upper st = Values us
                 /\ forall j m e, nth_error ms j = Some m -> nth_error es j = Some e ->
                      nth_error ls j = Some (m - two * e)%Qc
                      /\ nth_error us j = Some (m + two * e)%Qc).
Proof.
  intros Hdata assigned Hlen grid smoothed.
  assert (Hgrid : length grid = ntt) by apply linspace_length.
  assert (Hsmoothed : length assigned = length smoothed)
    by (unfold smoothed; now rewrite length_map).
  destruct (mapM_total (group_stat smoothed assigned (length grid))
              (seq 0 (length (unique assigned)))) as [group_stats Hstats].
  { apply Forall_forall. intros group _. eexists.
    now apply group_stat_total. }
  exists group_stats.
  destruct (minimum_spec t all_data) as [Hmin_in Hmin].
  destruct (maximum_spec t all_data) as [Hmax_in Hmax].
  split.
  { unfold psth_group_stats. destruct data as [|x data']; [discriminate|].
    rewrite Hdata. fold grid. fold smoothed.
    replace (match group_inds with
             | Some gi => gi
             | None => repeat 0 (length smoothed)
             end) with assigned.
    - rewrite Hstats. reflexivity.
    - unfold assigned. destruct group_inds; [reflexivity|].
      unfold smoothed. now rewrite length_map. }
  rewrite Hdata.
  split; [exact Hgrid|]. split; [exact Hmin_in|]. split; [exact Hmax_in|].
  split.
  { rewrite Forall_forall in *. intros s Hs. split; [apply Hmin | apply Hmax]; exact Hs. }
  split; [intros Hn; now apply linspace_first|].
  split; [intros Hn; now apply linspace_last|].
  split.
  { unfold smoothed. apply Forall_forall. intros rates Hin.
    apply in_map_iff in Hin. destruct Hin as [x [<- _]].
    now rewrite compute_smoothed_firing_rate_length. }
  split; [apply mapM_length in Hstats; now rewrite Hstats, length_seq|].
  intros group Hgroup rows.
  destruct (mapM_nth_error _ _ _ group group Hstats) as [st [Hnth Hst]].
  { rewrite nth_error_nth' with (d := 0) by (now rewrite length_seq).
    now rewrite seq_nth. }
  rewrite group_stat_total in Hst by exact Hsmoothed.
  fold rows in Hst. rewrite Hgrid in Hst. injection Hst as <-. simpl.
  exists {| mean := mean_axis0 ntt rows;
            lower := curve_axpy (mean_axis0 ntt rows) (- two)%Qc (sem rows);
            upper := curve_axpy (mean_axis0 ntt rows) two (sem rows) |}.
  simpl. repeat (split; [try reflexivity; try exact Hnth|]).
  - intros Hrows. destruct rows as [|row rows']; [congruence|].
    apply mean_axis0_values.
  - intros ms es Hms Hes. rewrite Hms, Hes.
    destruct (curve_axpy_values ms (- two)%Qc es) as [ls [Hls Hl]].
    destruct (curve_axpy_values ms two es) as [us [Hus Hu]].
    exists ls, us. split; [exact Hls|]. split; [exact Hus|].
    intros j m e Hm He. split.
    + rewrite (Hl j m e Hm He). f_equal. ring.
    + exact (Hu j m e Hm He).
Qed.

Lemma psth_group_stats_mean_and_band_witness :
  let t := decimal (-5) 10 in
  let all_data := [decimal 2 10; decimal 1 10; decimal 3 10; decimal (-1) 10] in
  let sigma := decimal 1 10 in
  let grid := linspace (minimum t all_data) (maximum t all_data) 5 in
  let smoothed := map (fun x => compute_smoothed_firing_rate x grid sigma) example_aligned in
  (concat example_aligned = t :: all_data
   /\ length example_group_inds = length example_aligned)
  /\ exists group_stats,
       psth_group_stats example_aligned (Some example_group_inds) sigma 5
         = Ok (Some (grid, group_stats))
       /\ length grid = 5
       /\ In (minimum t all_data) (concat example_aligned)
       /\ In (maximum t all_data) (concat example_aligned)
       /\ Forall (fun s => (minimum t all_data <= s)%Qc /\ (s <= maximum t all_data)%Qc)
            (concat example_aligned)
       /\ (0 < 5 -> nth_error grid 0 = Some (minimum t all_data))
       /\ (2 <= 5 -> nth_error grid (5 - 1) = Some (maximum t all_data))
       /\ Forall (fun rates => length rates = 5) smoothed
       /\ length group_stats = length (unique example_group_inds)
       /\ forall group, group < length (unique example_group_inds) ->
            let rows := compress (map (fun g => g =? group) example_group_inds) smoothed in
            exists st,
              nth_error group_stats group = Some st
              /\ mean st = mean_axis0 5 rows
              /\ lower st = curve_axpy (mean st) (- two)%Qc (sem rows)
              /\ upper st = curve_axpy (mean st) two (sem rows)
              /\ (rows <> [] ->
                  exists ms, mean st = Values ms /\ length ms = 5
                    /\ forall j, j < 5 ->
                         nth_error ms j
                         = Some (column_sum rows j / Num.of_nat (length rows))%Qc)
              /\ (forall ms es, mean st = Values ms -> sem rows = Values es ->
                  exists ls us, lower st = Values ls /\ upper st = Values us
                    /\ forall j m e,
                         nth_error ms j = Some m -> nth_error es j = Some e ->
                         nth_error ls j = Some (m - two * e)%Qc
                         /\ nth_error us j = Some (m + two * e)%Qc).
Proof.
  intros t all_data sigma grid smoothed.
  split; [split; reflexivity|].
  apply (psth_group_stats_mean_and_band example_aligned (Some example_group_inds)
           sigma 5 t all_data); reflexivity.
Defined.

(** The run of that example: the grid from -0.5 to 0.3 in steps of 0.2, and
    the means of the two groups under the box kernel. *)
Example psth_group_stats_example :
  match psth_group_stats example_aligned (Some example_group_inds) (decimal 1 10) 5 with
  | Ok (Some (grid, group_stats)) =>
      (map this grid,
       map (fun st => match mean st with Values ms => map this ms | NaNs => [] end)
         group_stats)
  | _ => ([], [])
  end
  = ([-1 # 2; -3 # 10; -1 # 10; 1 # 10; 3 # 10],
     [[1 # 2; 0; 1 # 2; 1 # 2; 1 # 2]; [0; 0; 0; 1; 1]])%Q.
Proof. vm_compute. reflexivity. Qed.

(** ** The two stages of the PSTH *)

Lemma pbind_pret {A B} (a : A) (k : A -> plt B) : pbind (pret a) k = k a.
Proof. unfold pbind, pret. destruct (k a). reflexivity. Qed.

Lemma pbind_emit {B} d (k : unit -> plt B) :
  pbind (emit d) k = (outcome (k tt), d :: drawn (k tt)).
Proof. unfold pbind, emit. destruct (k tt). reflexivity. Qed.

(** A sequence that ends well ran both of its parts, and drew what they
    drew. *)
Lemma pbind_ok {A B} (m : plt A) (k : A -> plt B) b :
  outcome (pbind m k) = Ok b ->
  exists a, outcome m = Ok a
         /\ outcome (k a) = Ok b
         /\ drawn (pbind m k) = drawn m ++ drawn (k a).
Proof.
  destruct m as [[a|e] d]; simpl; [|discriminate].
  destruct (k a) as [r d'] eqn:E. simpl. intros ->.
  exists a. rewrite E. auto.
Qed.

Lemma outcome_pair {A} (r : result A) d : outcome (r, d) = r.
Proof. reflexivity. Qed.

Lemma drawn_pair {A} (r : result A) d : drawn (r, d) = d.
Proof. reflexivity. Qed.

(** The wider window of the smoothing stage: four standard deviations more
    on either side. *)
Lemma inflated_by_four_sigma (x sigma : Qc) :
  (this (x + sigma * four)%Qc == this x + 4 * this sigma)%Q.
Proof.
  rewrite Num_this_plus. unfold Qcmult, Q2Qc. cbn [this].
  rewrite Qred_correct. change (this four) with 4%Q. ring.
Qed.

Section PSTHStages.
Context {imports : Imports}.

Lemma plot_grouped_events_xlim data window group_inds ax labels show_legend offset
  unobserved ax' :
  outcome (plot_grouped_events data window group_inds (Some ax) labels show_legend
             offset unobserved) = Ok ax' ->
  In (SetXlim ax (fst window) (snd window))
     (drawn (plot_grouped_events data window group_inds (Some ax) labels show_legend
               offset unobserved)).
Proof.
  unfold plot_grouped_events. rewrite pbind_pret. intros H.
  apply pbind_ok in H. destruct H as [u1 [_ [H ->]]]. apply in_or_app. right.
  apply pbind_ok in H. destruct H as [u2 [_ [_ ->]]]. apply in_or_app. right.
  rewrite pbind_emit. now left.
Qed.

Lemma show_psth_raster_xlim data before after group_inds labels ax show_legend ax' :
  outcome (show_psth_raster data before after group_inds labels (Some ax) show_legend)
  = Ok ax' ->
  In (SetXlim ax (- before)%Qc after)
     (drawn (show_psth_raster data before after group_inds labels (Some ax) show_legend)).
Proof.
  unfold show_psth_raster. intros H.
  apply pbind_ok in H. destruct H as [ax0 [H [_ ->]]]. apply in_or_app. left.
  exact (plot_grouped_events_xlim _ _ _ _ _ _ _ _ _ H).
Qed.

Lemma show_psth_smoothed_xlim data ax before after group_inds sigma_in_secs ntt :
  outcome (show_psth_smoothed data ax before after group_inds sigma_in_secs ntt) = Ok tt ->
  (concat data <> [] ->
   In (SetXlim ax (- before)%Qc after)
      (drawn (show_psth_smoothed data ax before after group_inds sigma_in_secs ntt)))
  /\ (concat data = [] ->
      drawn (show_psth_smoothed data ax before after group_inds sigma_in_secs ntt) = []).
Proof.
  unfold show_psth_smoothed. rewrite pbind_lift.
  destruct (psth_group_stats data group_inds sigma_in_secs ntt) as [computed|e] eqn:E;
    [|discriminate].
  unfold psth_group_stats in E. destruct data as [|x data']; [discriminate|].
  destruct (concat (x :: data')) as [|t all_data].
  - injection E as <-. intros _. split; [congruence | reflexivity].
  - destruct (mapM _ _) as [group_stats|]; [|discriminate].
    injection E as <-. intros H. split; [intros _ | discriminate].
    apply pbind_ok in H. destruct H as [u [_ [_ ->]]]. apply in_or_app. right.
    rewrite pbind_emit. now left.
Qed.

End PSTHStages.

(** C5: when [trials_psth] ends well, the raster stage was given the spikes
    aligned with [before] and [after] as they are, and set its time axis to
    [- before, after]; the smoothing stage was given the spikes aligned with
    [before + 4 sigma] and [after + 4 sigma], and, when there is a spike to
    show, set the time axis of the curves back to [- before, after]. *)
Theorem trials_psth_windows
  {imports : Imports} units index start_label before after order_by group_by
  trials_select sigma_in_secs ntt :
  outcome (trials_psth units index start_label before after order_by group_by
             trials_select sigma_in_secs ntt) = Ok tt ->
  exists trials group_vals order_vals order group_inds labels data expanded_data,
    psth_trials units = Ok trials
    /\ psth_vals trials group_by trials_select = Ok group_vals
    /\ psth_vals trials order_by trials_select = Ok order_vals
    /\ psth_order group_vals order_vals trials_select = Ok (order, group_inds, labels)
    /\ align_by_time_intervals units index trials start_label start_label
         before after order = Ok data
    /\ align_by_time_intervals units index trials start_label start_label
         (before + sigma_in_secs * four)%Qc (after + sigma_in_secs * four)%Qc order
       = Ok expanded_data
    /\ (this (before + sigma_in_secs * four)%Qc == this before + 4 * this sigma_in_secs)%Q
    /\ (this (after + sigma_in_secs * four)%Qc == this after + 4 * this sigma_in_secs)%Q
    /\ let raster :=
         show_psth_raster data before after group_inds labels (Some (Ax 0 0)) true in
       let smoothed :=
         show_psth_smoothed expanded_data (Ax 1 0) before after group_inds
           sigma_in_secs ntt in
       drawn (trials_psth units index start_label before after order_by group_by
                trials_select sigma_in_secs ntt)
       = Subplots 2 1 :: drawn raster
           ++ [SetTitle (Ax 0 0) index; SetXticks (Ax 0 0) []; SetXlabel (Ax 0 0) (Text "")]
           ++ drawn smoothed
       /\ In (SetXlim (Ax 0 0) (- before)%Qc after) (drawn raster)
       /\ (concat expanded_data <> [] ->
           In (SetXlim (Ax 1 0) (- before)%Qc after) (drawn smoothed))
       /\ (concat expanded_data = [] -> drawn smoothed = []).
Proof.
  intros H. unfold trials_psth in H |- *.
  rewrite pbind_lift in H |- *.
  destruct (psth_trials units) as [trials|e] eqn:Etrials; [|discriminate H].
  rewrite pbind_lift in H |- *.
  destruct (psth_vals trials group_by trials_select) as [group_vals|e] eqn:Egroup;
    [|discriminate H].
  rewrite pbind_lift in H |- *.
  destruct (psth_vals trials order_by trials_select) as [order_vals|e] eqn:Eorder;
    [|discriminate H].
  rewrite pbind_lift in H |- *.
  destruct (psth_order group_vals order_vals trials_select)
    as [[[order group_inds] labels]|e] eqn:Erows; [|discriminate H].
  rewrite pbind_lift in H |- *.
  destruct (align_by_time_intervals units index trials start_label start_label
              before after order) as [data|e] eqn:Edata; [|discriminate H].
  rewrite pbind_lift in H |- *.
  destruct (align_by_time_intervals units index trials start_label start_label
              (before + sigma_in_secs * four)%Qc (after + sigma_in_secs * four)%Qc order)
    as [expanded_data|e] eqn:Eexpanded; [|discriminate H].
  exists trials, group_vals, order_vals, order, group_inds, labels, data, expanded_data.
  split; [reflexivity|]. do 5 (split; [assumption|]).
  split; [apply inflated_by_four_sigma|]. split; [apply inflated_by_four_sigma|].
  cbv zeta.
  rewrite pbind_emit, outcome_pair in H. rewrite pbind_emit, drawn_pair.
  apply pbind_ok in H. destruct H as [ax [Hraster [H Hdrawn]]].
  rewrite Hdrawn. rewrite !pbind_emit, !outcome_pair in H. rewrite !pbind_emit, !drawn_pair.
  split; [reflexivity|].
  split; [exact (show_psth_raster_xlim _ _ _ _ _ _ _ _ Hraster)|].
  apply show_psth_smoothed_xlim. exact H.
Qed.

Lemma trials_psth_windows_witness :
  let before := decimal 5 10 in
  let after := decimal 5 10 in
  let sigma := decimal 1 10 in
  let run := trials_psth example_units 0 "start_time" before after
               (Some "start_time") (Some "stimulus") EmptyTuple sigma 5 in
  outcome run = Ok tt
  /\ exists trials group_vals order_vals order group_inds labels data expanded_data,
       psth_trials example_units = Ok trials
       /\ psth_vals trials (Some "stimulus") EmptyTuple = Ok group_vals
       /\ psth_vals trials (Some "start_time") EmptyTuple = Ok order_vals
       /\ psth_order group_vals order_vals EmptyTuple = Ok (order, group_inds, labels)
       /\ align_by_time_intervals example_units 0 trials "start_time" "start_time"
            before after order = Ok data
       /\ align_by_time_intervals example_units 0 trials "start_time" "start_time"
            (before + sigma * four)%Qc (after + sigma * four)%Qc order
          = Ok expanded_data
       /\ (this (before + sigma * four)%Qc == this before + 4 * this sigma)%Q
       /\ (this (after + sigma * four)%Qc == this after + 4 * this sigma)%Q
       /\ let raster :=
            show_psth_raster data before after group_inds labels (Some (Ax 0 0)) true in
          let smoothed :=
            show_psth_smoothed expanded_data (Ax 1 0) before after group_inds sigma 5 in
          drawn run
          = Subplots 2 1 :: drawn raster
              ++ [SetTitle (Ax 0 0) 0; SetXticks (Ax 0 0) []; SetXlabel (Ax 0 0) (Text "")]
              ++ drawn smoothed
          /\ In (SetXlim (Ax 0 0) (- before)%Qc after) (drawn raster)
          /\ (concat expanded_data <> [] ->
              In (SetXlim (Ax 1 0) (- before)%Qc after) (drawn smoothed))
          /\ (concat expanded_data = [] -> drawn smoothed = []).
Proof.
  intros before after sigma run.
  split; [vm_compute; reflexivity|].
  apply (trials_psth_windows example_units 0 "start_time" before after
           (Some "start_time") (Some "stimulus") EmptyTuple sigma 5).
  vm_compute. reflexivity.
Defined.

(** ** Categorical columns *)

Section Distinct.
Import Dynamictable.

Lemma distinct_from_keeps acc vs v : In v acc -> In v (distinct_from acc vs).
Proof.
  revert acc. induction vs as [|w vs IH]; simpl; intros acc H; [exact H|].
  apply IH. destruct (existsb (fun l => cell_eqb l w) acc); [exact H|].
  apply in_or_app. now left.
Qed.

Lemma distinct_from_In acc vs v :
  Forall (fun w => isnan w = false) vs ->
  In v (distinct_from acc vs) <-> In v acc \/ In v vs.
Proof.
  intros Hvs. revert acc. induction Hvs as [|w vs Hw _ IH]; simpl; intros acc.
  - tauto.
  - rewrite IH. destruct (existsb (fun l => cell_eqb l w) acc) eqn:E.
    + apply existsb_exists in E. destruct E as [l [Hl He]].
      apply cell_eqb_eq in He. destruct He as [-> _].
      split; [tauto|]. intros [H|[<-|H]]; auto.
    + rewrite in_app_iff. simpl. tauto.
Qed.

Lemma distinct_from_NoDup acc vs :
  Forall (fun w => isnan w = false) vs -> NoDup acc -> NoDup (distinct_from acc vs).
Proof.
  intros Hvs. revert acc. induction Hvs as [|w vs Hw _ IH]; simpl; intros acc Hacc.
  - exact Hacc.
  - apply IH. destruct (existsb (fun l => cell_eqb l w) acc) eqn:E; [exact Hacc|].
    apply NoDup_app; [exact Hacc | repeat constructor; intros [] |].
    intros a Ha [Heq|[]]. subst a.
    assert (Hex : existsb (fun l => cell_eqb l w) acc = true).
    { apply existsb_exists. exists w. split; [exact Ha | now apply cell_eqb_refl]. }
    congruence.
Qed.

(** The distinct values of a column without NaN: each value of the column,
    once. *)
Lemma distinct_spec vs :
  Forall (fun w => isnan w = false) vs ->
  NoDup (distinct vs) /\ forall v, In v (distinct vs) <-> In v vs.
Proof.
  intros Hvs. unfold distinct. split.
  - apply distinct_from_NoDup; [exact Hvs | constructor].
  - intros v. rewrite distinct_from_In by exact Hvs. simpl. tauto.
Qed.

Lemma Bool_injective b c : Bool b = Bool c -> b = c.
Proof.
  intros H.
  apply (f_equal (fun x => match x with Num q => Qnum q | _ => 0%Z end)) in H.
  destruct b, c; try reflexivity; vm_compute in H; discriminate H.
Qed.

(** A boolean column in which both values occur has two distinct values. *)
Lemma distinct_count_bools data :
  In true data -> In false data -> distinct_count (map Bool data) = 2.
Proof.
  intros Htrue Hfalse. unfold distinct_count.
  assert (Hnan : Forall (fun w => isnan w = false) (map Bool data)).
  { apply Forall_forall. intros w Hw. apply in_map_iff in Hw.
    destruct Hw as [b [<- _]]. reflexivity. }
  rewrite forallb_filter_id.
  2:{ apply forallb_forall. intros w Hw. rewrite Forall_forall in Hnan.
      now rewrite (Hnan w Hw). }
  destruct (distinct_spec _ Hnan) as [Hnodup Hin].
  change 2 with (length [Bool true; Bool false]).
  apply Nat.le_antisymm.
  - apply NoDup_incl_length; [exact Hnodup|].
    intros w Hw. apply Hin, in_map_iff in Hw. destruct Hw as [[|] [<- _]]; simpl; auto.
  - apply NoDup_incl_length.
    + repeat constructor; simpl; [|tauto].
      intros [H|[]]. apply Bool_injective in H. discriminate.
    + intros w [<-|[<-|[]]]; apply Hin, in_map; assumption.
Qed.

End Distinct.

(** C8: every column that [infer_categorical_columns] returns has a number
    of distinct values, NaN set aside, that is neither 1 nor the number of
    rows of the table; and for the table of the test, nine rows and two
    boolean columns in each of which both values occur, both columns are
    returned, with their nine values. *)
Theorem infer_categorical_columns_discriminating :
  (forall t,
     Forall (fun col => Dynamictable.distinct_count (snd col) <> 1
                        /\ Dynamictable.distinct_count (snd col) <> len t)
       (Dynamictable.infer_categorical_columns t))
  /\ (forall data1 data2,
        length data1 = 9 -> length data2 = 9 ->
        In true data1 -> In false data1 -> In true data2 -> In false data2 ->
        Dynamictable.infer_categorical_columns (test_table data1 data2)
        = [("spikes", map Bool data1); ("LFP", map Bool data2)]
        /\ length (map Bool data1) = 9 /\ length (map Bool data2) = 9).
Proof.
  split.
  - intros t. apply Forall_forall. intros col Hcol.
    apply filter_In in Hcol. destruct Hcol as [_ Hcol].
    unfold Dynamictable.is_categorical in Hcol.
    rewrite !andb_true_iff, !negb_true_iff, !Nat.eqb_neq in Hcol. tauto.
  - intros data1 data2 Hlen1 Hlen2 Ht1 Hf1 Ht2 Hf2.
    assert (Hscalar : forall data, existsb Dynamictable.is_nested (map Bool data) = false).
    { intros data. induction data as [|b data IH]; [reflexivity | exact IH]. }
    split; [|now rewrite !length_map].
    unfold Dynamictable.infer_categorical_columns, test_table. simpl.
    unfold Dynamictable.is_categorical. simpl.
    rewrite !Hscalar, !distinct_count_bools by assumption. reflexivity.
Qed.

Lemma infer_categorical_columns_discriminating_witness :
  let data1 := [true; false; false; true; true; false; true; true; false] in
  let data2 := [false; false; false; false; true; false; false; false; false] in
  Dynamictable.infer_categorical_columns (test_table data1 data2)
  = [("spikes", map Bool data1); ("LFP", map Bool data2)]
  /\ length (map Bool data1) = 9 /\ length (map Bool data2) = 9.
Proof.
  intros data1 data2.
  apply (proj2 infer_categorical_columns_discriminating data1 data2);
    try reflexivity; simpl; tauto.
Defined.

(** ** The window of the raster widget and the limit *)

Lemma cell_eqb_sym a b : cell_eqb a b = cell_eqb b a.
Proof.
  destruct (cell_eqb a b) eqn:E.
  - apply cell_eqb_eq in E. destruct E as [<- Hnan].
    symmetry. now apply cell_eqb_refl.
  - destruct (cell_eqb b a) eqn:E'; [|reflexivity].
    apply cell_eqb_eq in E'. destruct E' as [<- Hnan].
    rewrite cell_eqb_refl in E by exact Hnan. discriminate.
Qed.

Lemma filter_length_Permutation {A} (p : A -> bool) l l' :
  Permutation l l' -> length (filter p l) = length (filter p l').
Proof.
  induction 1 as [|x l l' _ IH|x y l|l l' l'' _ IH1 _ IH2]; simpl.
  - reflexivity.
  - destruct (p x); simpl; congruence.
  - destruct (p x), (p y); reflexivity.
  - congruence.
Qed.

Lemma Zsum_Permutation (l l' : list Z) :
  Permutation l l' -> fold_right Z.add 0%Z l = fold_right Z.add 0%Z l'.
Proof. induction 1; simpl; lia. Qed.

Lemma Zsum_map_add {A} (f g : A -> Z) xs :
  fold_right Z.add 0%Z (map (fun x => f x + g x)%Z xs)
  = (fold_right Z.add 0%Z (map f xs) + fold_right Z.add 0%Z (map g xs))%Z.
Proof. induction xs as [|x xs IH]; simpl; lia. Qed.

Lemma Zsum_map_zero {A} (xs : list A) :
  fold_right Z.add 0%Z (map (fun _ => 0%Z) xs) = 0%Z.
Proof. induction xs as [|x xs IH]; simpl; lia. Qed.

Lemma Zsum_map_ext_in {A} (f g : A -> Z) xs :
  (forall x, In x xs -> f x = g x) ->
  fold_right Z.add 0%Z (map f xs) = fold_right Z.add 0%Z (map g xs).
Proof. intros H. f_equal. now apply map_ext_in. Qed.

Lemma filter_map_length {A B} (f : A -> B) (p : B -> bool) xs :
  length (filter p (map f xs)) = length (filter (fun x => p (f x)) xs).
Proof.
  induction xs as [|x xs IH]; simpl; [reflexivity|].
  destruct (p (f x)); simpl; congruence.
Qed.

Lemma filter_filter_map {A B} (f : A -> B) (p q : B -> bool) xs :
  length (filter q (filter p (map f xs)))
  = length (filter (fun x => q (f x)) (filter (fun x => p (f x)) xs)).
Proof.
  induction xs as [|x xs IH]; simpl; [reflexivity|].
  destruct (p (f x)); simpl; [|exact IH].
  destruct (q (f x)); simpl; congruence.
Qed.

Section MaxWindow.
Import Dynamictable.

Lemma insert_row_Permutation (leb : nat -> nat -> bool) r rows :
  Permutation (insert_row leb r rows) (r :: rows).
Proof.
  induction rows as [|s rows IH]; simpl; [reflexivity|].
  destruct (leb r s); [reflexivity|]. rewrite IH. apply perm_swap.
Qed.

(** Sorting moves rows and neither adds nor drops any. *)
Lemma sort_rows_Permutation (leb : nat -> nat -> bool) rows :
  Permutation (sort_rows leb rows) rows.
Proof.
  unfold sort_rows. induction rows as [|r rows IH]; simpl; [constructor|].
  rewrite insert_row_Permutation. now constructor.
Qed.

Lemma insert_cell_Permutation c cs : Permutation (insert_cell c cs) (c :: cs).
Proof.
  induction cs as [|d cs IH]; simpl; [reflexivity|].
  destruct (cell_leb c d); [reflexivity|]. rewrite IH. apply perm_swap.
Qed.

Lemma unique_cells_Permutation cs : Permutation (unique_cells cs) (distinct cs).
Proof.
  unfold unique_cells. induction (distinct cs) as [|c l IH]; simpl; [constructor|].
  rewrite insert_cell_Permutation. now constructor.
Qed.

Lemma at_row_seq gv : map (at_row gv) (seq 0 (length gv)) = gv.
Proof.
  unfold at_row. induction gv as [|c gv IH]; simpl; [reflexivity|].
  f_equal. rewrite <- seq_shift, map_map. exact IH.
Qed.

(** Among the values of [U], taken once each, exactly one equals [v]. *)
Lemma one_group U v :
  NoDup U -> In v U -> isnan v = false ->
  fold_right Z.add 0%Z (map (fun x => if cell_eqb x v then 1 else 0)%Z U) = 1%Z.
Proof.
  intros Hnodup Hin Hnan.
  induction Hnodup as [|u U Hu Hnodup IH]; [destruct Hin|]. simpl.
  destruct (cell_eqb u v) eqn:E.
  - apply cell_eqb_eq in E. destruct E as [-> _].
    rewrite (Zsum_map_ext_in _ (fun _ => 0%Z)).
    + now rewrite Zsum_map_zero.
    + intros x Hx. destruct (cell_eqb x v) eqn:E'; [|reflexivity].
      apply cell_eqb_eq in E'. destruct E' as [-> _]. contradiction.
  - destruct Hin as [->|Hin]; [rewrite cell_eqb_refl in E by exact Hnan; discriminate|].
    rewrite IH by exact Hin. reflexivity.
Qed.

(** The rows split by group value: their number is the sum of the sizes of
    the groups. *)
Lemma length_by_group (val : nat -> cell) U rows :
  NoDup U ->
  (forall r, In r rows -> In (val r) U /\ isnan (val r) = false) ->
  Z.of_nat (length rows)
  = fold_right Z.add 0%Z
      (map (fun x => Z.of_nat (length (filter (fun r => cell_eqb x (val r)) rows))) U).
Proof.
  intros Hnodup. induction rows as [|r rows IH]; intros Hrows.
  - simpl. now rewrite Zsum_map_zero.
  - rewrite (Zsum_map_ext_in _
      (fun x => (if cell_eqb x (val r) then 1 else 0)
                + Z.of_nat (length (filter (fun r => cell_eqb x (val r)) rows)))%Z).
    + rewrite Zsum_map_add, <- IH by (intros r' Hr'; apply Hrows; now right).
      destruct (Hrows r (or_introl eq_refl)) as [Hin Hnan].
      rewrite (one_group U (val r) Hnodup Hin Hnan). simpl length. lia.
    + intros x _. simpl. destruct (cell_eqb x (val r)); simpl length; lia.
Qed.

(** The rows of one group among the eligible rows are as many as the
    values of the column, NaN set aside, that equal the group value. *)
Lemma eligible_group_size gv x :
  length (filter (same_group gv x) (eligible (Some gv) (length gv)))
  = length (filter (fun c => cell_eqb c x) (filter (fun c => negb (isnan c)) gv)).
Proof.
  pose proof (filter_filter_map (at_row gv) (fun c => negb (isnan c))
                (fun c => cell_eqb c x) (seq 0 (length gv))) as H.
  rewrite at_row_seq in H. rewrite H.
  unfold eligible, same_group. f_equal. apply filter_ext.
  intros r. apply cell_eqb_sym.
Qed.

(** [set_max_window] and the engine agree: for a limit [k >= 0] the new
    maximum of the units window is the number of rows that [group_and_sort]
    keeps under that limit before any window is applied. *)
Lemma set_max_window_counts_kept_rows units group_by gv ov k :
  get_group_vals units (Some group_by) = Ok (Some gv) ->
  is_float64 gv = true \/ Forall (fun c => isnan c = false) gv ->
  set_max_window units (Some group_by) (Z.of_nat k)
  = Ok (Z.of_nat (length (limited_rows (Some gv) ov (Some (Z.of_nat k))))).
Proof.
  intros Hvals Hdtype. unfold set_max_window. rewrite Hvals. simpl rbind.
  set (vals := filter (fun c => negb (isnan c)) gv).
  replace (if is_float64 gv then vals else gv) with vals.
  2:{ destruct Hdtype as [-> | Hnan]; [reflexivity|].
      destruct (is_float64 gv); [reflexivity|].
      unfold vals. apply forallb_filter_id, forallb_forall.
      rewrite Forall_forall in Hnan. intros c Hc. now rewrite (Hnan c Hc). }
  assert (Hnan : Forall (fun c => isnan c = false) vals).
  { apply Forall_forall. intros c Hc. apply filter_In in Hc.
    now apply negb_true_iff. }
  destruct (distinct_spec vals Hnan) as [Hnodup Hin].
  f_equal.
  rewrite (Zsum_Permutation _ _
             (Permutation_map _ (unique_cells_Permutation vals))).
  rewrite (length_by_group (at_row gv) (distinct vals)); [|exact Hnodup|].
  - apply Zsum_map_ext_in. intros x _.
    change (fun r => cell_eqb x (at_row gv r)) with (same_group gv x).
    rewrite limited_rows_group, length_firstn. unfold sorted_rows.
    rewrite (filter_length_Permutation _ _ _ (sort_rows_Permutation _ _)).
    simpl row_count. rewrite eligible_group_size. fold vals.
    unfold count_equal. lia.
  - intros r Hr. unfold limited_rows in Hr. apply apply_limit_incl in Hr.
    unfold sorted_rows in Hr. apply sort_rows_In, eligible_grouped_In in Hr.
    simpl in Hr. destruct Hr as [Hlt Hr]. split; [|exact Hr].
    apply Hin. unfold vals. apply filter_In. split.
    + unfold at_row. now apply nth_In.
    + now rewrite Hr.
Qed.

End MaxWindow.

(** The raster widget on a table of six units in two layers, with the
    limit 2: two rows of each layer are left. *)
Example set_max_window_example :
  set_max_window
    {| table := {| id := [0; 1; 2; 3; 4; 5]%Z;
                   columns := [("layer", [Int 2; Int 5; Int 2; NaN; Int 2; Int 5])] |};
       ancestor := None |}
    (Some "layer") 2
  = Ok 4%Z.
Proof. vm_compute. reflexivity. Qed.

(** ** The order of the sorted rows *)

Lemma Num_leb_total x y : Num.leb x y = true \/ Num.leb y x = true.
Proof.
  destruct (Num.leb x y) eqn:E; [now left|].
  right. apply Num_leb_le. now apply Num_leb_false.
Qed.

Lemma cell_leb_total a b : cell_leb a b = true \/ cell_leb b a = true.
Proof.
  destruct a, b; simpl; try (now left); try (now right).
  - apply Num_leb_total.
  - apply String.leb_total.
Qed.

Section SortedRows.
Import Dynamictable.

Variable leb : nat -> nat -> bool.
Hypothesis leb_total : forall r s, leb r s = true \/ leb s r = true.

Lemma insert_row_HdRel s r rows :
  in_order leb s r -> HdRel (in_order leb) s rows ->
  HdRel (in_order leb) s (insert_row leb r rows).
Proof.
  intros Hsr Hrows. destruct rows as [|s' rows]; simpl.
  - now constructor.
  - destruct (leb r s'); constructor; [exact Hsr|].
    now inversion Hrows.
Qed.

Lemma insert_row_Sorted r rows :
  Forall (fun s => r < s) rows ->
  Sorted (in_order leb) rows -> Sorted (in_order leb) (insert_row leb r rows).
Proof.
  induction rows as [|s rows IH]; simpl; intros Hlt Hsorted.
  - repeat constructor.
  - inversion Hlt as [|? ? Hrs Hlt']; subst.
    inversion Hsorted as [|? ? Hsorted' Hhd]; subst.
    destruct (leb r s) eqn:E.
    + constructor; [exact Hsorted|]. constructor. split; auto.
    + constructor; [now apply IH|].
      apply insert_row_HdRel; [|exact Hhd].
      split; [|congruence]. destruct (leb_total r s); congruence.
Qed.

(** Rows that come in ascending index order leave the sort with their keys
    in order and, among equal keys, still in ascending index order. *)
Lemma sort_rows_Sorted rows :
  StronglySorted lt rows -> Sorted (in_order leb) (sort_rows leb rows).
Proof.
  unfold sort_rows. induction 1 as [|r rows Hsorted IH Hlt]; simpl.
  - constructor.
  - apply insert_row_Sorted; [|exact IH].
    apply Forall_forall. intros s Hs. rewrite Forall_forall in Hlt.
    apply Hlt. exact (proj1 (sort_rows_In leb rows s) Hs).
Qed.

End SortedRows.

Section SortedRowsOfTheEngine.
Import Dynamictable.

Lemma row_leb_total group_vals order_vals r s :
  row_leb group_vals order_vals r s = true \/ row_leb group_vals order_vals s r = true.
Proof.
  unfold row_leb. destruct group_vals as [gv|], order_vals as [ov|];
    try apply cell_leb_total; [|now left].
  rewrite (cell_eqb_sym (at_row gv s)).
  destruct (cell_eqb (at_row gv r) (at_row gv s)); apply cell_leb_total.
Qed.

Lemma filter_StronglySorted (p : nat -> bool) rows :
  StronglySorted lt rows -> StronglySorted lt (filter p rows).
Proof.
  induction 1 as [|r rows Hsorted IH Hlt]; simpl; [constructor|].
  destruct (p r); [|exact IH]. constructor; [exact IH|].
  apply Forall_forall. intros s Hs. apply filter_In in Hs.
  rewrite Forall_forall in Hlt. now apply Hlt.
Qed.

Lemma seq_StronglySorted start len : StronglySorted lt (seq start len).
Proof.
  revert start. induction len as [|len IH]; intros start; simpl; constructor.
  - apply IH.
  - apply Forall_forall. intros s Hs. apply in_seq in Hs. lia.
Qed.

(** Step 3 on the model: the sorted rows are the eligible rows, each once,
    ordered by the key and, within equal keys, by index. *)
Lemma sorted_rows_stable group_vals order_vals :
  Sorted (in_order (row_leb group_vals order_vals)) (sorted_rows group_vals order_vals)
  /\ Permutation (sorted_rows group_vals order_vals)
       (eligible group_vals (row_count group_vals order_vals)).
Proof.
  unfold sorted_rows. split; [|apply sort_rows_Permutation].
  apply sort_rows_Sorted; [apply row_leb_total|].
  unfold eligible. destruct group_vals as [gv|];
    [apply filter_StronglySorted|]; apply seq_StronglySorted.
Qed.

(** Step 1 on the model: without group and order values the order is the
    identity sequence over the window. *)
Lemma group_and_sort_without_values start stop limit :
  start <= stop -> limit_in_range limit = true ->
  group_and_sort None None (Some (start, stop)) limit
  = Ok (arange start stop, None, None).
Proof.
  intros Hwindow Hlimit. unfold group_and_sort. simpl.
  apply Nat.leb_le in Hwindow. now rewrite Hwindow, Hlimit.
Qed.

End SortedRowsOfTheEngine.

(** ** [trials_psth] with its default arguments *)

(** With neither group nor order and the default selection [()], the order
    is [np.arange(0)]: no row is aligned, and [ax.eventplot] of no row raises
    once the figure has been made. *)
Example trials_psth_defaults_example :
  trials_psth example_units 0 "start_time" (decimal 0 1) (decimal 1 1)
    None None EmptyTuple (decimal 5 100) 1000
  = (Raise TypeError, [Subplots 2 1]).
Proof. vm_compute. reflexivity. Qed.

(** * Further properties of [misc.py] and [allen.py] *)

(** ** Loops that draw *)

Lemma match_nonempty {A B} (l : list A) (x y : B) :
  l <> [] -> match l with [] => x | _ :: _ => y end = y.
Proof. destruct l; [contradiction | reflexivity]. Qed.

Lemma for_each_ok {A} (xs : list A) (body : A -> plt unit) :
  outcome (for_each xs body) = Ok tt ->
  Forall (fun x => outcome (body x) = Ok tt) xs
  /\ drawn (for_each xs body) = flat_map (fun x => drawn (body x)) xs.
Proof.
  induction xs as [|x xs IH]; simpl; intros H.
  - split; [constructor | reflexivity].
  - apply pbind_ok in H. destruct H as [[] [Hx [Hrest ->]]].
    destruct (IH Hrest) as [Hall ->]. split; [now constructor | reflexivity].
Qed.

(** A loop stops at the first body that raises; what the bodies before it
    drew stays drawn. *)
Lemma for_each_raise {A} (xs ys : list A) x (body : A -> plt unit) e :
  Forall (fun x => outcome (body x) = Ok tt) xs ->
  outcome (body x) = Raise e ->
  outcome (for_each (xs ++ x :: ys) body) = Raise e
  /\ drawn (for_each (xs ++ x :: ys) body)
     = flat_map (fun x => drawn (body x)) xs ++ drawn (body x).
Proof.
  induction 1 as [|x0 xs Hx0 _ IH]; simpl; intros Hx.
  - unfold pbind. destruct (body x) as [r d]. simpl in Hx. subst r. auto.
  - destruct (IH Hx) as [Ho Hd]. unfold pbind.
    destruct (body x0) as [r0 d0]. simpl in Hx0. subst r0.
    destruct (for_each (xs ++ x :: ys) body) as [r d]. simpl in *. subst.
    split; [reflexivity | now rewrite app_assoc].
Qed.

Lemma drawn_events_app made made' :
  drawn_events (made ++ made') = drawn_events made ++ drawn_events made'.
Proof. apply flat_map_app. Qed.

(** ** Masks and groups *)

Lemma compress_map {A B} (f : A -> B) mask xs :
  map f (compress mask xs) = compress mask (map f xs).
Proof.
  revert xs. induction mask as [|b mask IH]; intros [|x xs]; simpl; auto.
  destruct b; simpl; now rewrite IH.
Qed.

Lemma compress_combine {A B} mask (xs : list A) (ys : list B) :
  compress mask (combine xs ys) = combine (compress mask xs) (compress mask ys).
Proof.
  revert xs ys. induction mask as [|b mask IH]; intros [|x xs] [|y ys]; simpl; auto.
  - destruct b; [reflexivity | now destruct (compress mask xs)].
  - destruct b; simpl; now rewrite IH.
Qed.

Lemma map_add_seq offset n : map (fun i => i + offset) (seq 0 n) = seq offset n.
Proof.
  revert offset. induction n as [|n IH]; intros offset; simpl; [reflexivity|].
  f_equal. rewrite <- seq_shift, map_map, <- (IH (S offset)).
  apply map_ext. intros i. lia.
Qed.

Lemma list_max_ge xs x : In x xs -> x <= list_max xs.
Proof.
  induction xs as [|y xs IH]; simpl; intros H; [destruct H|].
  destruct H as [->|H]; [lia|]. specialize (IH H). lia.
Qed.

(** [np.unique] on group indices: every index of the array, once. *)
Lemma unique_spec xs : NoDup (unique xs) /\ forall x, In x (unique xs) <-> In x xs.
Proof.
  unfold unique. split.
  - apply NoDup_filter, seq_NoDup.
  - intros x. rewrite filter_In, in_seq, existsb_exists. split.
    + intros [_ [y [Hy E]]]. apply Nat.eqb_eq in E. now subst.
    + intros H. split.
      * pose proof (list_max_ge xs x H). lia.
      * exists x. split; [exact H | apply Nat.eqb_refl].
Qed.

Lemma flat_map_nil {A B} (xs : list A) : flat_map (fun _ => @nil B) xs = [].
Proof. induction xs; simpl; auto. Qed.

Lemma flat_map_ext_in {A B} (f g : A -> list B) xs :
  (forall x, In x xs -> f x = g x) -> flat_map f xs = flat_map g xs.
Proof.
  induction xs as [|x xs IH]; simpl; intros H; [reflexivity|].
  rewrite (H x) by now left. f_equal. apply IH. intros y Hy. apply H. now right.
Qed.

Lemma flat_map_pull {A} (g : nat) (x : A) (f : nat -> list A) U :
  NoDup U -> In g U ->
  Permutation (flat_map (fun u => (if g =? u then [x] else []) ++ f u) U)
    (x :: flat_map f U).
Proof.
  induction 1 as [|u U Hu Hnodup IH]; intros Hin; [destruct Hin|]. simpl.
  destruct (Nat.eqb_spec g u) as [->|Hne].
  - simpl. apply perm_skip, Permutation_app_head.
    erewrite flat_map_ext_in; [reflexivity|].
    intros v Hv. destruct (Nat.eqb_spec u v) as [->|_]; [contradiction | reflexivity].
  - destruct Hin as [->|Hin]; [congruence|]. simpl.
    rewrite (IH Hin). symmetry. apply Permutation_middle.
Qed.

(** The rows of the groups, taken group after group, are the rows. *)
Lemma partition_by_group {A} (group_inds : list nat) (rows : list A) U :
  length group_inds = length rows -> NoDup U ->
  (forall g, In g group_inds -> In g U) ->
  Permutation
    (flat_map (fun u => compress (map (fun g => g =? u) group_inds) rows) U) rows.
Proof.
  intros Hlen Hnodup. revert rows Hlen.
  induction group_inds as [|g group_inds IH]; intros [|x rows] Hlen Hin;
    try discriminate.
  - simpl. now rewrite flat_map_nil.
  - simpl. erewrite flat_map_ext.
    + rewrite (flat_map_pull g x
                 (fun u => compress (map (fun g0 => g0 =? u) group_inds) rows));
        [|exact Hnodup | apply Hin; now left].
      apply perm_skip, IH; [now injection Hlen | intros g0 H0; apply Hin; now right].
    + intros u. simpl. now destruct (g =? u).
Qed.

Lemma drawn_events_flat_map {A} (f : A -> list draw) xs :
  drawn_events (flat_map f xs) = flat_map (fun x => drawn_events (f x)) xs.
Proof.
  induction xs as [|x xs IH]; simpl; [reflexivity|].
  now rewrite drawn_events_app, IH.
Qed.

Lemma select_ok {A} mask (xs ys : list A) :
  select mask xs = Ok ys -> length mask = length xs /\ ys = compress mask xs.
Proof.
  unfold select. destruct (Nat.eqb_spec (length mask) (length xs)); [|discriminate].
  intros [= <-]. auto.
Qed.

(** ** [plot_grouped_events]: every row once *)

Section GroupedEvents.
Context {imports : Imports}.

Lemma plot_unobserved_intervals_events intervals ax offset :
  outcome (plot_unobserved_intervals intervals ax offset) = Ok tt
  /\ drawn_events (drawn (plot_unobserved_intervals intervals ax offset)) = [].
Proof.
  unfold plot_unobserved_intervals.
  induction (enumerate intervals) as [|[irow gaps] l [IHo IHd]]; simpl.
  - split; reflexivity.
  - destruct (for_each l _) as [r made]. simpl in *. auto.
Qed.

(** The events of one group: the rows of the group, each on the line of its
    position. *)
Lemma group_events data group_inds offset ax ui :
  let mask := map (fun g => g =? ui) group_inds in
  let body :=
    (c <- lift (wheel_color ui) ;;
     rows <- lift (select mask data) ;;
     emit (Eventplot ax rows (map (fun i => i + offset) (where_true mask)) c))%plt in
  outcome body = Ok tt ->
  length group_inds = length data
  /\ drawn_events (drawn body)
     = compress mask (combine (seq offset (length data)) data).
Proof.
  intros mask body. unfold body. rewrite pbind_lift.
  destruct (wheel_color ui) as [c|e]; [|discriminate].
  rewrite pbind_lift. destruct (select mask data) as [rows|e] eqn:E; [|discriminate].
  intros _. apply select_ok in E. destruct E as [Hlen ->].
  unfold mask in Hlen. rewrite length_map in Hlen. split; [exact Hlen|].
  simpl. rewrite app_nil_r. unfold where_true.
  rewrite compress_map, map_add_seq, compress_combine.
  unfold mask. now rewrite length_map, Hlen.
Qed.

(** X1: when [plot_grouped_events] ends well, every row of [data] has been
    drawn, once, on the line [offset] plus its position, with or without
    groups; only an empty array of group indices draws no row at all. *)
Theorem plot_grouped_events_rows_once
  data window group_inds ax labels show_legend offset unobserved ax' :
  outcome (plot_grouped_events data window group_inds ax labels show_legend offset
             unobserved) = Ok ax' ->
  let made := drawn (plot_grouped_events data window group_inds ax labels show_legend
                       offset unobserved) in
  (group_inds <> Some [] ->
   Permutation (drawn_events made) (combine (seq offset (length data)) data))
  /\ (group_inds = Some [] -> drawn_events made = []).
Proof.
  intros H made. unfold made. clear made. unfold plot_grouped_events in *.
  apply pbind_ok in H. destruct H as [ax0 [Hax [H Hd]]]. rewrite Hd. clear Hd. cbv beta in *.
  assert (Hfig : drawn_events
                   (drawn match ax with
                          | Some ax1 => pret ax1
                          | None => (emit (Subplots 1 1) ;; pret (Ax 0 0))%plt
                          end) = [])
    by (destruct ax; reflexivity).
  rewrite drawn_events_app, Hfig, app_nil_l. clear Hfig Hax.
  apply pbind_ok in H. destruct H as [[] [Hgroups [H Hd]]]. rewrite Hd. clear Hd.
  cbv beta in *.
  rewrite drawn_events_app.
  assert (Hrest : drawn_events
            (drawn
               (match unobserved with
                | Some intervals => plot_unobserved_intervals intervals ax0 offset
                | None => pret tt
                end ;;
                emit (SetXlim ax0 (fst window) (snd window)) ;;
                emit (SetXlabel ax0 (Text "time (s)")) ;;
                emit (SetYlim ax0 (Num.of_nat offset - half)%Qc
                        (Num.of_nat (length data) - half + Num.of_nat offset)%Qc) ;;
                (if length data <=? 30
                 then emit (SetYticks ax0 (seq offset (length data)))
                 else pret tt) ;;
                pret ax0)%plt) = []).
  { apply pbind_ok in H. destruct H as [[] [_ [_ Hd]]]. rewrite Hd. clear Hd.
    cbv beta.
    rewrite drawn_events_app. rewrite !pbind_emit, !drawn_pair.
    replace (drawn_events (drawn match unobserved with
                                 | Some intervals =>
                                     plot_unobserved_intervals intervals ax0 offset
                                 | None => pret tt
                                 end)) with (@nil (nat * list Qc)).
    - destruct (length data <=? 30); reflexivity.
    - destruct unobserved; [|reflexivity].
      symmetry. apply plot_unobserved_intervals_events. }
  rewrite Hrest, app_nil_r. clear Hrest H.
  destruct group_inds as [group_inds|].
  - apply pbind_ok in Hgroups. destruct Hgroups as [[] [Hloop [Hlegend Hd]]].
    rewrite Hd. clear Hd. cbv beta in *.
    rewrite drawn_events_app.
    assert (Hleg : drawn_events
              (drawn (if show_legend
                      then (shown <- lift match labels with
                                          | Some labels0 =>
                                              take labels0 (unique group_inds)
                                          | None => Raise TypeError
                                          end ;;
                            emit (Legend ax0 (rev shown)))%plt
                      else pret tt)) = []).
    { destruct show_legend; [|reflexivity]. rewrite pbind_lift.
      destruct (match labels with
                | Some labels0 => take labels0 (unique group_inds)
                | None => Raise TypeError
                end); reflexivity. }
    rewrite Hleg, app_nil_r. clear Hleg Hlegend.
    apply for_each_ok in Hloop. destruct Hloop as [Hall ->].
    rewrite drawn_events_flat_map. rewrite Forall_forall in Hall.
    destruct (unique_spec group_inds) as [Hnodup Hin].
    split.
    + intros Hne. destruct group_inds as [|g group_inds']; [congruence|].
      assert (Hlen : length (g :: group_inds') = length data).
      { apply (group_events data (g :: group_inds') offset ax0 g).
        apply Hall, Hin. now left. }
      erewrite flat_map_ext_in.
      * apply partition_by_group; [|exact Hnodup | intros g0; apply Hin].
        rewrite length_combine, length_seq, Nat.min_id. exact Hlen.
      * intros ui Hui.
        apply (group_events data (g :: group_inds') offset ax0 ui), Hall, Hui.
    + intros [= ->]. reflexivity.
  - split; [intros _ | discriminate].
    rewrite (match_nonempty data) by (intros ->; discriminate Hgroups).
    simpl. rewrite app_nil_r. unfold arange. rewrite Nat.sub_0_r, map_add_seq.
    reflexivity.
Qed.

End GroupedEvents.

Lemma plot_grouped_events_rows_once_witness :
  let run := plot_grouped_events example_aligned (decimal (-5) 10, decimal 5 10)
               (Some example_group_inds) None (Some [Str "a"; Str "b"]) true 3 None in
  outcome run = Ok (Ax 0 0)
  /\ (Some example_group_inds <> Some [] ->
      Permutation (drawn_events (drawn run))
        (combine (seq 3 (length example_aligned)) example_aligned))
  /\ (Some example_group_inds = Some [] -> drawn_events (drawn run) = []).
Proof.
  intros run. split; [vm_compute; reflexivity|].
  apply (plot_grouped_events_rows_once example_aligned (decimal (-5) 10, decimal 5 10)
           (Some example_group_inds) None (Some [Str "a"; Str "b"]) true 3 None (Ax 0 0)).
  vm_compute. reflexivity.
Defined.

(** ** [plot_grouped_events]: what makes it raise *)

Lemma pbind_raised {A B} (m : plt A) (k : A -> plt B) e :
  outcome m = Raise e -> pbind m k = (Raise e, drawn m).
Proof. destruct m as [[a|e'] made]; simpl; [discriminate|]. now intros [= ->]. Qed.

Lemma pbind_pair_ok {A B} (a : A) made (k : A -> plt B) :
  pbind (Ok a, made) k = (outcome (k a), made ++ drawn (k a)).
Proof. unfold pbind. now destruct (k a). Qed.

Lemma unique_cons g group_inds : exists u U, unique (g :: group_inds) = u :: U.
Proof.
  destruct (unique (g :: group_inds)) as [|u U] eqn:E; [|eauto].
  assert (H : In g (unique (g :: group_inds))) by (apply unique_spec; now left).
  rewrite E in H. destruct H.
Qed.

Section GroupedEventsErrors.
Context {imports : Imports}.

(** The figure that [plot_grouped_events] makes when it is given no axes. *)
Lemma own_figure (ax : option axes) :
  (match ax with
   | Some ax => pret ax
   | None => (emit (Subplots 1 1) ;; pret (Ax 0 0))%plt
   end)
  = (Ok (match ax with Some ax => ax | None => Ax 0 0 end),
     match ax with Some _ => [] | None => [Subplots 1 1] end).
Proof. destruct ax; reflexivity. Qed.

(** X2: group indices that are not as many as the rows make
    [plot_grouped_events] raise [IndexError] on the first group, before any
    row is drawn; only the figure it may have made for itself exists. *)
Theorem plot_grouped_events_length_mismatch
  data window g group_inds ax labels show_legend offset unobserved :
  color_wheel_len <> 0 ->
  length (g :: group_inds) <> length data ->
  plot_grouped_events data window (Some (g :: group_inds)) ax labels show_legend offset
    unobserved
  = (Raise IndexError, match ax with Some _ => [] | None => [Subplots 1 1] end).
Proof.
  intros Hwheel Hlen. unfold plot_grouped_events.
  rewrite own_figure, pbind_pair_ok.
  destruct (unique_cons g group_inds) as [u [U ->]].
  set (body := fun ui => pbind (lift (wheel_color ui)) _).
  assert (Hbody : body u = (Raise IndexError, [])).
  { unfold body. rewrite pbind_lift. unfold wheel_color.
    destruct (Nat.eqb_spec color_wheel_len 0); [contradiction|].
    rewrite pbind_lift. unfold select. rewrite length_map.
    destruct (Nat.eqb_spec (length (g :: group_inds)) (length data));
      [contradiction | reflexivity]. }
  destruct (for_each_raise [] U u body IndexError) as [Ho Hd];
    [constructor | now rewrite Hbody|].
  change ([] ++ u :: U) with (u :: U) in Ho, Hd.
  rewrite Hbody in Hd.
  rewrite (pbind_raised (for_each (u :: U) body) _ IndexError Ho), Hd.
  rewrite (pbind_raised _ _ IndexError) by reflexivity.
  rewrite outcome_pair, !drawn_pair. simpl. now rewrite app_nil_r.
Qed.

(** X3: with group indices and [show_legend] but no labels,
    [plot_grouped_events] raises [TypeError] at the legend: the rows are
    drawn already, the limits of the axes are not set. *)
Theorem plot_grouped_events_legend_without_labels
  data window group_inds ax offset unobserved :
  color_wheel_len <> 0 ->
  length group_inds = length data ->
  let run := plot_grouped_events data window (Some group_inds) ax None true offset
               unobserved in
  outcome run = Raise TypeError
  /\ Permutation (drawn_events (drawn run)) (combine (seq offset (length data)) data)
  /\ forall ax' lo hi, ~ In (SetXlim ax' lo hi) (drawn run).
Proof.
  intros Hwheel Hlen run. unfold run, plot_grouped_events.
  rewrite own_figure, pbind_pair_ok.
  set (ax0 := match ax with Some ax1 => ax1 | None => Ax 0 0 end).
  set (body := fun ui => pbind (lift (wheel_color ui)) _).
  assert (Hbody : forall ui,
            body ui
            = (Ok tt,
               [Eventplot ax0 (compress (map (fun g => g =? ui) group_inds) data)
                  (map (fun i => i + offset)
                     (where_true (map (fun g => g =? ui) group_inds)))
                  (Wheel (ui mod color_wheel_len))])).
  { intros ui. unfold body. rewrite pbind_lift. unfold wheel_color.
    destruct (Nat.eqb_spec color_wheel_len 0); [contradiction|].
    rewrite pbind_lift, select_same_length by (now rewrite length_map).
    reflexivity. }
  assert (Hloop : for_each (unique group_inds) body
                  = (Ok tt, flat_map (fun ui => snd (body ui)) (unique group_inds))).
  { induction (unique group_inds) as [|u U IH]; [reflexivity|].
    simpl. rewrite IH. rewrite (Hbody u). reflexivity. }
  rewrite Hloop. rewrite pbind_pair_ok, pbind_lift.
  rewrite (pbind_raised _ _ TypeError) by reflexivity.
  simpl outcome. simpl drawn. rewrite !app_nil_r.
  split; [reflexivity|]. split.
  - rewrite drawn_events_app.
    replace (drawn_events match ax with Some _ => [] | None => [Subplots 1 1] end)
      with (@nil (nat * list Qc)) by (destruct ax; reflexivity).
    rewrite app_nil_l, drawn_events_flat_map.
    erewrite flat_map_ext_in.
    + apply partition_by_group; [|apply unique_spec | intros g; apply unique_spec].
      now rewrite length_combine, length_seq, Nat.min_id.
    + intros ui _. rewrite Hbody. simpl. rewrite app_nil_r. unfold where_true.
      rewrite compress_map, map_add_seq, compress_combine.
      now rewrite length_map, Hlen.
  - intros ax' lo hi Hin. apply in_app_or in Hin. destruct Hin as [Hin|Hin].
    + destruct ax; [destruct Hin | destruct Hin as [Hin|[]]; discriminate].
    + apply in_flat_map in Hin. destruct Hin as [ui [_ Hin]].
      rewrite Hbody in Hin. destruct Hin as [Hin|[]]. discriminate.
Qed.

End GroupedEventsErrors.

Lemma plot_grouped_events_length_mismatch_witness :
  color_wheel_len <> 0
  /\ length [0; 1] <> length example_aligned
  /\ plot_grouped_events example_aligned (decimal (-5) 10, decimal 5 10)
       (Some [0; 1]) None None false 0 None
     = (Raise IndexError, [Subplots 1 1]).
Proof.
  split; [discriminate|]. split; [discriminate|].
  apply (plot_grouped_events_length_mismatch example_aligned
           (decimal (-5) 10, decimal 5 10) 0 [1] None None false 0 None); discriminate.
Defined.

Lemma plot_grouped_events_legend_without_labels_witness :
  let run := plot_grouped_events example_aligned (decimal (-5) 10, decimal 5 10)
               (Some example_group_inds) None None true 0 None in
  (color_wheel_len <> 0 /\ length example_group_inds = length example_aligned)
  /\ outcome run = Raise TypeError
  /\ Permutation (drawn_events (drawn run))
       (combine (seq 0 (length example_aligned)) example_aligned)
  /\ forall ax' lo hi, ~ In (SetXlim ax' lo hi) (drawn run).
Proof.
  intros run. split; [split; [discriminate | reflexivity]|].
  apply (plot_grouped_events_legend_without_labels example_aligned
           (decimal (-5) 10, decimal 5 10) example_group_inds None 0 None);
    [discriminate | reflexivity].
Defined.

(** ** [show_psth_smoothed]: what is drawn, and when *)

Lemma drawn_curves_app made made' :
  drawn_curves (made ++ made') = drawn_curves made ++ drawn_curves made'.
Proof. apply flat_map_app. Qed.

Lemma unique_repeat_0 n : unique (repeat 0 (S n)) = [0].
Proof.
  unfold unique.
  replace (list_max (repeat 0 (S n))) with 0; [reflexivity|].
  induction n as [|n IH]; [reflexivity|]. simpl in *. now rewrite <- IH.
Qed.

Lemma compress_all {A} n (xs : list A) :
  length xs = n -> compress (map (fun g => g =? 0) (repeat 0 n)) xs = xs.
Proof.
  revert xs. induction n as [|n IH]; intros [|x xs] H; try discriminate; simpl;
    [reflexivity|].
  f_equal. apply IH. now injection H.
Qed.

Section Smoothed.
Context {imports : Imports}.

(** The statistics exist as soon as there is a spike and every row has a
    group. *)
Lemma psth_group_stats_defined data group_inds sigma_in_secs ntt t all_data :
  concat data = t :: all_data ->
  let assigned :=
    match group_inds with Some gi => gi | None => repeat 0 (length data) end in
  length assigned = length data ->
  let grid := linspace (minimum t all_data) (maximum t all_data) ntt in
  let smoothed := map (fun x => compute_smoothed_firing_rate x grid sigma_in_secs) data in
  exists group_stats,
    psth_group_stats data group_inds sigma_in_secs ntt = Ok (Some (grid, group_stats))
    /\ mapM (group_stat smoothed assigned ntt) (seq 0 (length (unique assigned)))
       = Ok group_stats.
Proof.
  intros Hdata assigned Hlen grid smoothed.
  assert (Hsmoothed : length assigned = length smoothed)
    by (unfold smoothed; now rewrite length_map).
  destruct (mapM_total (group_stat smoothed assigned ntt)
              (seq 0 (length (unique assigned)))) as [group_stats Hstats].
  { apply Forall_forall. intros group _. eexists. now apply group_stat_total. }
  exists group_stats. split; [|exact Hstats].
  unfold psth_group_stats. destruct data as [|x data']; [discriminate|].
  rewrite Hdata. fold grid. fold smoothed.
  replace (match group_inds with
           | Some gi => gi
           | None => repeat 0 (length smoothed)
           end) with assigned.
  - unfold grid at 1. rewrite linspace_length, Hstats. reflexivity.
  - unfold assigned. destruct group_inds; [reflexivity|].
    unfold smoothed. now rewrite length_map.
Qed.

(** X4: [show_psth_smoothed] on an empty list of rows raises [ValueError];
    on rows that hold no spike at all it returns without drawing anything,
    the limits of the axes included. *)
Theorem show_psth_smoothed_without_spikes ax before after group_inds sigma_in_secs ntt :
  show_psth_smoothed [] ax before after group_inds sigma_in_secs ntt
  = (Raise (ValueError "need at least one array to concatenate"), [])
  /\ forall data, data <> [] -> concat data = [] ->
       show_psth_smoothed data ax before after group_inds sigma_in_secs ntt
       = (Ok tt, []).
Proof.
  split; [reflexivity|].
  intros data Hdata Hconcat. unfold show_psth_smoothed, psth_group_stats.
  destruct data as [|x data]; [congruence|]. now rewrite Hconcat.
Qed.

(** The curves that the loop over [zip(group_stats, color_wheel)] draws. *)
Lemma curves_of_loop ax grid group_stats colors :
  outcome (for_each (combine group_stats colors)
             (fun '(st, c) =>
                (emit (Plot ax grid (mean st) c) ;;
                 emit (FillBetween ax grid (lower st) (upper st) c))%plt)) = Ok tt
  /\ drawn_curves
       (drawn (for_each (combine group_stats colors)
                 (fun '(st, c) =>
                    (emit (Plot ax grid (mean st) c) ;;
                     emit (FillBetween ax grid (lower st) (upper st) c))%plt)))
     = combine colors (map mean group_stats).
Proof.
  revert colors. induction group_stats as [|st group_stats IH]; intros [|c colors];
    try (split; reflexivity).
  destruct (IH colors) as [IHo IHd]. simpl combine. simpl for_each.
  destruct (for_each (combine group_stats colors) _) as [r made].
  simpl in *. subst r. split; [reflexivity | now rewrite IHd].
Qed.

(** X5: with a spike to show and a group for every row,
    [show_psth_smoothed] ends well and draws one mean curve for each group
    in the colour of its number, but only as many as the colour cycle has
    colours: the groups beyond it are computed and not drawn. *)
Theorem show_psth_smoothed_curves
  data ax before after group_inds sigma_in_secs ntt t all_data :
  concat data = t :: all_data ->
  let assigned :=
    match group_inds with Some gi => gi | None => repeat 0 (length data) end in
  length assigned = length data ->
  let run := show_psth_smoothed data ax before after group_inds sigma_in_secs ntt in
  exists grid group_stats,
    psth_group_stats data group_inds sigma_in_secs ntt = Ok (Some (grid, group_stats))
    /\ length group_stats = length (unique assigned)
    /\ outcome run = Ok tt
    /\ drawn_curves (drawn run)
       = combine (map Wheel (seq 0 color_wheel_len)) (map mean group_stats)
    /\ length (drawn_curves (drawn run))
       = Nat.min color_wheel_len (length (unique assigned)).
Proof.
  intros Hdata assigned Hlen run.
  destruct (psth_group_stats_defined data group_inds sigma_in_secs ntt t all_data
              Hdata Hlen) as [group_stats [Hstats HmapM]].
  apply mapM_length in HmapM. rewrite length_seq in HmapM.
  eexists _, group_stats. split; [exact Hstats|]. split; [exact HmapM|].
  unfold run, show_psth_smoothed. rewrite Hstats, pbind_lift.
  destruct (curves_of_loop ax (linspace (minimum t all_data) (maximum t all_data) ntt)
              group_stats (map Wheel (seq 0 color_wheel_len))) as [Ho Hd].
  destruct (for_each _ _) as [r made]. simpl in Ho, Hd. subst r.
  rewrite pbind_pair_ok, !pbind_emit, !outcome_pair, !drawn_pair.
  split; [reflexivity|].
  rewrite drawn_curves_app, Hd. simpl. rewrite app_nil_r.
  split; [reflexivity|].
  now rewrite length_combine, !length_map, length_seq, HmapM.
Qed.

(** X6: without group indices all rows form the one group 0: the statistics
    are those of all the smoothed rows together. *)
Theorem psth_group_stats_without_groups data sigma_in_secs ntt t all_data :
  concat data = t :: all_data ->
  let grid := linspace (minimum t all_data) (maximum t all_data) ntt in
  let smoothed := map (fun x => compute_smoothed_firing_rate x grid sigma_in_secs) data in
  psth_group_stats data None sigma_in_secs ntt
  = Ok (Some (grid,
              [{| mean := mean_axis0 ntt smoothed;
                  lower := curve_axpy (mean_axis0 ntt smoothed) (- two)%Qc (sem smoothed);
                  upper := curve_axpy (mean_axis0 ntt smoothed) two (sem smoothed) |}])).
Proof.
  intros Hdata grid smoothed. unfold psth_group_stats.
  destruct data as [|x data']; [discriminate|]. rewrite Hdata.
  fold grid. fold smoothed.
  assert (Hn : length smoothed = S (length data'))
    by (unfold smoothed; now rewrite length_map).
  rewrite Hn, unique_repeat_0. cbn [length seq mapM].
  rewrite group_stat_total by (now rewrite repeat_length).
  rewrite compress_all by exact Hn.
  unfold grid at 1 2 3. rewrite linspace_length. reflexivity.
Qed.

(** X7: group indices that are not as many as the rows make
    [show_psth_smoothed] raise [IndexError] at the first group; no curve is
    drawn and the limits of the axes are not set. *)
Theorem show_psth_smoothed_length_mismatch
  data ax before after g group_inds sigma_in_secs ntt t all_data :
  concat data = t :: all_data ->
  length (g :: group_inds) <> length data ->
  show_psth_smoothed data ax before after (Some (g :: group_inds)) sigma_in_secs ntt
  = (Raise IndexError, []).
Proof.
  intros Hdata Hlen. unfold show_psth_smoothed, psth_group_stats.
  destruct data as [|x data']; [discriminate|]. rewrite Hdata.
  destruct (unique_cons g group_inds) as [u [U HU]].
  rewrite HU. cbn [length seq mapM].
  set (smoothed := map _ (x :: data')).
  assert (E : (length (g :: group_inds) =? length smoothed) = false)
    by (apply Nat.eqb_neq; unfold smoothed; now rewrite length_map).
  unfold group_stat at 1. unfold select. rewrite length_map, E. reflexivity.
Qed.

End Smoothed.

Lemma show_psth_smoothed_without_spikes_witness :
  [[]; @nil Qc] <> [] /\ concat [[]; @nil Qc] = []
  /\ show_psth_smoothed [[]; []] (Ax 1 0) (decimal 5 10) (decimal 5 10) None
       (decimal 1 10) 5
     = (Ok tt, []).
Proof.
  split; [discriminate|]. split; [reflexivity|].
  apply (proj2 (show_psth_smoothed_without_spikes (Ax 1 0) (decimal 5 10)
                  (decimal 5 10) None (decimal 1 10) 5));
    [discriminate | reflexivity].
Defined.

Lemma show_psth_smoothed_curves_witness :
  let t := decimal (-5) 10 in
  let all_data := [decimal 2 10; decimal 1 10; decimal 3 10; decimal (-1) 10] in
  let run := show_psth_smoothed example_aligned (Ax 1 0) (decimal 5 10) (decimal 5 10)
               (Some example_group_inds) (decimal 1 10) 5 in
  (concat example_aligned = t :: all_data
   /\ length example_group_inds = length example_aligned)
  /\ exists grid group_stats,
       psth_group_stats example_aligned (Some example_group_inds) (decimal 1 10) 5
       = Ok (Some (grid, group_stats))
       /\ length group_stats = length (unique example_group_inds)
       /\ outcome run = Ok tt
       /\ drawn_curves (drawn run)
          = combine (map Wheel (seq 0 color_wheel_len)) (map mean group_stats)
       /\ length (drawn_curves (drawn run))
          = Nat.min color_wheel_len (length (unique example_group_inds)).
Proof.
  intros t all_data run. split; [split; reflexivity|].
  apply (show_psth_smoothed_curves example_aligned (Ax 1 0) (decimal 5 10)
           (decimal 5 10) (Some example_group_inds) (decimal 1 10) 5 t all_data);
    reflexivity.
Defined.

Lemma psth_group_stats_without_groups_witness :
  let t := decimal (-5) 10 in
  let all_data := [decimal 2 10; decimal 1 10; decimal 3 10; decimal (-1) 10] in
  let sigma := decimal 1 10 in
  let grid := linspace (minimum t all_data) (maximum t all_data) 5 in
  let smoothed := map (fun x => compute_smoothed_firing_rate x grid sigma) example_aligned in
  concat example_aligned = t :: all_data
  /\ psth_group_stats example_aligned None sigma 5
     = Ok (Some (grid,
                 [{| mean := mean_axis0 5 smoothed;
                     lower := curve_axpy (mean_axis0 5 smoothed) (- two)%Qc (sem smoothed);
                     upper := curve_axpy (mean_axis0 5 smoothed) two (sem smoothed) |}])).
Proof.
  intros t all_data sigma grid smoothed. split; [reflexivity|].
  apply (psth_group_stats_without_groups example_aligned sigma 5 t all_data).
  reflexivity.
Defined.

Lemma show_psth_smoothed_length_mismatch_witness :
  let t := decimal (-5) 10 in
  let all_data := [decimal 2 10; decimal 1 10; decimal 3 10; decimal (-1) 10] in
  (concat example_aligned = t :: all_data /\ length [0; 1] <> length example_aligned)
  /\ show_psth_smoothed example_aligned (Ax 1 0) (decimal 5 10) (decimal 5 10)
       (Some [0; 1]) (decimal 1 10) 5
     = (Raise IndexError, []).
Proof.
  intros t all_data. split; [split; [reflexivity | discriminate]|].
  apply (show_psth_smoothed_length_mismatch example_aligned (Ax 1 0) (decimal 5 10)
           (decimal 5 10) 0 [1] (decimal 1 10) 5 t all_data);
    [reflexivity | discriminate].
Defined.

(** ** [show_session_raster] without groups *)

Lemma getitem_outcome {A} (xs : list A) i :
  (i < length xs /\ exists x, getitem xs i = Ok x)
  \/ (length xs <= i /\ getitem xs i = Raise IndexError).
Proof.
  unfold getitem. destruct (nth_error xs i) as [x|] eqn:E.
  - left. split; [|eauto]. apply nth_error_Some. congruence.
  - right. split; [|reflexivity]. now apply nth_error_None.
Qed.

(** Indexing with an array of indices raises [IndexError] as soon as one of
    them is past the end. *)
Lemma take_out_of_range {A} (xs : list A) idx i :
  In i idx -> length xs <= i -> take xs idx = Raise IndexError.
Proof.
  unfold take. induction idx as [|j idx IH]; intros Hin Hi; [destruct Hin|].
  simpl. destruct (getitem_outcome xs j) as [[Hj [x Hx]]|[_ Hx]]; rewrite Hx;
    [|reflexivity].
  simpl. destruct Hin as [Hji|Hin]; [lia|].
  now rewrite (IH Hin Hi).
Qed.

Section UngroupedRaster.
Context {imports : Imports}.

(** Without groups and without a row, [plot_grouped_events] raises at
    [ax.eventplot], with no more than its own figure made. *)
Lemma plot_grouped_events_no_rows window ax labels show_legend offset unobserved :
  plot_grouped_events [] window None ax labels show_legend offset unobserved
  = (Raise TypeError, match ax with Some _ => [] | None => [Subplots 1 1] end).
Proof. unfold plot_grouped_events. rewrite own_figure. now destruct ax. Qed.

(** Without groups and with a row at least, [plot_grouped_events] cannot
    fail, and draws row [i] on line [offset + i]. *)
Lemma plot_grouped_events_ungrouped data window ax labels show_legend offset unobserved :
  data <> [] ->
  let run := plot_grouped_events data window None ax labels show_legend offset
               unobserved in
  outcome run = Ok (match ax with Some ax => ax | None => Ax 0 0 end)
  /\ drawn_events (drawn run) = combine (seq offset (length data)) data.
Proof.
  intros Hrows run. unfold run, plot_grouped_events.
  rewrite own_figure, pbind_pair_ok.
  rewrite (match_nonempty data) by exact Hrows.
  rewrite pbind_emit, outcome_pair, drawn_pair.
  set (ax0 := match ax with Some ax1 => ax1 | None => Ax 0 0 end).
  assert (Hun : exists made,
            match unobserved with
            | Some intervals => plot_unobserved_intervals intervals ax0 offset
            | None => pret tt
            end = (Ok tt, made) /\ drawn_events made = []).
  { destruct unobserved as [intervals|]; [|now exists []].
    destruct (plot_unobserved_intervals_events intervals ax0 offset) as [Ho Hd].
    destruct (plot_unobserved_intervals intervals ax0 offset) as [r made].
    simpl in Ho. subst r. now exists made. }
  destruct Hun as [made [-> Hmade]].
  rewrite pbind_pair_ok, !pbind_emit, !outcome_pair, !drawn_pair.
  assert (Hticks : exists ticks,
            (if length data <=? 30
             then emit (SetYticks ax0 (seq offset (length data)))
             else pret tt) = (Ok tt, ticks) /\ drawn_events ticks = []).
  { destruct (length data <=? 30); eexists; split; reflexivity. }
  destruct Hticks as [ticks [-> Hticks]].
  rewrite pbind_pair_ok. unfold pret. rewrite outcome_pair, drawn_pair.
  split; [reflexivity|].
  rewrite drawn_events_app.
  replace (drawn_events match ax with Some _ => [] | None => [Subplots 1 1] end)
    with (@nil (nat * list Qc)) by (destruct ax; reflexivity).
  simpl. rewrite !drawn_events_app, Hmade. simpl.
  rewrite drawn_events_app, Hticks. simpl. rewrite !app_nil_r.
  unfold arange. now rewrite Nat.sub_0_r, map_add_seq.
Qed.

(** X8: without group and order, a units window that ends past the
    selected units makes [show_session_raster] raise [IndexError] before
    anything is drawn; so does the default window, [0, len(units)], with a
    selection of fewer units. *)
Theorem show_session_raster_window_past_selection
  units time_window units_select units_window show_obs_intervals show_legend limit
  electrodes tw :
  session_time_window units time_window = Ok tw ->
  let sel := match units_select with Some sel => sel | None => arange 0 (len units) end in
  let window := match units_window with Some w => w | None => (0, len units) end in
  fst window < snd window -> length sel < snd window ->
  show_session_raster units time_window units_select units_window show_obs_intervals
    None None show_legend limit electrodes
  = (Raise IndexError, []).
Proof.
  intros Htw sel window Hwindow Hsel. unfold show_session_raster.
  rewrite Htw, pbind_lift. fold sel. fold window.
  simpl bind_group_vals. simpl bind_order_vals. rewrite !pbind_lift.
  change (session_order (Bound None) (Bound None) window limit)
    with (@Ok (list nat * option (list nat) * option (list cell))
            (arange (fst window) (snd window), None, None)).
  cbv iota beta. rewrite pbind_lift.
  rewrite (take_out_of_range sel (arange (fst window) (snd window)) (snd window - 1)).
  - reflexivity.
  - unfold arange. apply in_seq. lia.
  - lia.
Qed.

(** X9: when [show_session_raster] without group and order ends well, the
    line [k] of the raster, for every [k] of the units window, shows the
    spikes of the unit [units_select[k]] within the time window. *)
Theorem show_session_raster_ungrouped_lines
  units time_window units_select units_window show_obs_intervals show_legend limit
  electrodes ax :
  let run := show_session_raster units time_window units_select units_window
               show_obs_intervals None None show_legend limit electrodes in
  outcome run = Ok ax ->
  let sel := match units_select with Some sel => sel | None => arange 0 (len units) end in
  let window := match units_window with Some w => w | None => (0, len units) end in
  exists tw shown data,
    session_time_window units time_window = Ok tw
    /\ take sel (arange (fst window) (snd window)) = Ok shown
    /\ mapM (fun unit => get_spike_times units unit tw) shown = Ok data
    /\ drawn_events (drawn run) = combine (arange (fst window) (snd window)) data.
Proof.
  intros run H sel window. unfold run, show_session_raster in *.
  fold sel in H |- *. fold window in H |- *.
  rewrite pbind_lift in H |- *.
  destruct (session_time_window units time_window) as [tw|e]; [|discriminate H].
  simpl bind_group_vals in *. simpl bind_order_vals in *.
  rewrite !pbind_lift in H |- *.
  change (session_order (Bound None) (Bound None) window limit)
    with (@Ok (list nat * option (list nat) * option (list cell))
            (arange (fst window) (snd window), None, None)) in H |- *.
  cbv iota beta in H |- *. rewrite pbind_lift in H |- *.
  destruct (take sel (arange (fst window) (snd window))) as [shown|e] eqn:Eshown;
    [|discriminate H].
  rewrite pbind_lift in H |- *.
  destruct (mapM (fun unit => get_spike_times units unit tw) shown) as [data|e] eqn:Edata;
    [|discriminate H].
  rewrite pbind_lift in H |- *.
  destruct (if show_obs_intervals
            then (gaps <- get_unobserved_intervals units tw
                            (arange (fst window) (snd window)) ;;
                  Ok (Some gaps))%result
            else Ok None) as [unobserved|e]; [|discriminate H].
  exists tw, shown, data. split; [reflexivity|]. split; [reflexivity|].
  split; [exact Edata|].
  assert (Hrows : data <> []).
  { intros E. rewrite E, plot_grouped_events_no_rows in H. discriminate H. }
  destruct (plot_grouped_events_ungrouped data tw None None show_legend (fst window)
              unobserved Hrows) as [Ho Hd].
  destruct (plot_grouped_events data tw None None None show_legend (fst window)
              unobserved) as [r made].
  simpl in Ho, Hd. subst r.
  rewrite pbind_pair_ok, pbind_emit, drawn_pair, drawn_events_app, Hd.
  simpl. rewrite app_nil_r. f_equal.
  apply mapM_length in Edata. apply mapM_length in Eshown.
  unfold arange in *. rewrite length_seq in Eshown. now rewrite Edata, Eshown.
Qed.

End UngroupedRaster.

Lemma show_session_raster_window_past_selection_witness :
  (session_time_window example_units None = Ok (decimal 5 10, decimal 99 10)
   /\ 0 < 3 /\ length (arange 0 (len example_units)) < 3)
  /\ show_session_raster example_units None None (Some (0, 3)) false None None true
       None None
     = (Raise IndexError, []).
Proof.
  split; [split; [reflexivity | split; [lia | simpl; lia]]|].
  apply (show_session_raster_window_past_selection example_units None None
           (Some (0, 3)) false true None None (decimal 5 10, decimal 99 10));
    [reflexivity | simpl; lia | simpl; lia].
Defined.

Lemma show_session_raster_ungrouped_lines_witness :
  let run := show_session_raster example_units None None None false None None true
               None None in
  outcome run = Ok (Ax 0 0)
  /\ exists tw shown data,
       session_time_window example_units None = Ok tw
       /\ take (arange 0 (len example_units)) (arange 0 (len example_units)) = Ok shown
       /\ mapM (fun unit => get_spike_times example_units unit tw) shown = Ok data
       /\ drawn_events (drawn run) = combine (arange 0 (len example_units)) data.
Proof.
  intros run. split; [reflexivity|].
  apply (show_session_raster_ungrouped_lines example_units None None None false true
           None None (Ax 0 0)).
  reflexivity.
Defined.

(** ** [set_max_window]: the new maximum of the units window *)

Lemma Zsum_map_le {A} (f g : A -> Z) xs :
  (forall x, In x xs -> (f x <= g x)%Z) ->
  (fold_right Z.add 0%Z (map f xs) <= fold_right Z.add 0%Z (map g xs))%Z.
Proof.
  induction xs as [|x xs IH]; simpl; intros H; [lia|].
  pose proof (H x (or_introl eq_refl)).
  assert (forall y, In y xs -> (f y <= g y)%Z) by (intros y Hy; apply H; now right).
  specialize (IH H1). lia.
Qed.

Lemma Zsum_map_const {A} (k : Z) (xs : list A) :
  fold_right Z.add 0%Z (map (fun _ => k) xs) = (k * Z.of_nat (length xs))%Z.
Proof. induction xs as [|x xs IH]; simpl length; simpl fold_right; lia. Qed.

(** The sizes of the groups add up to the number of values. *)
Lemma count_equal_sum vals :
  Forall (fun c => isnan c = false) vals ->
  fold_right Z.add 0%Z (map (count_equal vals) (unique_cells vals))
  = Z.of_nat (length vals).
Proof.
  intros Hnan. destruct (distinct_spec vals Hnan) as [Hnodup Hin].
  rewrite (Zsum_Permutation _ _ (Permutation_map _ (unique_cells_Permutation vals))).
  replace (Z.of_nat (length vals)) with (Z.of_nat (length (seq 0 (length vals))))
    by now rewrite length_seq.
  rewrite (length_by_group (fun r => nth r vals NaN) (distinct vals)); [|exact Hnodup|].
  - apply Zsum_map_ext_in. intros x _. unfold count_equal. f_equal.
    rewrite <- (filter_map_length (fun r => nth r vals NaN) (cell_eqb x)).
    pose proof (at_row_seq vals) as E. unfold Dynamictable.at_row in E. rewrite E.
    f_equal. apply filter_ext. intros c. apply cell_eqb_sym.
  - intros r Hr. apply in_seq in Hr.
    assert (Hr' : In (nth r vals NaN) vals) by (apply nth_In; lia).
    split; [now apply Hin|]. rewrite Forall_forall in Hnan. now apply Hnan.
Qed.

(** Under either reading of the dtype test, the values that are counted are
    the values that are not NaN. *)
Lemma set_max_window_counted units group_by gv limit :
  get_group_vals units (Some group_by) = Ok (Some gv) ->
  is_float64 gv = true \/ Forall (fun c => isnan c = false) gv ->
  set_max_window units (Some group_by) limit
  = let vals := filter (fun c => negb (isnan c)) gv in
    Ok (fold_right Z.add 0%Z
          (map (fun x => Z.min (count_equal vals x) limit) (unique_cells vals))).
Proof.
  intros Hvals Hdtype. unfold set_max_window. rewrite Hvals. simpl rbind.
  cbv zeta. set (vals := filter (fun c => negb (isnan c)) gv).
  replace (if is_float64 gv then vals else gv) with vals; [reflexivity|].
  destruct Hdtype as [-> | Hnan]; [reflexivity|].
  destruct (is_float64 gv); [reflexivity|].
  unfold vals. apply forallb_filter_id, forallb_forall.
  rewrite Forall_forall in Hnan. intros c Hc. now rewrite (Hnan c Hc).
Qed.

Lemma notnan_filtered gv :
  Forall (fun c => isnan c = false) (filter (fun c => negb (isnan c)) gv).
Proof.
  apply Forall_forall. intros c Hc. apply filter_In in Hc. now apply negb_true_iff.
Qed.

(** X10: for a limit [k >= 0] and a column of the units table,
    [set_max_window] sets a maximum between 0 and the number of values that
    are not NaN, hence never above the number of units; a limit of at least
    the number of units leaves every unit with a value. *)
Theorem set_max_window_bounds units group_by gv limit :
  get_group_vals units (Some group_by) = Ok (Some gv) ->
  is_float64 gv = true \/ Forall (fun c => isnan c = false) gv ->
  (0 <= limit)%Z ->
  exists nunits,
    set_max_window units (Some group_by) limit = Ok nunits
    /\ (0 <= nunits <= Z.of_nat (length (filter (fun c => negb (isnan c)) gv)))%Z
    /\ (nunits <= Z.of_nat (length gv))%Z
    /\ ((Z.of_nat (length gv) <= limit)%Z ->
        nunits = Z.of_nat (length (filter (fun c => negb (isnan c)) gv))).
Proof.
  intros Hvals Hdtype Hlimit.
  rewrite (set_max_window_counted units group_by gv limit Hvals Hdtype). cbv zeta.
  set (vals := filter (fun c => negb (isnan c)) gv).
  pose proof (count_equal_sum vals (notnan_filtered gv)) as Hsum.
  assert (Hlen : length vals <= length gv) by apply filter_length_le.
  assert (Hcount : forall x, (0 <= count_equal vals x <= Z.of_nat (length vals))%Z).
  { intros x. unfold count_equal.
    pose proof (filter_length_le (fun c => cell_eqb c x) vals). lia. }
  eexists. split; [reflexivity|].
  assert (Hupper :
            (fold_right Z.add 0%Z
               (map (fun x => Z.min (count_equal vals x) limit) (unique_cells vals))
             <= Z.of_nat (length vals))%Z).
  { rewrite <- Hsum. apply Zsum_map_le. intros x _. lia. }
  assert (Hlower :
            (0 <= fold_right Z.add 0%Z
                    (map (fun x => Z.min (count_equal vals x) limit)
                       (unique_cells vals)))%Z).
  { etransitivity; [|apply (Zsum_map_le (fun _ => 0%Z))].
    - now rewrite Zsum_map_zero.
    - intros x _. specialize (Hcount x). lia. }
  repeat split; try lia.
  intros Hall. rewrite <- Hsum. apply Zsum_map_ext_in.
  intros x _. specialize (Hcount x). lia.
Qed.

(** For a limit [k <= 0] the number that [set_max_window] computes is [k]
    times the number of distinct values. *)
Lemma set_max_window_nonpositive_number units group_by gv limit :
  get_group_vals units (Some group_by) = Ok (Some gv) ->
  is_float64 gv = true \/ Forall (fun c => isnan c = false) gv ->
  (limit <= 0)%Z ->
  set_max_window units (Some group_by) limit
  = Ok (limit * Z.of_nat (length (distinct (filter (fun c => negb (isnan c)) gv))))%Z.
Proof.
  intros Hvals Hdtype Hlimit.
  rewrite (set_max_window_counted units group_by gv limit Hvals Hdtype). cbv zeta.
  set (vals := filter (fun c => negb (isnan c)) gv). f_equal.
  rewrite <- (Permutation_length (unique_cells_Permutation vals)).
  rewrite <- Zsum_map_const. apply Zsum_map_ext_in.
  intros x _. unfold count_equal. lia.
Qed.

Lemma distinct_nonempty vals c :
  In c vals -> isnan c = false -> distinct vals <> [].
Proof.
  intros Hin Hnan E.
  destruct (distinct_from_covers vals [] c Hnan (or_introl Hin)) as [l [Hl _]].
  unfold distinct in E. rewrite E in Hl. destruct Hl.
Qed.

(** X11: the limit control goes down to -1.  With a group chosen whose
    column holds a value, a limit below 0 makes [set_max_window] compute a
    negative number, the limit times the number of distinct values, and the
    slider, whose minimum is 0 or more, refuses it as its maximum: the
    observer of the limit ends in [TraitError] and the maximum stays as it
    was.  The limit 0 sets the maximum to 0 on a slider whose minimum is 0. *)
Theorem limit_set_max_window_negative_limit units group_by gv s :
  get_group_vals units (Some group_by) = Ok (Some gv) ->
  is_float64 gv = true \/ Forall (fun c => isnan c = false) gv ->
  (forall limit c,
      (limit < 0)%Z -> (0 <= slider_min s)%Z -> In c gv -> isnan c = false ->
      limit_set_max_window units (Some group_by) "value" limit s = Raise TraitError)
  /\ (slider_min s = 0%Z ->
      limit_set_max_window units (Some group_by) "value" 0 s
      = Ok {| slider_min := 0; slider_max := 0 |}).
Proof.
  intros Hvals Hdtype. unfold limit_set_max_window. cbn [String.eqb Ascii.eqb Bool.eqb].
  split.
  - intros limit c Hlimit Hmin Hin Hnan.
    rewrite (set_max_window_nonpositive_number units group_by gv limit Hvals Hdtype)
      by lia.
    cbn [rbind]. unfold set_slider_max.
    assert (Hsome : distinct (filter (fun c => negb (isnan c)) gv) <> []).
    { apply (distinct_nonempty _ c); [|exact Hnan].
      apply filter_In. split; [exact Hin | now rewrite Hnan]. }
    destruct (distinct (filter (fun c => negb (isnan c)) gv)) as [|d ds];
      [contradiction|].
    replace (_ <? _)%Z with true; [reflexivity|].
    symmetry. apply Z.ltb_lt. cbn [length]. nia.
  - intros Hmin.
    rewrite (set_max_window_nonpositive_number units group_by gv 0 Hvals Hdtype)
      by lia.
    cbn [rbind]. unfold set_slider_max. rewrite Hmin. reflexivity.
Qed.

Lemma set_max_window_bounds_witness :
  let units :=
    {| table := {| id := [0; 1; 2; 3; 4; 5]%Z;
                   columns := [("layer", [Int 2; Int 5; Int 2; NaN; Int 2; Int 5])] |};
       ancestor := None |} in
  let gv := [Int 2; Int 5; Int 2; NaN; Int 2; Int 5] in
  (get_group_vals units (Some "layer") = Ok (Some gv)
   /\ (is_float64 gv = true \/ Forall (fun c => isnan c = false) gv)
   /\ (0 <= 2)%Z)
  /\ exists nunits,
       set_max_window units (Some "layer") 2 = Ok nunits
       /\ (0 <= nunits <= Z.of_nat (length (filter (fun c => negb (isnan c)) gv)))%Z
       /\ (nunits <= Z.of_nat (length gv))%Z
       /\ ((Z.of_nat (length gv) <= 2)%Z ->
           nunits = Z.of_nat (length (filter (fun c => negb (isnan c)) gv))).
Proof.
  intros units gv.
  split; [split; [reflexivity | split; [left; reflexivity | lia]]|].
  apply (set_max_window_bounds units "layer" gv 2);
    [reflexivity | left; reflexivity | lia].
Defined.

Lemma limit_set_max_window_negative_limit_witness :
  let units :=
    {| table := {| id := [0; 1; 2; 3; 4; 5]%Z;
                   columns := [("layer", [Int 2; Int 5; Int 2; NaN; Int 2; Int 5])] |};
       ancestor := None |} in
  let gv := [Int 2; Int 5; Int 2; NaN; Int 2; Int 5] in
  let s := {| slider_min := 0; slider_max := 5 |} in
  (get_group_vals units (Some "layer") = Ok (Some gv)
   /\ (is_float64 gv = true \/ Forall (fun c => isnan c = false) gv)
   /\ (-1 < 0)%Z /\ (0 <= slider_min s)%Z /\ In (Int 2) gv /\ isnan (Int 2) = false
   /\ slider_min s = 0%Z)
  /\ limit_set_max_window units (Some "layer") "value" (-1) s = Raise TraitError
  /\ limit_set_max_window units (Some "layer") "value" 0 s
     = Ok {| slider_min := 0; slider_max := 0 |}.
Proof.
  intros units gv s.
  assert (Hvals : get_group_vals units (Some "layer") = Ok (Some gv)) by reflexivity.
  assert (Hdtype : is_float64 gv = true \/ Forall (fun c => isnan c = false) gv)
    by (left; reflexivity).
  assert (Hin : In (Int 2) gv) by (left; reflexivity).
  split.
  - split; [exact Hvals|]. split; [exact Hdtype|]. split; [lia|].
    split; [simpl; lia|]. split; [exact Hin|]. split; reflexivity.
  - destruct (limit_set_max_window_negative_limit units "layer" gv s Hvals Hdtype)
      as [Hneg Hzero].
    split.
    + apply (Hneg (-1)%Z (Int 2)); [lia | simpl; lia | exact Hin | reflexivity].
    + apply Hzero. reflexivity.
Defined.

(** ** Electrode values by peak channel *)

Lemma Int_eqb (a b : Z) : cell_eqb (Int a) (Int b) = true <-> a = b.
Proof.
  unfold Int. simpl. rewrite Num_eqb_eq. split; [|now intros ->].
  unfold Num.of_Z. intros H. apply Q2Qc_eq_iff in H.
  unfold Qeq in H. simpl in H. lia.
Qed.

Lemma mapM_map {A B} (f : A -> result B) (g : A -> B) xs :
  (forall x, In x xs -> f x = Ok (g x)) -> mapM f xs = Ok (map g xs).
Proof.
  induction xs as [|x xs IH]; simpl; intros H; [reflexivity|].
  rewrite (H x (or_introl eq_refl)), IH; [reflexivity|].
  intros y Hy. apply H. now right.
Qed.

Lemma take_map {A} (d : A) xs idx :
  (forall i, In i idx -> i < length xs) ->
  take xs idx = Ok (map (fun i => nth i xs d) idx).
Proof.
  intros H. unfold take. apply mapM_map. intros i Hi. unfold getitem.
  destruct (nth_error xs i) as [x|] eqn:E.
  - now rewrite (nth_error_nth _ _ d E).
  - apply nth_error_None in E. specialize (H i Hi). lia.
Qed.

Lemma first_true_lt mask i : first_true mask = Some i -> i < length mask.
Proof.
  revert i. induction mask as [|b mask IH]; simpl; intros i H; [discriminate|].
  destruct b; [injection H as <-; lia|].
  destruct (first_true mask) as [j|]; [|discriminate].
  injection H as <-. specialize (IH j eq_refl). lia.
Qed.

Lemma first_true_none mask : Forall (fun b => b = false) mask -> first_true mask = None.
Proof. induction 1 as [|b mask -> _ IH]; simpl; [reflexivity | now rewrite IH]. Qed.

(** In a list without repetition the first match of a value is its
    position. *)
Lemma first_true_position ids i x :
  NoDup ids -> nth_error ids i = Some x ->
  first_true (map (fun j => cell_eqb (Int j) (Int x)) ids) = Some i.
Proof.
  intros Hnodup. revert i. induction Hnodup as [|y ids Hy _ IH]; intros i Hi.
  - destruct i; discriminate.
  - cbn [map first_true]. destruct i as [|i]; simpl in Hi.
    + injection Hi as ->. now rewrite (proj2 (Int_eqb x x) eq_refl).
    + destruct (cell_eqb (Int y) (Int x)) eqn:E.
      * apply Int_eqb in E. subst y. apply nth_error_In in Hi. contradiction.
      * now rewrite (IH i Hi).
Qed.

(** The index that [np.argmax(ids == val)] gives. *)
Lemma argmax_in_range (ids : list Z) val :
  ids <> [] ->
  exists i, argmax (map (fun j => cell_eqb (Int j) val) ids) = Ok i
            /\ i < length ids
            /\ i = match first_true (map (fun j => cell_eqb (Int j) val) ids) with
                   | Some i => i
                   | None => 0
                   end.
Proof.
  intros Hids. destruct ids as [|y ids]; [contradiction|].
  eexists. split; [reflexivity|]. split; [|reflexivity].
  destruct (first_true _) as [i|] eqn:E; [|simpl; lia].
  apply first_true_lt in E. now rewrite length_map in E.
Qed.

Section Electrodes.
Context {imports : Imports}.

(** The values that [electrode_vals] looks up for one unit: the column
    entry at the index that [np.argmax] gives for its peak channel. *)
Lemma electrode_vals_unit (units : Units) electrodes name pcs vals u pc :
  column units "peak_channel_id" = Ok pcs ->
  column electrodes name = Ok vals ->
  length vals = length (id electrodes) ->
  id electrodes <> [] ->
  nth_error pcs u = Some pc ->
  electrode_vals units electrodes name [u]
  = Ok [nth (match first_true (map (fun j => cell_eqb (Int j) pc) (id electrodes)) with
             | Some i => i
             | None => 0
             end) vals NaN].
Proof.
  intros Hpcs Hvals Hlen Hids Hu. unfold electrode_vals. cbv zeta.
  rewrite Hpcs. cbn [rbind].
  set (index_of_channel := fun val =>
         match first_true (map (fun j => cell_eqb (Int j) val) (id electrodes)) with
         | Some i => i
         | None => 0
         end).
  rewrite (mapM_map _ index_of_channel).
  2:{ intros val _. cbv beta.
      destruct (argmax_in_range (id electrodes) val Hids) as [i [E1 [_ E2]]].
      rewrite E1, E2. reflexivity. }
  cbn [rbind]. rewrite Hvals. cbn [rbind].
  rewrite (take_map NaN vals (map index_of_channel pcs)).
  2:{ intros i Hi. apply in_map_iff in Hi. destruct Hi as [val [<- _]].
      destruct (argmax_in_range (id electrodes) val Hids) as [i [_ [Hi E]]].
      unfold index_of_channel. rewrite <- E, Hlen. exact Hi. }
  cbn [rbind]. rewrite (take_map NaN _ [u]).
  2:{ intros i [<-|[]]. rewrite !length_map. apply nth_error_Some. congruence. }
  cbn [map]. f_equal. f_equal.
  rewrite map_map.
  rewrite (nth_indep _ NaN (nth (index_of_channel pc) vals NaN)).
  2:{ rewrite length_map. apply nth_error_Some. congruence. }
  rewrite (map_nth (fun x => nth (index_of_channel x) vals NaN) pcs pc u).
  now rewrite (nth_error_nth _ _ pc Hu).
Qed.

(** X12: a unit whose peak channel is the id of no electrode (a NaN
    included) is not reported: [np.argmax] of an all-false array is 0, and the
    unit silently gets the value of the first electrode. *)
Theorem electrode_vals_unmatched_channel (units : Units) electrodes name pcs v0 vals u
  pc :
  column units "peak_channel_id" = Ok pcs ->
  column electrodes name = Ok (v0 :: vals) ->
  length (v0 :: vals) = length (id electrodes) ->
  nth_error pcs u = Some pc ->
  (forall i, In i (id electrodes) -> cell_eqb (Int i) pc = false) ->
  electrode_vals units electrodes name [u] = Ok [v0].
Proof.
  intros Hpcs Hvals Hlen Hu Hnone.
  rewrite (electrode_vals_unit units electrodes name pcs (v0 :: vals) u pc
             Hpcs Hvals Hlen); [| |exact Hu].
  - rewrite first_true_none; [reflexivity|].
    apply Forall_forall. intros b Hb. apply in_map_iff in Hb.
    destruct Hb as [i [<- Hi]]. now apply Hnone.
  - intros E. rewrite E in Hlen. discriminate Hlen.
Qed.

(** X13: with electrode ids that do not repeat, a unit whose peak channel
    is the id of electrode [i] gets the value of electrode [i]. *)
Theorem electrode_vals_matched_channel (units : Units) electrodes name pcs vals u i x
  v :
  column units "peak_channel_id" = Ok pcs ->
  column electrodes name = Ok vals ->
  length vals = length (id electrodes) ->
  NoDup (id electrodes) ->
  nth_error pcs u = Some (Int x) ->
  nth_error (id electrodes) i = Some x ->
  nth_error vals i = Some v ->
  electrode_vals units electrodes name [u] = Ok [v].
Proof.
  intros Hpcs Hvals Hlen Hnodup Hu Hi Hv.
  rewrite (electrode_vals_unit units electrodes name pcs vals u (Int x)
             Hpcs Hvals Hlen); [| |exact Hu].
  - rewrite (first_true_position _ i x Hnodup Hi).
    now rewrite (nth_error_nth _ _ NaN Hv).
  - intros E. rewrite E in Hi. destruct i; discriminate.
Qed.

End Electrodes.

Lemma electrode_vals_unmatched_channel_witness :
  let units :=
    {| table := {| id := [0; 1]%Z;
                   columns := [("peak_channel_id", [Int 11; Int 99])] |};
       ancestor := None |} in
  let electrodes :=
    {| id := [10; 11]%Z; columns := [("location", [Str "CA1"; Str "VISp"])] |} in
  (column units "peak_channel_id" = Ok [Int 11; Int 99]
   /\ column electrodes "location" = Ok [Str "CA1"; Str "VISp"]
   /\ length [Str "CA1"; Str "VISp"] = length (id electrodes)
   /\ nth_error [Int 11; Int 99] 1 = Some (Int 99)
   /\ forall i, In i (id electrodes) -> cell_eqb (Int i) (Int 99) = false)
  /\ electrode_vals units electrodes "location" [1] = Ok [Str "CA1"].
Proof.
  intros units electrodes.
  assert (H : forall i, In i (id electrodes) -> cell_eqb (Int i) (Int 99) = false).
  { intros i [<-|[<-|[]]]; reflexivity. }
  split; [repeat (split; [reflexivity|]); exact H|].
  apply (electrode_vals_unmatched_channel units electrodes "location"
           [Int 11; Int 99] (Str "CA1") [Str "VISp"] 1 (Int 99));
    [reflexivity | reflexivity | reflexivity | reflexivity | exact H].
Defined.

Lemma electrode_vals_matched_channel_witness :
  let units :=
    {| table := {| id := [0; 1]%Z;
                   columns := [("peak_channel_id", [Int 11; Int 99])] |};
       ancestor := None |} in
  let electrodes :=
    {| id := [10; 11]%Z; columns := [("location", [Str "CA1"; Str "VISp"])] |} in
  (column units "peak_channel_id" = Ok [Int 11; Int 99]
   /\ column electrodes "location" = Ok [Str "CA1"; Str "VISp"]
   /\ length [Str "CA1"; Str "VISp"] = length (id electrodes)
   /\ NoDup (id electrodes)
   /\ nth_error [Int 11; Int 99] 0 = Some (Int 11)
   /\ nth_error (id electrodes) 1 = Some 11%Z
   /\ nth_error [Str "CA1"; Str "VISp"] 1 = Some (Str "VISp"))
  /\ electrode_vals units electrodes "location" [0] = Ok [Str "VISp"].
Proof.
  intros units electrodes.
  assert (H : NoDup (id electrodes)).
  { simpl. constructor; [intros [E|[]]; discriminate E|].
    constructor; [intros []|constructor]. }
  split; [repeat (split; [first [reflexivity | exact H]|]); reflexivity|].
  apply (electrode_vals_matched_channel units electrodes "location"
           [Int 11; Int 99] [Str "CA1"; Str "VISp"] 0 1 11%Z (Str "VISp"));
    [reflexivity | reflexivity | reflexivity | exact H | reflexivity | reflexivity
    | reflexivity].
Defined.

(** ** The group values of the Allen raster widget *)

(** X14: [AllenRasterWidget.get_group_vals] with a selection of units that
    is not empty computes what [show_session_raster] computes for
    [group_vals], with the same errors, except that it returns [None] where
    [show_session_raster] leaves the variable unassigned.  (An empty list is
    another matter: [show_session_raster] turns it into an array of floats,
    line 65, while the widget indexes with the list as it is, and gets the
    empty array.)  Without electrodes and without a selection the method is
    [RasterWidget.get_group_vals]. *)
Theorem allen_get_group_vals_agrees (units : Units) electrodes group_by units_select :
  (units_select <> [] ->
   allen_get_group_vals units electrodes group_by (Some units_select)
   = (found <- bind_group_vals units units_select group_by electrodes ;;
      Ok (match found with Bound group_vals => group_vals | Unbound => None end))%result)
  /\ (forall name vals,
        contains units name = true -> column units name = Ok vals ->
        allen_get_group_vals units electrodes (Some name) (Some []) = Ok (Some []))
  /\ allen_get_group_vals units None group_by None = get_group_vals units group_by.
Proof.
  unfold allen_get_group_vals, bind_group_vals, get_group_vals, electrode_vals, index_by.
  split; [|split].
  - intros _. destruct group_by as [group_by|]; [|reflexivity].
    destruct (contains units group_by).
    + destruct (column units group_by) as [vals|e]; [|reflexivity]. cbn [rbind].
      destruct (take vals units_select); reflexivity.
    + destruct electrodes as [electrodes|]; [|reflexivity].
      destruct (contains electrodes group_by); [|reflexivity]. cbv zeta.
      destruct (column units "peak_channel_id") as [pcs|e]; [|reflexivity].
      cbn [rbind].
      destruct (mapM _ pcs) as [inds|e]; [|reflexivity]. cbn [rbind].
      destruct (column electrodes group_by) as [vals|e]; [|reflexivity]. cbn [rbind].
      destruct (take vals inds) as [by_unit|e]; [|reflexivity]. cbn [rbind].
      destruct (take by_unit units_select); reflexivity.
  - intros name vals Hname Hvals. now rewrite Hname, Hvals.
  - destruct group_by as [group_by|]; [|reflexivity].
    destruct (contains units group_by); [|reflexivity].
    destruct (column units group_by); reflexivity.
Qed.

Lemma allen_get_group_vals_agrees_witness :
  let units :=
    {| table := {| id := [0; 1; 2]%Z;
                   columns := [("layer", [Int 2; Int 5; Int 2])] |};
       ancestor := None |} in
  ([0; 2] <> [] /\ contains units "layer" = true
   /\ column units "layer" = Ok [Int 2; Int 5; Int 2])
  /\ allen_get_group_vals units None (Some "layer") (Some [0; 2])
     = (found <- bind_group_vals units [0; 2] (Some "layer") None ;;
        Ok (match found with Bound group_vals => group_vals | Unbound => None end))%result
  /\ allen_get_group_vals units None (Some "layer") (Some []) = Ok (Some [])
  /\ allen_get_group_vals units None (Some "layer") None
     = get_group_vals units (Some "layer").
Proof.
  intros units.
  split; [split; [discriminate | split; reflexivity]|].
  destruct (allen_get_group_vals_agrees units None (Some "layer") [0; 2])
    as [Hsome [Hempty Hnone]].
  split; [apply Hsome; discriminate|].
  split; [apply (Hempty "layer" [Int 2; Int 5; Int 2]); reflexivity | exact Hnone].
Defined.

(** ** [trials_psth]: selections, defaults and labels *)

Lemma column_missing t name :
  contains t name = false -> column t name = Raise (KeyError name).
Proof.
  unfold contains, column, colnames. intros H.
  destruct (find _ (columns t)) as [c|] eqn:E; [|reflexivity].
  apply find_some in E. destruct E as [Hin E].
  assert (Hex : existsb (String.eqb name) (map fst (columns t)) = true).
  { apply existsb_exists. exists (fst c). split; [now apply in_map | exact E]. }
  congruence.
Qed.

Section PSTHCalls.
Context {imports : Imports}.

(** X15: without group and order, [trials_psth] reads the selection through
    its length only ([np.arange(len(trials_select))]); with the mask that
    [AllenPSTHWidget.process_controls] makes, which has one entry per trial
    whatever the stimulus chosen, the choice of the stimulus has no effect on
    the figure. *)
Theorem trials_psth_stimulus_without_group_and_order
  units index start_label before after sigma_in_secs ntt table stimulus stimulus'
  chosen chosen' :
  process_controls table stimulus = Ok chosen ->
  process_controls table stimulus' = Ok chosen' ->
  trials_psth units index start_label before after None None chosen sigma_in_secs ntt
  = trials_psth units index start_label before after None None chosen' sigma_in_secs
      ntt.
Proof.
  unfold process_controls. intros H H'.
  destruct (column table "stimulus_name") as [names|e]; [|discriminate H].
  cbn [rbind] in H, H'. injection H as <-. injection H' as <-.
  unfold trials_psth. rewrite !pbind_lift.
  destruct (psth_trials units) as [trials|e]; [|reflexivity].
  cbn [psth_vals]. rewrite !pbind_lift. cbn [psth_order selection_len].
  now rewrite !length_map.
Qed.

(** X16: called with neither group nor order and with the default selection
    [()], [trials_psth] aligns no trial and makes its figure; the raster stage
    then raises [TypeError] at [ax.eventplot], which is given no row.  Nothing
    is drawn on the figure, and [show_psth_smoothed] is not reached. *)
Theorem trials_psth_defaults_raise
  units index start_label before after sigma_in_secs ntt trials expanded_data :
  psth_trials units = Ok trials ->
  align_by_time_intervals units index trials start_label start_label before after []
  = Ok [] ->
  align_by_time_intervals units index trials start_label start_label
    (before + sigma_in_secs * four)%Qc (after + sigma_in_secs * four)%Qc []
  = Ok expanded_data ->
  trials_psth units index start_label before after None None EmptyTuple
    sigma_in_secs ntt
  = (Raise TypeError, [Subplots 2 1]).
Proof.
  intros Htrials Hdata Hexpanded. unfold trials_psth.
  rewrite Htrials, pbind_lift. cbn [psth_vals]. rewrite !pbind_lift.
  cbn [psth_order selection_len arange Nat.sub seq].
  rewrite Hdata, pbind_lift, Hexpanded, pbind_lift, pbind_emit.
  unfold show_psth_raster. rewrite plot_grouped_events_no_rows.
  reflexivity.
Qed.

(** X17: a [group_by] that names no column of the trials makes
    [trials_psth] raise [KeyError] with that name before a figure is made,
    whatever [order_by] is; without [group_by], an unknown [order_by] does the
    same. *)
Theorem trials_psth_unknown_label
  units index start_label before after order_by trials_select sigma_in_secs ntt table
  label :
  psth_trials units = Ok (Some table) ->
  contains table label = false ->
  trials_psth units index start_label before after order_by (Some label) trials_select
    sigma_in_secs ntt = (Raise (KeyError label), [])
  /\ trials_psth units index start_label before after (Some label) None trials_select
       sigma_in_secs ntt = (Raise (KeyError label), []).
Proof.
  intros Htrials Hlabel. unfold trials_psth.
  rewrite Htrials, !pbind_lift. cbn [psth_vals column_of].
  rewrite (column_missing table label Hlabel). split; [reflexivity|].
  now rewrite !pbind_lift.
Qed.

End PSTHCalls.

Lemma trials_psth_stimulus_without_group_and_order_witness :
  let table :=
    {| id := [0; 1; 2]%Z;
       columns := [("stimulus_name", [Str "gratings"; Str "flashes"; Str "gratings"])] |} in
  (process_controls table (Str "gratings") = Ok (Mask [true; false; true])
   /\ process_controls table (Str "flashes") = Ok (Mask [false; true; false]))
  /\ trials_psth example_units 0 "start_time" (decimal 5 10) (decimal 2 1) None None
       (Mask [true; false; true]) (decimal 5 100) 10
     = trials_psth example_units 0 "start_time" (decimal 5 10) (decimal 2 1) None None
         (Mask [false; true; false]) (decimal 5 100) 10.
Proof.
  intros table. split; [split; reflexivity|].
  apply (trials_psth_stimulus_without_group_and_order example_units 0 "start_time"
           (decimal 5 10) (decimal 2 1) (decimal 5 100) 10 table
           (Str "gratings") (Str "flashes"));
    reflexivity.
Defined.

Lemma trials_psth_defaults_raise_witness :
  (psth_trials example_units = Ok (Some example_trials)
   /\ align_by_time_intervals example_units 0 (Some example_trials) "start_time"
        "start_time" (decimal 0 1) (decimal 1 1) [] = Ok []
   /\ align_by_time_intervals example_units 0 (Some example_trials) "start_time"
        "start_time" (decimal 0 1 + decimal 5 100 * four)%Qc
        (decimal 1 1 + decimal 5 100 * four)%Qc [] = Ok [])
  /\ trials_psth example_units 0 "start_time" (decimal 0 1) (decimal 1 1)
       None None EmptyTuple (decimal 5 100) 1000
     = (Raise TypeError, [Subplots 2 1]).
Proof.
  split; [repeat split; reflexivity|].
  apply (trials_psth_defaults_raise example_units 0 "start_time" (decimal 0 1)
           (decimal 1 1) (decimal 5 100) 1000 (Some example_trials) []);
    reflexivity.
Defined.

Lemma trials_psth_unknown_label_witness :
  (psth_trials example_units = Ok (Some example_trials)
   /\ contains example_trials "contrast" = false)
  /\ trials_psth example_units 0 "start_time" (decimal 0 1) (decimal 1 1)
       (Some "stimulus") (Some "contrast") EmptyTuple (decimal 5 100) 1000
     = (Raise (KeyError "contrast"), [])
  /\ trials_psth example_units 0 "start_time" (decimal 0 1) (decimal 1 1)
       (Some "contrast") None EmptyTuple (decimal 5 100) 1000
     = (Raise (KeyError "contrast"), []).
Proof.
  split; [split; reflexivity|].
  apply (trials_psth_unknown_label example_units 0 "start_time" (decimal 0 1)
           (decimal 1 1) (Some "stimulus") EmptyTuple (decimal 5 100) 1000
           example_trials "contrast");
    reflexivity.
Defined.

(** ** [raster_grid]: labels and cells *)

Lemma compress_repeat_true {A} (xs : list A) :
  compress (repeat true (length xs)) xs = xs.
Proof. induction xs as [|x xs IH]; simpl; [reflexivity | now rewrite IH]. Qed.

Lemma where_true_all n : where_true (repeat true n) = seq 0 n.
Proof.
  unfold where_true. rewrite repeat_length.
  pose proof (compress_repeat_true (seq 0 n)) as H.
  now rewrite length_seq in H.
Qed.

Section GridCalls.
Context {imports : Imports}.

(** X18: a [rows_label] that names no column of the trials makes
    [raster_grid] raise [KeyError] with that name before a figure is made,
    whatever [cols_label] is; without [rows_label], an unknown [cols_label]
    does the same. *)
Theorem raster_grid_unknown_label
  units table index before after cols_label align_by label :
  contains table label = false ->
  raster_grid units (Some table) index before after (Some label) cols_label align_by
  = (Raise (KeyError label), [])
  /\ raster_grid units (Some table) index before after None (Some label) align_by
     = (Raise (KeyError label), []).
Proof.
  intros Hlabel. unfold raster_grid. cbn [grid_vals].
  rewrite (column_missing table label Hlabel). split; [reflexivity|].
  now rewrite !pbind_lift.
Qed.

(** X19: without labels [raster_grid] makes a grid of one cell.  On a table
    without trials the cell stays empty.  Otherwise all trials are aligned, in
    the order of the table, and trial [k] is drawn on line [k] of the cell;
    when the alignment fails, the figure has been made and is left empty, and
    so it is, with the [TypeError] of [ax.eventplot], should the alignment
    return no array at all. *)
Theorem raster_grid_without_labels units table index before after align_by :
  let run := raster_grid units (Some table) index before after None None align_by in
  let aligned := align_by_time_intervals units index (Some table) align_by align_by
                   before after (seq 0 (len table)) in
  (len table = 0 ->
   run = (Ok tt, [Subplots 1 1; CreateBigAx; SetXlabel BigAx NoText;
                  SetYlabel BigAx NoText]))
  /\ (len table <> 0 -> forall data, aligned = Ok data -> data <> [] ->
      outcome run = Ok tt
      /\ drawn run
         = [Subplots 1 1; CreateBigAx]
             ++ drawn (show_psth_raster data before after None None (Some (Ax 0 0))
                         true)
             ++ [SetXlabel (Ax 0 0) (Text ""); SetYlabel (Ax 0 0) (Text "");
                 SetYlabel (Ax 0 0) NoText; SetXlabel (Ax 0 0) NoText;
                 SetXlabel BigAx NoText; SetYlabel BigAx NoText]
      /\ drawn_events (drawn run) = combine (seq 0 (length data)) data)
  /\ (len table <> 0 -> forall e, aligned = Raise e ->
      run = (Raise e, [Subplots 1 1; CreateBigAx]))
  /\ (len table <> 0 -> aligned = Ok [] ->
      run = (Raise TypeError, [Subplots 1 1; CreateBigAx])).
Proof.
  intros run aligned. unfold run, aligned, raster_grid. clear run aligned.
  cbn [grid_vals]. rewrite !pbind_lift. cbn [length Nat.eqb].
  cbn [enumerate length seq combine for_each restrict rbind].
  rewrite pbind_lift, where_true_all.
  destruct (Nat.eq_dec (len table) 0) as [En|En].
  - rewrite En. split; [intros _; reflexivity|].
    split; [|split]; intros H; contradiction.
  - split; [intros H; contradiction|].
    rewrite (match_nonempty (seq 0 (len table)))
      by (destruct (len table); [contradiction | discriminate]).
    cbn [Nat.eqb Nat.sub value_text label_text].
    split; [|split]; intros _.
    + intros data Hdata Hrows. rewrite Hdata, pbind_lift.
      destruct (plot_grouped_events_ungrouped data (- before, after)%Qc
                  (Some (Ax 0 0)) None true 0 None Hrows) as [Ho Hd].
      unfold show_psth_raster.
      destruct (plot_grouped_events data (- before, after)%Qc None (Some (Ax 0 0))
                  None true 0 None) as [r made].
      simpl in Ho, Hd. subst r.
      rewrite !pbind_emit, !pbind_pair_ok, !pbind_emit, !outcome_pair, !drawn_pair.
      unfold pret, emit. cbn [outcome drawn fst snd].
      repeat (rewrite pbind_pair_ok; cbn [outcome drawn fst snd]).
      rewrite !app_nil_r, <- !app_assoc. cbn [app].
      split; [reflexivity|]. split; [reflexivity|].
      change (Subplots 1 1 :: CreateBigAx :: made ++ ?rest)
        with ([Subplots 1 1; CreateBigAx] ++ made ++ rest).
      rewrite !drawn_events_app, Hd. simpl. now rewrite app_nil_r.
    + intros e He. rewrite He, pbind_lift. reflexivity.
    + intros Hdata. rewrite Hdata, pbind_lift. unfold show_psth_raster.
      rewrite plot_grouped_events_no_rows. reflexivity.
Qed.

End GridCalls.

Lemma raster_grid_unknown_label_witness :
  contains example_trials "contrast" = false
  /\ raster_grid example_units (Some example_trials) 0 (decimal 5 10) (decimal 5 10)
       (Some "contrast") (Some "stimulus") "start_time"
     = (Raise (KeyError "contrast"), [])
  /\ raster_grid example_units (Some example_trials) 0 (decimal 5 10) (decimal 5 10)
       None (Some "contrast") "start_time"
     = (Raise (KeyError "contrast"), []).
Proof.
  split; [reflexivity|].
  apply (raster_grid_unknown_label example_units example_trials 0 (decimal 5 10)
           (decimal 5 10) (Some "stimulus") "start_time" "contrast").
  reflexivity.
Defined.

Lemma raster_grid_without_labels_witness :
  let run := raster_grid example_units (Some example_trials) 0 (decimal 5 10)
               (decimal 5 10) None None "start_time" in
  let aligned := align_by_time_intervals example_units 0 (Some example_trials)
                   "start_time" "start_time" (decimal 5 10) (decimal 5 10)
                   (seq 0 (len example_trials)) in
  let data := match aligned with Ok data => data | Raise _ => [] end in
  (len example_trials <> 0 /\ aligned = Ok data /\ data <> [])
  /\ outcome run = Ok tt
  /\ drawn run
     = [Subplots 1 1; CreateBigAx]
         ++ drawn (show_psth_raster data (decimal 5 10) (decimal 5 10) None None
                     (Some (Ax 0 0)) true)
         ++ [SetXlabel (Ax 0 0) (Text ""); SetYlabel (Ax 0 0) (Text "");
             SetYlabel (Ax 0 0) NoText; SetXlabel (Ax 0 0) NoText;
             SetXlabel BigAx NoText; SetYlabel BigAx NoText]
  /\ drawn_events (drawn run) = combine (seq 0 (length data)) data.
Proof.
  intros run aligned data.
  split;
    [split; [discriminate | split; [vm_compute; reflexivity | vm_compute; discriminate]]|].
  apply (proj1 (proj2 (raster_grid_without_labels example_units example_trials 0
                         (decimal 5 10) (decimal 5 10) "start_time")));
    [discriminate | vm_compute; reflexivity | vm_compute; discriminate].
Defined.

(** ** The cells of the grid share out the trials *)













(** ** [trials_psth] with a mask of trials *)

Lemma compress_length {A B} mask (xs : list A) (ys : list B) :
  length mask = length xs -> length mask = length ys ->
  length (compress mask xs) = length (compress mask ys).
Proof.
  revert xs ys. induction mask as [|b mask IH]; intros [|x xs] [|y ys] Hx Hy;
    try discriminate; [reflexivity|].
  simpl. specialize (IH xs ys ltac:(now injection Hx) ltac:(now injection Hy)).
  destruct b; simpl; congruence.
Qed.

(** The rows that the model of [group_and_sort] returns are rows of its
    arrays. *)
Lemma group_and_sort_rows_in_range gv ov order group_inds labels :
  Dynamictable.group_and_sort gv ov None None = Ok (order, group_inds, labels) ->
  Forall (fun r => r < match gv, ov with
                       | Some g, _ => length g
                       | None, Some o => length o
                       | None, None => 0
                       end) order.
Proof.
  unfold Dynamictable.group_and_sort.
  destruct (negb _); [discriminate|].
  fold (Dynamictable.row_count gv ov). set (M := Dynamictable.row_count gv ov).
  intros H.
  assert (Hrows : forall r,
            In r (slice 0 M (Dynamictable.limited_rows gv ov None)) -> r < M).
  { intros r Hr. apply slice_incl in Hr. unfold Dynamictable.limited_rows in Hr.
    apply apply_limit_incl in Hr. unfold Dynamictable.sorted_rows in Hr.
    apply sort_rows_In in Hr. fold M in Hr. unfold Dynamictable.eligible in Hr.
    destruct gv; [apply filter_In in Hr; destruct Hr as [Hr _]|];
      apply in_seq in Hr; lia. }
  apply Forall_forall.
  destruct gv as [g|], ov as [o|]; injection H as <- _ _; exact Hrows.
Qed.

Section MaskedTrials.
Context {imports : Imports}.

Lemma psth_vals_masked trials label mask vals :
  psth_vals trials (Some label) (Mask mask) = Ok (Some vals) ->
  length vals = length (where_true mask).
Proof.
  unfold psth_vals, select_by. destruct (column_of trials label) as [col|e];
    [|discriminate].
  cbn [rbind]. destruct (select mask col) as [chosen|e] eqn:E; [|discriminate].
  cbn [rbind]. intros [= <-]. apply select_ok in E. destruct E as [Hlen ->].
  unfold where_true. apply compress_length; [exact Hlen | now rewrite length_seq].
Qed.

Lemma psth_vals_given trials label trials_select :
  psth_vals trials (Some label) trials_select = Ok None -> False.
Proof.
  unfold psth_vals. destruct (column_of trials label) as [col|e]; [|discriminate].
  cbn [rbind]. destruct (select_by trials_select col); discriminate.
Qed.

(** X21: [trials_psth] indexes the columns with the mask of trials, sorts
    the values that are left, and then hands the resulting positions to
    [align_by_time_intervals] as rows of the whole table.  So, as long as
    [group_and_sort] returns positions in the arrays it was given, with a
    group or an order and a mask that selects [k] trials, the order that the
    run computes holds rows below [k] only: the trials that the run aligns,
    and draws in its raster and its curves, are among the first [k] trials of
    the table, whichever trials the mask selects. *)
Theorem trials_psth_mask_rows
  units index start_label before after order_by group_by mask sigma_in_secs ntt :
  (forall gv ov order group_inds labels,
      group_and_sort gv ov None None = Ok (order, group_inds, labels) ->
      Forall (fun r => r < match gv, ov with
                           | Some g, _ => length g
                           | None, Some o => length o
                           | None, None => 0
                           end) order) ->
  group_by <> None \/ order_by <> None ->
  let run := trials_psth units index start_label before after order_by group_by
               (Mask mask) sigma_in_secs ntt in
  outcome run = Ok tt ->
  exists trials group_vals order_vals order group_inds labels data expanded_data,
    psth_trials units = Ok trials
    /\ psth_vals trials group_by (Mask mask) = Ok group_vals
    /\ psth_vals trials order_by (Mask mask) = Ok order_vals
    /\ psth_order group_vals order_vals (Mask mask) = Ok (order, group_inds, labels)
    /\ align_by_time_intervals units index trials start_label start_label before
         after order = Ok data
    /\ align_by_time_intervals units index trials start_label start_label
         (before + sigma_in_secs * four)%Qc (after + sigma_in_secs * four)%Qc order
       = Ok expanded_data
    /\ drawn run
       = Subplots 2 1
           :: drawn (show_psth_raster data before after group_inds labels
                       (Some (Ax 0 0)) true)
           ++ [SetTitle (Ax 0 0) index; SetXticks (Ax 0 0) [];
               SetXlabel (Ax 0 0) (Text "")]
           ++ drawn (show_psth_smoothed expanded_data (Ax 1 0) before after group_inds
                       sigma_in_secs ntt)
    /\ Forall (fun r => r < length (where_true mask)) order.
Proof.
  intros Hengine Hby run H. unfold run, trials_psth in H |- *. clear run.
  rewrite pbind_lift in H |- *.
  destruct (psth_trials units) as [trials|e] eqn:Etrials; [|discriminate H].
  rewrite pbind_lift in H |- *.
  destruct (psth_vals trials group_by (Mask mask)) as [gv|e] eqn:Egv; [|discriminate H].
  rewrite pbind_lift in H |- *.
  destruct (psth_vals trials order_by (Mask mask)) as [ov|e] eqn:Eov; [|discriminate H].
  rewrite pbind_lift in H |- *.
  destruct (psth_order gv ov (Mask mask)) as [[[order group_inds] labels]|e] eqn:Eorder;
    [|discriminate H].
  rewrite pbind_lift in H |- *.
  destruct (align_by_time_intervals units index trials start_label start_label before
              after order) as [data|e] eqn:Edata; [|discriminate H].
  rewrite pbind_lift in H |- *.
  destruct (align_by_time_intervals units index trials start_label start_label
              (before + sigma_in_secs * four)%Qc (after + sigma_in_secs * four)%Qc order)
    as [expanded_data|e] eqn:Eexpanded; [|discriminate H].
  exists trials, gv, ov, order, group_inds, labels, data, expanded_data.
  split; [reflexivity|]. do 5 (split; [assumption|]).
  split.
  { rewrite pbind_emit, outcome_pair in H. rewrite pbind_emit, drawn_pair.
    apply pbind_ok in H. destruct H as [ax [_ [_ Hdrawn]]].
    rewrite Hdrawn. now rewrite !pbind_emit, !drawn_pair. }
  assert (Hgv : forall g, gv = Some g -> length g = length (where_true mask)).
  { intros g ->. destruct group_by as [label|]; [|discriminate Egv].
    exact (psth_vals_masked trials label mask g Egv). }
  assert (Hov : forall o, ov = Some o -> length o = length (where_true mask)).
  { intros o ->. destruct order_by as [label|]; [|discriminate Eov].
    exact (psth_vals_masked trials label mask o Eov). }
  unfold psth_order in Eorder.
  destruct gv as [g|].
  - apply Hengine in Eorder. now rewrite (Hgv g eq_refl) in Eorder.
  - destruct ov as [o|].
    + apply Hengine in Eorder. now rewrite (Hov o eq_refl) in Eorder.
    + exfalso. destruct Hby as [Hby|Hby].
      * destruct group_by as [label|]; [|contradiction].
        exact (psth_vals_given trials label (Mask mask) Egv).
      * destruct order_by as [label|]; [|contradiction].
        exact (psth_vals_given trials label (Mask mask) Eov).
Qed.

End MaskedTrials.

Lemma trials_psth_mask_rows_witness :
  let before := decimal 5 10 in
  let after := decimal 5 10 in
  let sigma := decimal 1 10 in
  let mask := [false; true; true] in
  let run := trials_psth example_units 0 "start_time" before after
               (Some "start_time") None (Mask mask) sigma 5 in
  ((forall gv ov order group_inds labels,
       group_and_sort gv ov None None = Ok (order, group_inds, labels) ->
       Forall (fun r => r < match gv, ov with
                            | Some g, _ => length g
                            | None, Some o => length o
                            | None, None => 0
                            end) order)
   /\ (@None string <> None \/ Some "start_time" <> None)
   /\ outcome run = Ok tt)
  /\ exists trials group_vals order_vals order group_inds labels data expanded_data,
       psth_trials example_units = Ok trials
       /\ psth_vals trials None (Mask mask) = Ok group_vals
       /\ psth_vals trials (Some "start_time") (Mask mask) = Ok order_vals
       /\ psth_order group_vals order_vals (Mask mask) = Ok (order, group_inds, labels)
       /\ align_by_time_intervals example_units 0 trials "start_time" "start_time"
            before after order = Ok data
       /\ align_by_time_intervals example_units 0 trials "start_time" "start_time"
            (before + sigma * four)%Qc (after + sigma * four)%Qc order
          = Ok expanded_data
       /\ drawn run
          = Subplots 2 1
              :: drawn (show_psth_raster data before after group_inds labels
                          (Some (Ax 0 0)) true)
              ++ [SetTitle (Ax 0 0) 0; SetXticks (Ax 0 0) [];
                  SetXlabel (Ax 0 0) (Text "")]
              ++ drawn (show_psth_smoothed expanded_data (Ax 1 0) before after
                          group_inds sigma 5)
       /\ Forall (fun r => r < length (where_true mask)) order.
Proof.
  intros before after sigma mask run.
  assert (Hby : @None string <> None \/ Some "start_time" <> None)
    by (right; discriminate).
  assert (Hrun : outcome run = Ok tt) by (vm_compute; reflexivity).
  split; [split; [exact group_and_sort_rows_in_range | split; assumption]|].
  exact (trials_psth_mask_rows example_units 0 "start_time" before after
           (Some "start_time") None mask sigma 5 group_and_sort_rows_in_range Hby Hrun).
Defined.
